(** * Agentless: request helpers and the JSON formatter

    A shallow embedding of [agentless/util/api_requests.py] (the two
    configuration builders, the process-wide OpenAI cooldown, the two request
    executors with their retry policies, the extraction of a server-suggested
    wait) and of [all_repo_structures/_format_json_files.py] (the exit status
    of the formatter), followed by the properties established about them.

    Conventions of the embedding.
    - Python values are the JSON-like universe [PyVal]; a [dict] is an
      association list in insertion order, as Python keeps it.
    - Python [float]s that measure time are rationals ([Q]) next to [inf]
      and [nan]; the rounding of binary64 is not modelled.
    - Text is ASCII ([string]).
    - Effects (the clock, [time.sleep], the module-level timestamp, provider
      calls, log records, the caller's configuration object) live in a state
      and exception monad [M] over [World]. *)

From Stdlib Require Import ZArith QArith Lqa Lia List String Ascii Bool.
From Stdlib Require Import Qabs Permutation Sorted.
Import ListNotations.

Set Implicit Arguments.
Set Warnings "-register-all".

(* ===================================================================== *)
(** * Python values                                                       *)
(* ===================================================================== *)

Module Py.

(** A Python [float]: a finite value, an infinity or [nan]. *)
Inductive PyFloat : Type :=
| Fin (q : Q)
| Inf (negative : bool)
| NaN.

Inductive PyVal : Type :=
| VNone
| VBool (b : bool)
| VInt (z : Z)
| VFloat (f : PyFloat)
| VStr (s : string)
| VList (l : list PyVal)
| VDict (d : list (string * PyVal)).

Definition PyDict : Type := list (string * PyVal).

(** [d.get(k)] *)
Fixpoint dict_get (d : PyDict) (k : string) : option PyVal :=
  match d with
  | [] => None
  | (k', v) :: d' => if String.eqb k' k then Some v else dict_get d' k
  end.

(** [d[k] = v]: an existing key keeps its place, a new key goes last. *)
Fixpoint dict_set (d : PyDict) (k : string) (v : PyVal) : PyDict :=
  match d with
  | [] => [(k, v)]
  | (k', v') :: d' =>
      if String.eqb k' k then (k', v) :: d' else (k', v') :: dict_set d' k v
  end.

Definition Qeqb0 (q : Q) : bool := Z.eqb (Qnum q) 0.

(** Truth value of an object, as [if x:] and [x or y] test it. *)
Definition truthy (v : PyVal) : bool :=
  match v with
  | VNone => false
  | VBool b => b
  | VInt z => negb (Z.eqb z 0)
  | VFloat (Fin q) => negb (Qeqb0 q)
  | VFloat _ => true
  | VStr s => negb (String.eqb s EmptyString)
  | VList l => match l with [] => false | _ => true end
  | VDict d => match d with [] => false | _ => true end
  end.

(** [x or y] on the results of two [dict.get] calls ([None] when absent). *)
Definition py_or (x y : option PyVal) : PyVal :=
  match x with
  | Some v => if truthy v then v else match y with Some u => u | None => VNone end
  | None => match y with Some u => u | None => VNone end
  end.

End Py.
Export Py.

(* ===================================================================== *)
(** * Configuration builders                                              *)
(* ===================================================================== *)

Module Builders.

(** [message: Union[str, list]], told apart by [isinstance(message, list)]. *)
Inductive Prompt : Type :=
| PStr (s : string)
| PList (l : list PyVal).

Definition role_content (role : string) (content : PyVal) : PyVal :=
  VDict [("role"%string, VStr role); ("content"%string, content)].

Definition default_system_message : string := "You are a helpful assistant.".

Definition create_chatgpt_config
    (message : Prompt) (max_tokens : Z) (temperature : PyVal) (batch_size : Z)
    (system_message : string) (model : string) (reasoning_effort : string)
    : PyDict :=
  match message with
  | PList l =>
      [ ("model"%string, VStr model);
        ("max_completion_tokens"%string, VInt max_tokens);
        ("n"%string, VInt batch_size);
        ("reasoning_effort"%string, VStr reasoning_effort);
        ("messages"%string,
          VList ([role_content "system" (VStr system_message)] ++ l)) ]
  | PStr s =>
      [ ("model"%string, VStr model);
        ("max_completion_tokens"%string, VInt max_tokens);
        ("n"%string, VInt batch_size);
        ("reasoning_effort"%string, VStr reasoning_effort);
        ("messages"%string,
          VList [ role_content "system" (VStr system_message);
                  role_content "user" (VStr s) ]) ]
  end.

(** The text block [{"type": "text", "text": message}]. *)
Definition text_block (s : string) : PyVal :=
  VDict [("type"%string, VStr "text"); ("text"%string, VStr s)].

Definition create_anthropic_config
    (message : Prompt) (max_tokens : Z) (temperature : PyVal) (batch_size : Z)
    (system_message : string) (model : string) (tools : option (list PyVal))
    : PyDict :=
  let config :=
    match message with
    | PList l =>
        [ ("model"%string, VStr model);
          ("temperature"%string, temperature);
          ("max_tokens"%string, VInt max_tokens);
          ("messages"%string, VList l) ]
    | PStr s =>
        [ ("model"%string, VStr model);
          ("temperature"%string, temperature);
          ("max_tokens"%string, VInt max_tokens);
          ("messages"%string,
            VList [ role_content "user" (VList [text_block s]) ]) ]
    end in
  match tools with
  | Some t => if truthy (VList t) then dict_set config "tools" (VList t) else config
  | None => config
  end.

End Builders.
Export Builders.

(* ===================================================================== *)
(** * The world the executors run in                                      *)
(* ===================================================================== *)

Module Effects.

(** ** OpenAI errors *)

(** The classes the executor tells apart with [isinstance], in the order it
    asks; [OtherOpenAIError] is every other subclass of [openai.OpenAIError]. *)
Inductive OpenAIErrorClass : Type :=
| BadRequestError
| RateLimitError
| APIConnectionError
| OtherOpenAIError.

(** The response headers as the code uses them: their truth value
    ([if headers:]) and [headers.get(name)]. *)
Record Headers : Type := mkHeaders {
  headers_truthy : bool;
  headers_get : string -> option string
}.

(** [e.response]; [headers] is [getattr(resp, "headers", None)]. *)
Record HttpResponse : Type := mkHttpResponse {
  headers : option Headers
}.

Record OpenAIError : Type := mkOpenAIError {
  error_class : OpenAIErrorClass;
  response : option HttpResponse;     (* getattr(e, "response", None) *)
  message : string                    (* str(e) *)
}.

(** Exceptions (subclasses of [Exception]). *)
Inductive PyExn : Type :=
| ExnOpenAI (e : OpenAIError)
| ExnValueError
| ExnOverflowError
| ExnOSError
| ExnTypeError
| ExnKeyError
| ExnIndexError
| ExnException (msg : string).

(** ** Provider responses *)

Record ChatCompletionMessage : Type := mkMessage {
  content : option string
}.

Record Choice : Type := mkChoice {
  choice_message : ChatCompletionMessage
}.

Record CompletionTokensDetails : Type := mkDetails {
  reasoning_tokens : option Z;
  accepted_prediction_tokens : option Z
}.

Record CompletionUsage : Type := mkUsage {
  completion_tokens_details : option CompletionTokensDetails
}.

Record ChatCompletion : Type := mkChatCompletion {
  completion_id : string;
  choices : list Choice;
  usage : option CompletionUsage
}.

(** An Anthropic response is opaque to the executor. *)
Record AnthropicMessage : Type := mkAnthropicMessage {
  anthropic_id : string
}.

Inductive Outcome (A : Type) : Type :=
| Returns (a : A)
| Raises (e : PyExn).
Arguments Raises {A} e.

(** ** Environment and state *)

(** Which [messages.create] the Anthropic executor calls. *)
Inductive Endpoint : Type :=
| PromptCachingMessages        (* client.beta.prompt_caching.messages.create *)
| Messages.                    (* client.messages.create *)

(** What the program does not control.  [_OPENAI_COOLDOWN_SEC] is the
    interval read when the module is loaded, a finite number of seconds.
    [elapse k] is the time that passes just before the [k]-th interaction
    with the outside (reading the clock, starting a sleep, a provider call).
    A provider is scripted by the number of calls made before and sees the
    configuration submitted; the clients are taken to exist.
    [platform_sleep d] is what the build of the interpreter and the
    operating system make of [time.sleep(d)] for a length [d] the
    interpreter's own checks let through: nothing ([None], the sleep is
    made) or an exception.  Linux's [clock_nanosleep] answers [OSError] to a
    deadline beyond its largest time, and at the very limit of the range
    CPython 3.11 answers [ValueError] where later versions answer
    [OverflowError]. *)
Record Env : Type := mkEnv {
  _OPENAI_COOLDOWN_SEC : Q;
  elapse : nat -> Q;
  chat_completions_create : nat -> PyDict -> Outcome ChatCompletion;
  has_prompt_caching : bool;
  messages_create : Endpoint -> nat -> PyDict -> Outcome AnthropicMessage;
  platform_sleep : Q -> option PyExn
}.

Inductive LogMsg : Type :=
| LogCooldown (wait : Q)            (* "Respecting OpenAI cooldown: sleeping ..." *)
| LogCreating                       (* "Creating API request" *)
| LogInvalid                        (* "Request invalid" *)
| LogRateLimit                      (* "Rate limit exceeded. Waiting..." *)
| LogConnection                     (* "API connection error. Waiting..." *)
| LogUnknown                        (* "Unknown error. Waiting..." *)
| LogError (e : OpenAIError)        (* the error itself *)
| LogResponse (r : option ChatCompletion)  (* "API response ..." *)
| LogBump                           (* "Empty content likely due to ..." *)
| LogBumpResponse (r : ChatCompletion)
| LogTimedOut                       (* "Request timed out. Retrying..." *)
| LogRetrying.                      (* "Retrying after an unknown error..." *)

Inductive Event : Type :=
| EvStamp (t : Q)                        (* _last_openai_request_ts = t *)
| EvSleep (d : Q)                        (* time.sleep(d) *)
| EvChat (cfg : PyDict)                  (* chat.completions.create( **cfg ) *)
| EvMessages (ep : Endpoint) (cfg : PyDict)
| EvLog (m : LogMsg)                     (* logger.info / error / warning *)
| EvPrint (m : LogMsg).                  (* print *)

(** [trace] holds the newest event first. [config] is the configuration
    object of the caller, which the executors read and write in place. *)
Record World : Type := mkWorld {
  clock : Q;
  ticks : nat;
  _last_openai_request_ts : Q;
  calls : nat;
  config : PyDict;
  trace : list Event
}.

Definition with_clock (w : World) (c : Q) (k : nat) : World :=
  mkWorld c k (_last_openai_request_ts w) (calls w) (config w) (trace w).
Definition with_last (w : World) (t : Q) : World :=
  mkWorld (clock w) (ticks w) t (calls w) (config w) (trace w).
Definition with_calls (w : World) (n : nat) : World :=
  mkWorld (clock w) (ticks w) (_last_openai_request_ts w) n (config w) (trace w).
Definition with_config (w : World) (c : PyDict) : World :=
  mkWorld (clock w) (ticks w) (_last_openai_request_ts w) (calls w) c (trace w).
Definition emit (w : World) (e : Event) : World :=
  mkWorld (clock w) (ticks w) (_last_openai_request_ts w) (calls w) (config w)
          (e :: trace w).

(** ** The monad *)

Inductive Res (A : Type) : Type :=
| Val (a : A)
| Exc (e : PyExn).
Arguments Exc {A} e.

Definition M (A : Type) : Type := World -> Res A * World.

Definition ret {A} (a : A) : M A := fun w => (Val a, w).
Definition raise {A} (e : PyExn) : M A := fun w => (Exc e, w).
Definition bind {A B} (c : M A) (k : A -> M B) : M B :=
  fun w => match c w with
           | (Val a, w1) => k a w1
           | (Exc e, w1) => (Exc e, w1)
           end.

(** [try: c  except <the classes h answers to>: h e]; an exception [h]
    declines goes on up. *)
Definition try_except {A} (c : M A) (h : PyExn -> option (M A)) : M A :=
  fun w => match c w with
           | (Val a, w1) => (Val a, w1)
           | (Exc e, w1) => match h e with
                            | Some k => k w1
                            | None => (Exc e, w1)
                            end
           end.

Declare Scope py_scope.
Delimit Scope py_scope with py.
Notation "x <- c ;; k" := (bind c (fun x => k))
  (at level 61, c at next level, right associativity) : py_scope.
Notation "c ;; k" := (bind c (fun _ => k))
  (at level 61, right associativity) : py_scope.
Open Scope py_scope.

Definition Qltb (x y : Q) : bool := negb (Qle_bool y x).

Section Primitives.
Variable env : Env.

(** Time goes by before the program next touches the outside. *)
Definition pass (w : World) : World :=
  with_clock w (clock w + elapse env (ticks w))%Q (S (ticks w)).

(** [time.time()] *)
Definition time_time : M Q :=
  fun w => let w1 := pass w in (Val (clock w1), w1).

(** A sleep that is made: it returns once [q] has gone by, possibly later. *)
Definition slept (q : Q) : M unit :=
  fun w => let w1 := pass w in
           (Val tt, emit (with_clock w1 (clock w1 + q)%Q (ticks w1)) (EvSleep q)).

(** [time.sleep] turns its length into nanoseconds, rounded away from 0,
    in a signed 64-bit integer ([_PyTime_t]): [2^63] is the limit. *)
Definition sleep_limit_ns : Z := 2 ^ 63.

(** Lengths are exact numbers here, while the code has doubles: [float]
    rounds the text it reads and the product with [10^9] is rounded again.
    At the limit the two roundings move a length by less than [2048]
    nanoseconds, so within that distance of the limit which side a length
    falls on is not told from its exact value. *)
Definition rounding_ns : Z := 2048.

Definition nanoseconds (q : Q) : Q := (Qabs q * inject_Z (10 ^ 9))%Q.

Definition beyond_limit (q : Q) : bool :=
  Qltb (inject_Z (sleep_limit_ns + rounding_ns)) (nanoseconds q).

Definition near_limit (q : Q) : bool :=
  Qle_bool (inject_Z (sleep_limit_ns - rounding_ns)) (nanoseconds q)
  && negb (beyond_limit q).

(** What [time.sleep(d)] makes of a float [d]: the length it sleeps, or
    the exception it raises.  [nan] is a [ValueError]; a length that does
    not fit the range, an infinity among them, is an [OverflowError],
    whatever its sign; a negative length that fits is a [ValueError] ("sleep
    length must be non-negative"); a length of 0 or more that fits is left
    to the platform, and so is, for the exception it raises, a negative
    length at the limit. *)
Definition sleep_check (d : PyFloat) : Q + PyExn :=
  match d with
  | NaN => inr ExnValueError
  | Inf _ => inr ExnOverflowError
  | Fin q =>
      if beyond_limit q then inr ExnOverflowError
      else if Qltb q 0 then
        inr (if near_limit q
             then match platform_sleep env q with
                  | Some x => x
                  | None => ExnValueError
                  end
             else ExnValueError)
      else match platform_sleep env q with
           | Some x => inr x
           | None => inl q
           end
  end.

(** [time.sleep(d)] for a float [d] that comes from outside (the wait a
    server suggests). *)
Definition time_sleep (d : PyFloat) : M unit :=
  fun w => match sleep_check d with
           | inl q => slept q w
           | inr x => (Exc x, w)
           end.

(** [time.sleep(q)] for a length the program makes itself: the rest of the
    cooldown interval, the fixed waits [5] and [1], the [10 * retries] of
    the Anthropic-style executor.  Such a length is taken to be of ordinary
    size, one that every build and platform sleeps, so only its sign is
    looked at: an interval, a distance between the clock and the timestamp
    on record, or a number of turns that takes the length to some 292 years
    is outside of what is modelled. *)
Definition time_sleep_ordinary (q : Q) : M unit :=
  fun w => if Qle_bool 0 q then slept q w else (Exc ExnValueError, w).

Definition log (m : LogMsg) : M unit := fun w => (Val tt, emit w (EvLog m)).
Definition print (m : LogMsg) : M unit := fun w => (Val tt, emit w (EvPrint m)).

Definition get_last : M Q := fun w => (Val (_last_openai_request_ts w), w).
Definition set_last (t : Q) : M unit :=
  fun w => (Val tt, emit (with_last w t) (EvStamp t)).

Definition get_config : M PyDict := fun w => (Val (config w), w).
Definition set_config (c : PyDict) : M unit := fun w => (Val tt, with_config w c).

(** ** The cooldown gate

    The body runs under [_openai_ts_lock] from its first line to its last,
    so calls never overlap: any schedule of threads is a sequence of calls. *)
Definition _sleep_if_needed_for_openai_cooldown (logger : bool) : M unit :=
  now <- time_time ;;
  last <- get_last ;;
  let wait := (_OPENAI_COOLDOWN_SEC env - (now - last))%Q in
  (if Qltb 0 wait then
     (if logger then log (LogCooldown wait) else ret tt) ;;
     time_sleep_ordinary wait
   else ret tt) ;;
  t <- time_time ;;
  set_last t.

(** A sequence of calls of the gate, each with or without a logger. *)
Fixpoint gate_sequence (loggers : list bool) : M unit :=
  match loggers with
  | [] => ret tt
  | l :: rest => _sleep_if_needed_for_openai_cooldown l ;; gate_sequence rest
  end.

End Primitives.

(** The timestamps recorded in a trace, oldest first. *)
Fixpoint stamps_rev (tr : list Event) : list Q :=
  match tr with
  | [] => []
  | EvStamp t :: tr' => t :: stamps_rev tr'
  | _ :: tr' => stamps_rev tr'
  end.
Definition stamps (tr : list Event) : list Q := rev (stamps_rev tr).

(** Any two timestamps of [ts] are at least [T] apart. *)
Fixpoint apart (T : Q) (ts : list Q) : Prop :=
  match ts with
  | [] => True
  | t :: rest => Forall (fun u => (t + T <= u)%Q) rest /\ apart T rest
  end.

(** The configurations submitted to [chat.completions.create], oldest first. *)
Fixpoint submitted_rev (tr : list Event) : list PyDict :=
  match tr with
  | [] => []
  | EvChat cfg :: tr' => cfg :: submitted_rev tr'
  | _ :: tr' => submitted_rev tr'
  end.
Definition submitted (tr : list Event) : list PyDict := rev (submitted_rev tr).

(** The lengths slept, oldest first. *)
Fixpoint sleeps_rev (tr : list Event) : list Q :=
  match tr with
  | [] => []
  | EvSleep d :: tr' => d :: sleeps_rev tr'
  | _ :: tr' => sleeps_rev tr'
  end.
Definition sleeps (tr : list Event) : list Q := rev (sleeps_rev tr).

(** A trace with the two warnings of the Anthropic executor made one. *)
Definition erase (e : Event) : Event :=
  match e with
  | EvLog LogTimedOut => EvLog LogRetrying
  | _ => e
  end.

(** Each timestamp of [ts] is at least [T] after the one before it, the
    first at least [T] after [prev]. *)
Fixpoint spaced (T prev : Q) (ts : list Q) : Prop :=
  match ts with
  | [] => True
  | t :: rest => (prev + T <= t)%Q /\ spaced T t rest
  end.

(** From [w] to [w'] the timestamps [ts] were recorded, each at least [T]
    after the one before it, starting from the one on record in [w]. *)
Definition recorded (T : Q) (w w' : World) (ts : list Q) : Prop :=
  stamps (trace w') = stamps (trace w) ++ ts
  /\ spaced T (_last_openai_request_ts w) ts
  /\ _last_openai_request_ts w' = last ts (_last_openai_request_ts w).

End Effects.
Export Effects.

(* ===================================================================== *)
(** * Reading a number out of text                                        *)
(* ===================================================================== *)

Module Parse.

(** A string is a sequence of characters with code points below 256, one
    [ascii] each: text beyond Latin-1 is not modelled. *)
Definition chars (s : string) : list ascii := list_ascii_of_string s.
Definition text (l : list ascii) : string := string_of_list_ascii l.

Definition code (c : ascii) : nat := nat_of_ascii c.

Definition is_digit (c : ascii) : bool := (48 <=? code c)%nat && (code c <=? 57)%nat.
Definition digit_val (c : ascii) : Z := Z.of_nat (code c - 48).

(** ASCII lower case, the case folding of [re.IGNORECASE] on ASCII text. *)
Definition lower (c : ascii) : ascii :=
  if (65 <=? code c)%nat && (code c <=? 90)%nat then ascii_of_nat (code c + 32) else c.

Definition eq_nocase (a b : ascii) : bool := Ascii.eqb (lower a) (lower b).

(** The white space [float] and [int] strip from the ends of a string:
    tab, LF, VT, FF, CR and the space ([Py_ISSPACE]), and of the characters
    from 127 on those that are white space, NEL (133) and the no-break
    space (160), which the two functions first turn into spaces.  The
    separators 28 to 31, which [str.isspace] counts, are left as they are
    and not stripped. *)
Definition is_space (c : ascii) : bool :=
  ((9 <=? code c)%nat && (code c <=? 13)%nat) || (code c =? 32)%nat
  || (code c =? 133)%nat || (code c =? 160)%nat.

Fixpoint lstrip (s : list ascii) : list ascii :=
  match s with
  | c :: s' => if is_space c then lstrip s' else s
  | [] => []
  end.
Definition strip (s : list ascii) : list ascii := rev (lstrip (rev (lstrip s))).

(** The longest prefix of digits, and what follows it. *)
Fixpoint span_digits (s : list ascii) : list ascii * list ascii :=
  match s with
  | c :: s' =>
      if is_digit c then let (d, r) := span_digits s' in (c :: d, r) else ([], s)
  | [] => ([], [])
  end.

(** [digitpart ::= digit (["_"] digit)*]: its digits, and the rest. *)
Fixpoint digitpart_tail (s : list ascii) : list ascii * list ascii :=
  match s with
  | c :: s' =>
      if is_digit c then let (d, r) := digitpart_tail s' in (c :: d, r)
      else if Ascii.eqb c "_" then
        match s' with
        | c' :: s'' =>
            if is_digit c' then let (d, r) := digitpart_tail s'' in (c' :: d, r)
            else ([], s)
        | [] => ([], s)
        end
      else ([], s)
  | [] => ([], [])
  end.

Definition digitpart (s : list ascii) : option (list ascii * list ascii) :=
  match s with
  | c :: s' => if is_digit c then let (d, r) := digitpart_tail s' in Some (c :: d, r)
               else None
  | [] => None
  end.

Definition digits_value (d : list ascii) : Z :=
  fold_left (fun acc c => acc * 10 + digit_val c)%Z d 0%Z.

(** [sign]: [true] for a minus. *)
Definition sign (s : list ascii) : bool * list ascii :=
  match s with
  | c :: s' => if Ascii.eqb c "-" then (true, s')
               else if Ascii.eqb c "+" then (false, s') else (false, s)
  | [] => (false, [])
  end.

Fixpoint all_eq_nocase (s pat : list ascii) : bool :=
  match s, pat with
  | [], [] => true
  | a :: s', b :: pat' => eq_nocase a b && all_eq_nocase s' pat'
  | _, _ => false
  end.

(** [m * 10^e] *)
Definition scale (m e : Z) : Q :=
  if (0 <=? e)%Z then inject_Z (m * 10 ^ e) else Qmake m (Z.to_pos (10 ^ (- e))).

(** A decimal too large for binary64 reads as an infinity: at or beyond
    [2^1024 - 2^970], half-way between the largest double and [2^1024]. *)
Definition overflow_bound : Q := inject_Z (2 ^ 1024 - 2 ^ 970).

Definition to_float (negative : bool) (q : Q) : PyFloat :=
  if Qle_bool overflow_bound q then Inf negative
  else Fin (if negative then Qopp q else q).

(** [exponent ::= ("e" | "E") [sign] digitpart], or nothing. *)
Definition exponent (s : list ascii) : option (Z * list ascii) :=
  match s with
  | c :: s' =>
      if eq_nocase c "e" then
        let (neg, s'') := sign s' in
        match digitpart s'' with
        | Some (d, r) => Some (if neg then (- digits_value d)%Z else digits_value d, r)
        | None => None
        end
      else Some (0%Z, s)
  | [] => Some (0%Z, [])
  end.

(** [number ::= [digitpart] "." digitpart | digitpart ["."]]: the digits
    before and after the point, and the rest. *)
Definition number (s : list ascii) : option (list ascii * list ascii * list ascii) :=
  match digitpart s with
  | Some (i, r) =>
      match r with
      | c :: r' =>
          if Ascii.eqb c "." then
            match digitpart r' with
            | Some (f, r'') => Some (i, f, r'')
            | None => Some (i, [], r')
            end
          else Some (i, [], r)
      | [] => Some (i, [], [])
      end
  | None =>
      match s with
      | c :: r' =>
          if Ascii.eqb c "." then
            match digitpart r' with
            | Some (f, r'') => Some ([], f, r'')
            | None => None
            end
          else None
      | [] => None
      end
  end.

(** [float(s)] for a string [s]; [None] is [ValueError]. *)
Definition py_float (s : string) : option PyFloat :=
  let (neg, body) := sign (strip (chars s)) in
  if all_eq_nocase body (chars "inf") || all_eq_nocase body (chars "infinity")
  then Some (Inf neg)
  else if all_eq_nocase body (chars "nan") then Some NaN
  else
    match number body with
    | Some (i, f, r) =>
        match exponent r with
        | Some (e, []) =>
            Some (to_float neg
                    (scale (digits_value (i ++ f)) (e - Z.of_nat (List.length f))))
        | _ => None
        end
    | None => None
    end.

(** ** The pattern [try again in ([0-9]*\.?[0-9]+)s], ignoring case

    A backtracking match, in the order [re] tries: [[0-9]*] takes as many
    digits as it can and gives them back one at a time; [\.?] takes the
    point if there is one, then does without; [[0-9]+] takes as many digits
    as it can, at least one; then an [s] has to follow. *)

Definition starts_with_s (s : list ascii) : bool :=
  match s with
  | c :: _ => eq_nocase c "s"
  | [] => false
  end.

(** [[0-9]+] then [s], on [d ++ r] where [d] are digits: try [j] digits,
    then fewer; the digits taken. *)
Fixpoint plus_then_s (j : nat) (d r : list ascii) : option (list ascii) :=
  match j with
  | O => None
  | S j' =>
      if starts_with_s (skipn j d ++ r) then Some (firstn j d)
      else plus_then_s j' d r
  end.

(** [\.?[0-9]+s] at [s]. *)
Definition point_digits_s (s : list ascii) : option (list ascii) :=
  let without :=
    let (d, r) := span_digits s in plus_then_s (List.length d) d r in
  match s with
  | c :: s' =>
      if Ascii.eqb c "." then
        let (d, r) := span_digits s' in
        match plus_then_s (List.length d) d r with
        | Some g => Some (c :: g)
        | None => without
        end
      else without
  | [] => without
  end.

(** [[0-9]*] takes [k] of the digits [d], then fewer; the whole group. *)
Fixpoint group_from (k : nat) (d r : list ascii) : option (list ascii) :=
  match point_digits_s (skipn k d ++ r) with
  | Some g => Some (firstn k d ++ g)
  | None => match k with
            | O => None
            | S k' => group_from k' d r
            end
  end.

Definition group_at (s : list ascii) : option (list ascii) :=
  let (d, r) := span_digits s in group_from (List.length d) d r.

Definition try_again_in : list ascii := chars "try again in ".

(** The pattern matched at the start of [s]: group 1. *)
Definition match_here (s : list ascii) : option (list ascii) :=
  let n := List.length try_again_in in
  if all_eq_nocase (firstn n s) try_again_in then group_at (skipn n s) else None.

(** [re.search]: the first position the pattern matches at. *)
Fixpoint search (s : list ascii) : option (list ascii) :=
  match match_here s with
  | Some g => Some g
  | None => match s with
            | _ :: s' => search s'
            | [] => None
            end
  end.

End Parse.
Export Parse.

(* ===================================================================== *)
(** * The OpenAI-style executor                                           *)
(* ===================================================================== *)

Module OpenAI.

(** The interval as the module loads it:
    [float(os.getenv("OPENAI_MIN_COOLDOWN_SEC", "1.0"))], and [1.0] when
    that raises.  [Env] holds the interval when it is a finite number. *)
Definition load_cooldown_sec (getenv : option string) : PyFloat :=
  match py_float (match getenv with Some v => v | None => "1.0"%string end) with
  | Some f => f
  | None => Fin 1
  end.

(** [x or y] on two header look-ups. *)
Definition str_or (x y : option string) : option string :=
  match x with
  | Some s => if String.eqb s EmptyString then y else Some s
  | None => y
  end.

(** The first [try] of [_extract_retry_after_seconds]: the header. *)
Definition retry_after_header (e : OpenAIError) : option PyFloat :=
  match response e with
  | Some resp =>
      match headers resp with
      | Some h =>
          if headers_truthy h then
            match str_or (headers_get h "retry-after") (headers_get h "Retry-After") with
            | Some retry_after =>
                if String.eqb retry_after EmptyString then None
                else py_float retry_after
            | None => None
            end
          else None
      | None => None
      end
  | None => None
  end.

(** The second [try]: the message text. *)
Definition retry_after_message (e : OpenAIError) : option PyFloat :=
  match search (chars (message e)) with
  | Some g => py_float (text g)
  | None => None
  end.

Definition _extract_retry_after_seconds (e : OpenAIError) : option PyFloat :=
  match retry_after_header e with
  | Some f => Some f
  | None => retry_after_message e
  end.

(** [sys.get_int_max_str_digits()], as the interpreter starts with. *)
Definition int_max_str_digits : nat := 4300.

(** [int(s)] for a string [s]; [None] is [ValueError], which a string of
    more digits than [int_max_str_digits] raises too (the sign, the white
    space and the underscores are not counted, leading zeros are). *)
Definition py_int_str (s : string) : option Z :=
  let (neg, body) := sign (strip (chars s)) in
  match digitpart body with
  | Some (d, []) =>
      if (List.length d <=? int_max_str_digits)%nat
      then Some (if neg then (- digits_value d)%Z else digits_value d)
      else None
  | _ => None
  end.

(** [int(x)]; [inr] is the exception it raises. *)
Definition py_int (v : PyVal) : Z + PyExn :=
  match v with
  | VInt z => inl z
  | VBool b => inl (if b then 1 else 0)%Z
  | VFloat (Fin q) => inl (Z.quot (Qnum q) (Zpos (Qden q)))
  | VFloat (Inf _) => inr ExnOverflowError
  | VFloat NaN => inr ExnValueError
  | VStr s => match py_int_str s with Some z => inl z | None => inr ExnValueError end
  | VNone | VList _ | VDict _ => inr ExnTypeError
  end.

Definition lift {A} (x : A + PyExn) : M A :=
  match x with
  | inl a => ret a
  | inr e => raise e
  end.

(** The first choice's content is [None] or the empty string; [false]
    when there is no choice at all. *)
Definition first_content_empty (r : ChatCompletion) : bool :=
  match choices r with
  | [] => false
  | c :: _ => match content (choice_message c) with
              | None => true
              | Some s => String.eqb s EmptyString
              end
  end.

(** [getattr(getattr(ret, "usage", None), "completion_tokens_details", None)] *)
Definition details_of (r : ChatCompletion) : option CompletionTokensDetails :=
  match usage r with
  | Some u => completion_tokens_details u
  | None => None
  end.

Definition reasoning_of (r : ChatCompletion) : option Z :=
  match details_of r with
  | Some d => reasoning_tokens d
  | None => None
  end.

Definition accepted_of (r : ChatCompletion) : option Z :=
  match details_of r with
  | Some d => accepted_prediction_tokens d
  | None => None
  end.

(** [config.get("max_tokens") or config.get("max_completion_tokens")] *)
Definition configured_cap (cfg : PyDict) : PyVal :=
  py_or (dict_get cfg "max_tokens") (dict_get cfg "max_completion_tokens").

(** [cap and reasoning_tokens and (accepted_pred in (0, None))] *)
Definition budget_exhausted (cfg : PyDict) (r : ChatCompletion) : bool :=
  truthy (configured_cap cfg)
  && match reasoning_of r with Some z => negb (Z.eqb z 0) | None => false end
  && match accepted_of r with Some z => Z.eqb z 0 | None => true end.

Definition bumped_cap (cap : Z) : Z := (cap + Z.max 512 (cap / 2))%Z.

(** The wait a rate-limit error leads to: the extracted one, else [2.0]. *)
Definition wait_of (e : OpenAIError) : PyFloat :=
  match _extract_retry_after_seconds e with
  | Some f => f
  | None => Fin 2
  end.

(** A length [time.sleep] accepts. *)
Definition sleepable (env : Env) (f : PyFloat) : bool :=
  match sleep_check env f with
  | inl _ => true
  | inr _ => false
  end.


(** The provider raised an [OpenAIError] of another class, and a
    rate-limit error among them asks for a wait [time.sleep] accepts. *)
Definition retryable (env : Env) (o : Outcome ChatCompletion) : bool :=
  match o with
  | Raises (ExnOpenAI e) =>
      match error_class e with
      | BadRequestError => false
      | RateLimitError => sleepable env (wait_of e)
      | _ => true
      end
  | _ => false
  end.

(** The trigger of the bump retry in the words of the specification, to
    compare with [first_content_empty] and [budget_exhausted]: the first
    choice's content is empty or absent, the reasoning-token count equals
    the configured ceiling, and the accepted-prediction count is zero. *)
Definition spec_bump_trigger (cfg : PyDict) (r0 : option ChatCompletion) : bool :=
  match r0 with
  | Some r =>
      first_content_empty r
      && match reasoning_of r, configured_cap cfg with
         | Some z, VInt cap => Z.eqb z cap
         | _, _ => false
         end
      && match accepted_of r with
         | Some z => Z.eqb z 0
         | None => false
         end
  | None => false
  end.


Section Executor.
Variable env : Env.

(** [client.chat.completions.create( **config )] *)
Definition chat_create : M ChatCompletion :=
  fun w =>
    let w1 := pass env w in
    let w2 := emit (with_calls w1 (S (calls w1))) (EvChat (config w1)) in
    match chat_completions_create env (calls w) (config w) with
    | Returns r => (Val r, w2)
    | Raises e => (Exc e, w2)
    end.

(** The world a call of the gate leaves. *)
Definition after_gate (w : World) : World :=
  snd (_sleep_if_needed_for_openai_cooldown env true w).

(** The world right after the provider was called in a turn begun at [w]. *)
Definition dispatched (w : World) : World :=
  let wg := emit (after_gate w) (EvLog LogCreating) in
  emit (with_calls (pass env wg) (S (calls wg))) (EvChat (config wg)).

(** The [except openai.OpenAIError as e] clause. *)
Definition on_openai_error (e : OpenAIError) : M unit :=
  match error_class e with
  | BadRequestError =>
      log LogInvalid ;; print (LogError e) ;; log (LogError e) ;;
      raise (ExnException "Invalid API Request")
  | RateLimitError =>
      print LogRateLimit ;; log LogRateLimit ;;
      print (LogError e) ;; log (LogError e) ;;
      let retry_after :=
        match _extract_retry_after_seconds e with
        | Some f => f
        | None => Fin 2            (* sensible default backoff *)
        end in
      time_sleep env retry_after
  | APIConnectionError =>
      print LogConnection ;; log LogConnection ;;
      print (LogError e) ;; log (LogError e) ;;
      time_sleep_ordinary env 5
  | OtherOpenAIError =>
      print LogUnknown ;; log LogUnknown ;;
      print (LogError e) ;; log (LogError e) ;;
      time_sleep_ordinary env 1
  end.

(** One turn of the [while] loop: [Some] response ends the loop. *)
Definition chat_attempt : M (option ChatCompletion) :=
  try_except
    (_sleep_if_needed_for_openai_cooldown env true ;;
     log LogCreating ;;
     r <- chat_create ;;
     ret (Some r))
    (fun exn => match exn with
                | ExnOpenAI e => Some (on_openai_error e ;; ret None)
                | _ => None
                end).

(** [while ret is None and retries < max_retries], by the number of turns
    left, [max_retries - retries]. *)
Fixpoint chat_loop (remaining : nat) : M (option ChatCompletion) :=
  match remaining with
  | O => ret None
  | S n =>
      r <- chat_attempt ;;
      match r with
      | Some c => ret (Some c)
      | None => chat_loop n
      end
  end.

(** The configuration the bump retry submits. *)
Definition bumped_config (cfg : PyDict) (cap : Z) : PyDict :=
  dict_set (dict_set cfg "max_tokens" (VInt (bumped_cap cap)))
           "max_completion_tokens" (VInt (bumped_cap cap)).

(** The world right after the bump retry called the provider. *)
Definition redispatched (wl : World) (cap : Z) : World :=
  let wb := with_config (emit wl (EvLog LogBump)) (bumped_config (config wl) cap) in
  let wg := after_gate wb in
  emit (with_calls (pass env wg) (S (calls wg))) (EvChat (config wg)).

(** The body of the second [try], after the loop. *)
Definition bump_retry (ret0 : option ChatCompletion) : M (option ChatCompletion) :=
  match ret0 with
  | Some r =>
      if first_content_empty r then
        cfg <- get_config ;;
        if budget_exhausted cfg r then
          log LogBump ;;
          cap <- lift (py_int (configured_cap cfg)) ;;
          let bumped := bumped_cap cap in
          set_config (dict_set cfg "max_tokens" (VInt bumped)) ;;
          cfg1 <- get_config ;;
          set_config (dict_set cfg1 "max_completion_tokens" (VInt bumped)) ;;
          _sleep_if_needed_for_openai_cooldown env true ;;
          r2 <- chat_create ;;
          log (LogBumpResponse r2) ;;
          ret (Some r2)
        else ret ret0
      else ret ret0
  | None => ret ret0
  end.

(** [request_chatgpt_engine(config, logger, base_url, max_retries, timeout)];
    [base_url] only configures the client and [timeout] is not used. *)
Definition request_chatgpt_engine (cfg : PyDict) (max_retries : Z)
    : M (option ChatCompletion) :=
  set_config cfg ;;
  ret0 <- chat_loop (Z.to_nat max_retries) ;;
  log (LogResponse ret0) ;;
  try_except (bump_retry ret0) (fun _ => Some (ret ret0)).

End Executor.

End OpenAI.
Export OpenAI.

(* ===================================================================== *)
(** * The wait a server suggests, in the words of the specification       *)
(* ===================================================================== *)

(** What follows is not taken from the code: it says, as the specification
    does, where the wait of a rate-limit error comes from, to compare with
    what [_extract_retry_after_seconds] computes. *)
Module Suggestion.

(** A number as the pattern has it, [[0-9]*\.?[0-9]+]: digits, or digits
    (maybe none), a point and at least one digit. *)
Inductive decimal : list ascii -> Prop :=
| whole (b : list ascii) :
    Forall (fun c => is_digit c = true) b -> b <> [] -> decimal b
| pointed (a b : list ascii) :
    Forall (fun c => is_digit c = true) a ->
    Forall (fun c => is_digit c = true) b -> b <> [] ->
    decimal (a ++ "."%char :: b).


(** ["try again in <N>s"] is in [msg] right after [pre], whatever the case
    of its letters, with [g] for the number [N]. *)
Definition occurs (msg pre g post : list ascii) : Prop :=
  exists lit c,
    msg = pre ++ lit ++ g ++ c :: post
    /\ Forall2 (fun a b => lower a = lower b) lit (chars "try again in ")
    /\ decimal g
    /\ lower c = "s"%char.

(** The first place it is at. *)
Definition first_occurrence (msg pre g post : list ascii) : Prop :=
  occurs msg pre g post
  /\ forall pre' g' post',
       occurs msg pre' g' post' -> (List.length pre <= List.length pre')%nat.




End Suggestion.
Export Suggestion.

(* ===================================================================== *)
(** * The Anthropic-style executor                                        *)
(* ===================================================================== *)

Module Anthropic.

Definition ephemeral : PyVal := VDict [("type"%string, VStr "ephemeral")].

(** [config["messages"][0]["content"][0]["cache_control"] = {"type": "ephemeral"}]
    on a configuration whose containers are not shared; [inr] is the
    exception a wrong shape raises. *)
Definition set_cache_control (cfg : PyDict) : PyDict + PyExn :=
  match dict_get cfg "messages" with
  | None => inr ExnKeyError
  | Some (VList []) => inr ExnIndexError
  | Some (VList (VDict m0 :: msgs)) =>
      match dict_get m0 "content" with
      | None => inr ExnKeyError
      | Some (VList []) => inr ExnIndexError
      | Some (VList (VDict b0 :: blocks)) =>
          let b0' := VDict (dict_set b0 "cache_control" ephemeral) in
          let m0' := VDict (dict_set m0 "content" (VList (b0' :: blocks))) in
          inl (dict_set cfg "messages" (VList (m0' :: msgs)))
      | Some (VStr s) =>
          if String.eqb s EmptyString then inr ExnIndexError else inr ExnTypeError
      | Some (VDict _) => inr ExnKeyError
      | Some _ => inr ExnTypeError
      end
  | Some (VList (_ :: _)) => inr ExnTypeError
  | Some (VStr s) =>
      if String.eqb s EmptyString then inr ExnIndexError else inr ExnTypeError
  | Some (VDict _) => inr ExnKeyError
  | Some _ => inr ExnTypeError
  end.

(** The configuration with its first block marked, when it has the shape
    for that. *)
Definition marked (cfg : PyDict) : PyDict :=
  match set_cache_control cfg with
  | inl cfg' => cfg'
  | inr _ => cfg
  end.

Section Executor.
Variable env : Env.

(** [....messages.create( **config )] on either endpoint. *)
Definition messages_call (ep : Endpoint) : M AnthropicMessage :=
  fun w =>
    let w1 := pass env w in
    let w2 := emit (with_calls w1 (S (calls w1))) (EvMessages ep (config w1)) in
    match messages_create env ep (calls w) (config w) with
    | Returns r => (Val r, w2)
    | Raises e => (Exc e, w2)
    end.

(** The [try] body of one turn. *)
Definition anthropic_call (prompt_cache : bool) : M AnthropicMessage :=
  if prompt_cache then
    cfg <- get_config ;;
    cfg' <- lift (set_cache_control cfg) ;;
    set_config cfg' ;;
    if has_prompt_caching env then messages_call PromptCachingMessages
    else messages_call Messages
  else messages_call Messages.

(** The [except Exception] clause of one turn. *)
Definition on_exception (start_time timeout : Q) (retries : Z) : M unit :=
  log LogUnknown ;;
  now <- time_time env ;;
  (if Qle_bool timeout (now - start_time) then log LogTimedOut else log LogRetrying) ;;
  time_sleep_ordinary env (inject_Z (10 * retries)).

Definition anthropic_attempt (retries : Z) (timeout : Q) (prompt_cache : bool)
    : M (option AnthropicMessage) :=
  start_time <- time_time env ;;
  try_except
    (r <- anthropic_call prompt_cache ;; ret (Some r))
    (fun _ => Some (on_exception start_time timeout retries ;; ret None)).

Fixpoint anthropic_loop (remaining : nat) (retries : Z) (timeout : Q)
    (prompt_cache : bool) : M (option AnthropicMessage) :=
  match remaining with
  | O => ret None
  | S n =>
      r <- anthropic_attempt retries timeout prompt_cache ;;
      match r with
      | Some m => ret (Some m)
      | None => anthropic_loop n (retries + 1) timeout prompt_cache
      end
  end.

(** [request_anthropic_engine(config, logger, max_retries, timeout, prompt_cache)] *)
Definition request_anthropic_engine (cfg : PyDict) (max_retries : Z)
    (timeout : Q) (prompt_cache : bool) : M (option AnthropicMessage) :=
  set_config cfg ;;
  anthropic_loop (Z.to_nat max_retries) 0 timeout prompt_cache.

End Executor.

(** Two worlds that differ at most in which of the two warnings their
    traces hold. *)
Definition same_but_warnings (w1 w2 : World) : Prop :=
  clock w1 = clock w2
  /\ ticks w1 = ticks w2
  /\ _last_openai_request_ts w1 = _last_openai_request_ts w2
  /\ calls w1 = calls w2
  /\ config w1 = config w2
  /\ map erase (trace w1) = map erase (trace w2).

(** Two computations that, from such worlds, give the same result and
    lead to such worlds. *)
Definition alike {A} (c1 c2 : M A) : Prop :=
  forall w1 w2,
    same_but_warnings w1 w2 ->
    fst (c1 w1) = fst (c2 w2) /\ same_but_warnings (snd (c1 w1)) (snd (c2 w2)).

End Anthropic.
Export Anthropic.

(* ===================================================================== *)
(** * The JSON formatter                                                  *)
(* ===================================================================== *)

Module Formatter.

(** What lies at a path: a file with what [read_text] gives ([None] when
    it raises) and whether [write_text] succeeds, or a directory. *)
Inductive Node : Type :=
| File (name : string) (contents : option string) (writable : bool)
| Folder (name : string) (children : list Node).

Definition Path : Type := list string.

Record JsonFile : Type := mkJsonFile {
  path : Path;                 (* relative to the directory searched *)
  file_contents : option string;
  file_writable : bool
}.

Definition newline : string := String (ascii_of_nat 10) EmptyString.

Definition ends_with (suffix s : string) : bool :=
  let n := String.length suffix in
  let m := String.length s in
  (n <=? m)%nat && String.eqb (substring (m - n) n s) suffix.

(** [root.glob("*.json")] or [root.rglob("*.json")], keeping the files. *)
Fixpoint find_in (recursive : bool) (prefix : Path) (n : Node) : list JsonFile :=
  match n with
  | File name c w =>
      if ends_with ".json" name then [mkJsonFile (prefix ++ [name]) c w] else []
  | Folder name children =>
      if recursive then
        flat_map (find_in recursive (prefix ++ [name])) children
      else []
  end.

Definition find_json_files (children : list Node) (recursive : bool) : list JsonFile :=
  flat_map (find_in recursive []) children.

(** Order of paths: part by part. *)
Fixpoint path_leb (p q : Path) : bool :=
  match p, q with
  | [], _ => true
  | _ :: _, [] => false
  | a :: p', b :: q' =>
      match String.compare a b with
      | Lt => true
      | Gt => false
      | Eq => path_leb p' q'
      end
  end.

Fixpoint insert_sorted (f : JsonFile) (l : list JsonFile) : list JsonFile :=
  match l with
  | [] => [f]
  | g :: l' => if path_leb (path f) (path g) then f :: l else g :: insert_sorted f l'
  end.

Definition sorted (l : list JsonFile) : list JsonFile :=
  fold_right insert_sorted [] l.

Inductive FormatError : Type :=
| FailedToRead
| InvalidJSON
| FailedToSerialize
| FailedToWrite.

Inductive Status : Type :=
| ERROR (e : FormatError)
| UPDATED (formatted : string)
| OK.

Record Args : Type := mkArgs {
  dir : option Node;           (* what lies at [args.dir], if anything *)
  recursive : bool;
  indent : Z
}.

Section WithJson.
(** The [json] module: [loads], and [dumps] with the formatter's options;
    [None] when they raise. *)
Variable Json : Type.
Variable json_loads : string -> option Json.
Variable json_dumps : Json -> Z -> option string.

(** [(changed, error)], and the text [write_text] has written when it
    returned.  What a [write_text] that raises leaves of the file is not
    told here: see [formatted_file] below. *)
Definition format_json_file (f : JsonFile) (indent : Z)
    : bool * option FormatError * option string :=
  match file_contents f with
  | None => (false, Some FailedToRead, None)
  | Some original_text =>
      match json_loads original_text with
      | None => (false, Some InvalidJSON, None)
      | Some data =>
          match json_dumps data indent with
          | None => (false, Some FailedToSerialize, None)
          | Some dumped =>
              let formatted :=
                if ends_with newline dumped then dumped
                else String.append dumped newline in
              if String.eqb formatted original_text then (false, None, None)
              else if file_writable f then (true, None, Some formatted)
              else (false, Some FailedToWrite, None)
          end
      end
  end.

Definition status_of (f : JsonFile) (indent : Z) : Status :=
  match format_json_file f indent with
  | (_, Some err, _) => ERROR err
  | (true, None, Some formatted) => UPDATED formatted
  | (_, None, _) => OK
  end.

Definition is_error (st : Status) : bool :=
  match st with
  | ERROR _ => true
  | _ => false
  end.

(** The per-file lines [main] prints, in order. *)
Definition reports (children : list Node) (args : Args) : list (Path * Status) :=
  map (fun f => (path f, status_of f (indent args)))
      (sorted (find_json_files children (recursive args))).

Definition count_errors (r : list (Path * Status)) : nat :=
  List.length (filter (fun x => is_error (snd x)) r).

(** [main]: the value it returns, which [SystemExit] makes the exit
    status, and the per-file lines. *)
Definition main (args : Args) : Z * list (Path * Status) :=
  match dir args with
  | None => (2%Z, [])
  | Some (File _ _ _) => (2%Z, [])
  | Some (Folder _ children) =>
      if (indent args <? 0)%Z then (2%Z, [])
      else
        match find_json_files children (recursive args) with
        | [] => (0%Z, [])
        | _ :: _ =>
            let r := reports children args in
            ((if Nat.eqb (count_errors r) 0 then 0 else 1)%Z, r)
        end
  end.

End WithJson.

(** A small [json] for concrete runs: the documents [null], [true] and
    [false], written back as they are. *)
Inductive Literal : Type := JNull | JTrue | JFalse.

Definition is_json_space (c : ascii) : bool :=
  (code c =? 32)%nat || (code c =? 9)%nat || (code c =? 10)%nat || (code c =? 13)%nat.

Fixpoint json_lstrip (s : list ascii) : list ascii :=
  match s with
  | c :: s' => if is_json_space c then json_lstrip s' else s
  | [] => []
  end.

Definition literal_loads (s : string) : option Literal :=
  let body := text (rev (json_lstrip (rev (json_lstrip (chars s))))) in
  if String.eqb body "null" then Some JNull
  else if String.eqb body "true" then Some JTrue
  else if String.eqb body "false" then Some JFalse
  else None.

Definition literal_dumps (j : Literal) (indent : Z) : option string :=
  Some match j with
       | JNull => "null"%string
       | JTrue => "true"%string
       | JFalse => "false"%string
       end.

End Formatter.

(* ===================================================================== *)
(** * Concrete providers, worlds and files                                *)
(* ===================================================================== *)

Module Runs.
Local Open Scope Z_scope.
Local Open Scope string_scope.

(** A clock at rest: no time passes but in [time.sleep]. *)
Definition still : nat -> Q := fun _ => 0%Q.

Definition start : World := mkWorld 1700000000 0 0 0 [] [].

Definition completion (id : string) (text : option string)
    (reasoning accepted : option Z) : ChatCompletion :=
  mkChatCompletion id [mkChoice (mkMessage text)]
    (Some (mkUsage (Some (mkDetails reasoning accepted)))).

Definition no_anthropic : Endpoint -> nat -> PyDict -> Outcome AnthropicMessage :=
  fun _ _ _ => Raises (ExnException "unused").

Definition chat_env (provider : nat -> PyDict -> Outcome ChatCompletion) : Env :=
  mkEnv 1 still provider false no_anthropic (fun _ => None).

Definition chat_config : PyDict :=
  create_chatgpt_config (PStr "hi") 1000 (VInt 1) 1 default_system_message
    "gpt-5-mini-2025-08-07" "minimal".

Definition status_error (cls : OpenAIErrorClass) (hdrs : list (string * string))
    (msg : string) : OpenAIError :=
  mkOpenAIError cls
    (Some (mkHttpResponse
             (Some (mkHeaders (match hdrs with [] => false | _ => true end)
                      (fun k => option_map snd
                                  (find (fun kv => String.eqb (fst kv) k) hdrs))))))
    msg.

(** An empty answer that used 64 reasoning tokens of a ceiling of 1000. *)
Definition thinking : ChatCompletion :=
  completion "r1" (Some EmptyString) (Some 64) (Some 0).
Definition answer : ChatCompletion := completion "r2" (Some "done") (Some 64) (Some 0).

Definition thinking_then_answer : nat -> PyDict -> Outcome ChatCompletion :=
  fun k _ => match k with
             | O => Returns thinking
             | _ => Returns answer
             end.


Definition always_bad_request : nat -> PyDict -> Outcome ChatCompletion :=
  fun _ _ => Raises (ExnOpenAI (status_error BadRequestError [] "Error code: 400")).

Definition final_answer : ChatCompletion := completion "r3" (Some "done") None None.

(** A rate-limit error whose message suggests half a second, then success. *)
Definition rate_limit_message : OpenAIError :=
  status_error RateLimitError []
    "Rate limit reached for requests. Please try again in 0.5s. Visit the dashboard.".

Definition rate_limited_once : nat -> PyDict -> Outcome ChatCompletion :=
  fun k _ => match k with
             | O => Raises (ExnOpenAI rate_limit_message)
             | _ => Returns final_answer
             end.

(** A rate-limit error with both a header and a message. *)
Definition rate_limit_header : OpenAIError :=
  status_error RateLimitError [("retry-after", "7")]
    "Rate limit reached. Please try again in 0.5s.".

(** A rate-limit error that suggests nothing. *)
Definition rate_limit_silent : OpenAIError :=
  status_error RateLimitError [("date", "Tue, 03 Nov 2026 10:00:00 GMT")]
    "Rate limit reached.".


(** A rate-limit error whose header asks for a negative wait. *)
Definition rate_limit_negative : OpenAIError :=
  status_error RateLimitError [("retry-after", "-1")] "Rate limit reached.".

Definition anthropic_config : PyDict :=
  create_anthropic_config (PStr "hi") 1024 (VInt 1) 1 default_system_message
    "claude-2.1" None.

(** A provider that answers at once, with the cache-aware endpoint. *)
Definition anthropic_env : Env :=
  mkEnv 1 still always_bad_request true
    (fun _ _ _ => Returns (mkAnthropicMessage "msg_1")) (fun _ => None).

(** A cooldown of one second under a clock that moves a quarter of a
    second between any two steps. *)
Definition gate_env : Env :=
  mkEnv 1 (fun _ => 1 # 4)%Q always_bad_request false no_anthropic (fun _ => None).

(** A cooldown of one second under a wall clock that stands still but for
    one step: it is set back two seconds before the fifth time the program
    touches the outside. *)
Definition stepping_back_env : Env :=
  mkEnv 1 (fun k => match k with 4%nat => (-2)%Q | _ => 0%Q end)
    always_bad_request false no_anthropic (fun _ => None).

(** An Anthropic provider that fails twice, then answers. *)
Definition flaky_anthropic_env : Env :=
  mkEnv 1 still always_bad_request true
    (fun _ k _ => match k with
                  | 0%nat | 1%nat => Raises (ExnException "overloaded")
                  | _ => Returns (mkAnthropicMessage "msg_3")
                  end)
    (fun _ => None).

(** One well-formed file in a directory. *)
Definition tidy_folder : Formatter.Node :=
  Formatter.Folder "data"
    [Formatter.File "a.json" (Some (String.append "null" Formatter.newline)) true].

End Runs.

(* ===================================================================== *)
(** * What a run of the Anthropic-style executor shows                    *)
(* ===================================================================== *)

Module Observations.

(** The calls of [messages.create] in a trace, oldest first: the endpoint
    and the configuration submitted. *)
Fixpoint messages_sent_rev (tr : list Event) : list (Endpoint * PyDict) :=
  match tr with
  | [] => []
  | EvMessages ep cfg :: tr' => (ep, cfg) :: messages_sent_rev tr'
  | _ :: tr' => messages_sent_rev tr'
  end.
Definition messages_sent (tr : list Event) : list (Endpoint * PyDict) :=
  rev (messages_sent_rev tr).

(** The endpoint a run calls: the cache-aware one when prompt caching is
    asked for and the client has it. *)
Definition endpoint_used (env : Env) (prompt_cache : bool) : Endpoint :=
  if prompt_cache && has_prompt_caching env then PromptCachingMessages else Messages.

(** The sleeps of [k] failed turns in a row, the first being turn
    [retries]: [10 * retries], [10 * (retries + 1)], ... *)
Fixpoint backoff (k : nat) (retries : Z) : list Q :=
  match k with
  | O => []
  | S k' => inject_Z (10 * retries) :: backoff k' (retries + 1)
  end.

Definition total (l : list Q) : Q := fold_right Qplus 0%Q l.

(** The configuration a turn submits: the one at hand, with its first
    block marked when prompt caching is asked for; [inr] when marking
    raises. *)
Definition to_submit (prompt_cache : bool) (cfg : PyDict) : PyDict + PyExn :=
  if prompt_cache then set_cache_control cfg else inl cfg.

End Observations.
Export Observations.

(* ===================================================================== *)
(** * What a run of the JSON formatter leaves behind                      *)
(* ===================================================================== *)

Module Rewriting.
Import Formatter.

(** Lines 68-69: the serialised text, with a newline appended unless it
    ends with one. *)
Definition with_final_newline (dumped : string) : string :=
  if ends_with newline dumped then dumped else String.append dumped newline.

(** The loop of [main], lines 130-145: the counters [changed], [skipped]
    and [errors] after the per-file lines [r]. *)
Definition tally (r : list (Path * Status)) : nat * nat * nat :=
  fold_left
    (fun (counters : nat * nat * nat) (line : Path * Status) =>
       let '(changed, skipped, errors) := counters in
       match snd line with
       | ERROR _ => (changed, skipped, S errors)
       | UPDATED _ => (S changed, skipped, errors)
       | OK => (changed, S skipped, errors)
       end)
    r (0, 0, 0)%nat.

(** A status once the file has been formatted. *)
Definition settled (st : Status) : Status :=
  match st with
  | UPDATED _ => OK
  | _ => st
  end.

Section WithJson.
Variable Json : Type.
Variable json_loads : string -> option Json.
Variable json_dumps : Json -> Z -> option string.

(** What [write_text] leaves of a file when it raises, by the file and the
    text it was to write: what [read_text] gives from then on ([None] when
    it raises), and whether a later [write_text] succeeds.  [write_text]
    opens the file before it encodes the text, and a file opened for
    writing is emptied: so the file keeps its text when it cannot be
    opened, is left empty when the text cannot be encoded (a lone surrogate
    that [json.loads] has read from an escape), and holds a part of the
    text when the device fails. *)
Variable after_failed_write : JsonFile -> string -> option string * bool.

(** The text [format_json_file] calls [write_text] with, when it gets that
    far: the file reads, parses and serialises, and the formatted text is
    not the one it holds. *)
Definition to_write (f : JsonFile) (indent : Z) : option string :=
  match file_contents f with
  | None => None
  | Some original_text =>
      match json_loads original_text with
      | None => None
      | Some data =>
          match json_dumps data indent with
          | None => None
          | Some dumped =>
              let formatted := with_final_newline dumped in
              if String.eqb formatted original_text then None else Some formatted
          end
      end
  end.

(** A file once [format_json_file] has run on it: as it was when
    [write_text] was not called, holding the formatted text when
    [write_text] returned, and what [write_text] left when it raised.  A
    text written is the text read back: [json.dumps] escapes the carriage
    returns that [read_text] would make newlines. *)
Definition formatted_file (f : JsonFile) (indent : Z) : JsonFile :=
  match to_write f indent with
  | None => f
  | Some formatted =>
      if file_writable f then mkJsonFile (path f) (Some formatted) true
      else mkJsonFile (path f) (fst (after_failed_write f formatted))
                      (snd (after_failed_write f formatted))
  end.

(** What the file holds then. *)
Definition contents_after (f : JsonFile) (indent : Z) : option string :=
  file_contents (formatted_file f indent).

(** A node once [main] has run over the files [find_json_files] finds in
    it; [prefix] is the path of the directory it lies in. *)
Fixpoint formatted_node (recursive : bool) (indent : Z) (prefix : Path) (n : Node)
    : Node :=
  match n with
  | File name c w =>
      if ends_with ".json" name
      then let f := formatted_file (mkJsonFile (prefix ++ [name]) c w) indent in
           File name (file_contents f) (file_writable f)
      else n
  | Folder name children =>
      if recursive
      then Folder name
             (map (formatted_node recursive indent (prefix ++ [name])) children)
      else n
  end.

(** The arguments of a second run: the same command line, over what the
    first run left. *)
Definition after_main (args : Args) : Args :=
  match dir args with
  | Some (Folder name children) =>
      if (indent args <? 0)%Z then args
      else mkArgs
             (Some (Folder name
                      (map (formatted_node (recursive args) (indent args) [])
                           children)))
             (recursive args) (indent args)
  | _ => args
  end.

End WithJson.

End Rewriting.
Export Rewriting.

(* ===================================================================== *)
(** * Properties                                                          *)
(* ===================================================================== *)

Module CooldownFacts.

Lemma Qltb_true (x y : Q) : Qltb x y = true -> (x < y)%Q.
Proof.
  unfold Qltb. intros H. apply negb_true_iff in H.
  apply Qnot_le_lt. intros Hle. apply Qle_bool_iff in Hle. congruence.
Qed.

Lemma Qltb_false (x y : Q) : Qltb x y = false -> (y <= x)%Q.
Proof.
  unfold Qltb. intros H. apply negb_false_iff in H. now apply Qle_bool_iff.
Qed.

Section Gate.
Variable env : Env.
Hypothesis elapse_nonneg : forall k, (0 <= elapse env k)%Q.

Let T : Q := _OPENAI_COOLDOWN_SEC env.

(** One call of the gate returns, stamps the clock it reads last, and that
    stamp is at least [T] after the stamp it found. *)
Lemma gate_call (logger : bool) (w : World) :
  exists w' t,
    _sleep_if_needed_for_openai_cooldown env logger w = (Val tt, w') /\
    _last_openai_request_ts w' = t /\
    clock w' = t /\
    stamps_rev (trace w') = t :: stamps_rev (trace w) /\
    (_last_openai_request_ts w + T <= t)%Q /\
    (clock w <= t)%Q.
Proof.
  unfold _sleep_if_needed_for_openai_cooldown, bind, time_time, get_last.
  cbn [fst snd].
  set (now := clock (pass env w)).
  set (wait := (_OPENAI_COOLDOWN_SEC env - (now - _last_openai_request_ts (pass env w)))%Q).
  pose proof (elapse_nonneg (ticks w)) as E0.
  destruct (Qltb 0 wait) eqn:Hw.
  - apply Qltb_true in Hw.
    assert (Hle : Qle_bool 0 wait = true) by (apply Qle_bool_iff; lra).
    destruct logger; unfold log, ret, time_sleep_ordinary, slept, set_last; cbn;
      rewrite Hle; cbn; eexists; eexists; repeat split; try reflexivity;
      pose proof (elapse_nonneg (S (ticks w))) as E1;
      pose proof (elapse_nonneg (S (S (ticks w)))) as E2;
      subst wait now T; cbn in *; lra.
  - apply Qltb_false in Hw.
    unfold ret, set_last; cbn. eexists; eexists; repeat split; try reflexivity;
    pose proof (elapse_nonneg (S (ticks w))) as E1;
    subst wait now T; cbn in *; lra.
Qed.

Lemma last_cons_default (t : Q) (ts : list Q) (d : Q) :
  last ts t = last (t :: ts) d.
Proof.
  revert t. induction ts as [|x ts IH]; intros t; [reflexivity|].
  cbn [last]. destruct ts as [|y ts']; [reflexivity|].
  specialize (IH x). cbn [last] in IH.
  transitivity (last (y :: ts') x); [|exact IH].
  clear IH. revert y. induction ts' as [|z ts'' IH']; intros y; [reflexivity|].
  cbn [last]. cbn [last] in IH'. apply IH'.
Qed.

(** A sequence of calls: every call stamps, each stamp is [T] after the
    one before, and any two are [T] apart. *)
Lemma gate_sequence_spacing (loggers : list bool) :
  forall w, exists w' ts,
    gate_sequence env loggers w = (Val tt, w') /\
    stamps_rev (trace w') = rev ts ++ stamps_rev (trace w) /\
    List.length ts = List.length loggers /\
    spaced T (_last_openai_request_ts w) ts /\
    apart T ts /\
    _last_openai_request_ts w' = last ts (_last_openai_request_ts w) /\
    Forall (fun u => (clock w <= u)%Q) ts /\
    ((_last_openai_request_ts w <= clock w)%Q ->
     Forall (fun u => (_last_openai_request_ts w + T <= u)%Q) ts).
Proof.
  induction loggers as [|l rest IH]; intros w.
  - exists w, []. cbn. repeat split; auto.
  - destruct (gate_call l w) as (w1 & t & Hrun & Hlast & Hclock & Htr & Hsp & Hmono).
    destruct (IH w1) as (w2 & ts & Hrun2 & Htr2 & Hlen & Hsp2 & Hap & Hlast2 & Hafter & Hfar).
    assert (Hfar' : Forall (fun u => (t + T <= u)%Q) ts).
    { rewrite Hlast in Hfar. apply Hfar. rewrite Hclock. lra. }
    exists w2, (t :: ts). cbn [gate_sequence]. unfold bind at 1. rewrite Hrun.
    split; [exact Hrun2|]. split; [|split; [|split; [|split; [|split; [|split]]]]].
    + rewrite Htr2, Htr. cbn [rev]. now rewrite <- app_assoc.
    + cbn. now rewrite Hlen.
    + cbn [spaced]. split; [exact Hsp|]. now rewrite <- Hlast.
    + cbn [apart]. split; assumption.
    + rewrite Hlast2, Hlast. apply last_cons_default.
    + constructor; [exact Hmono|]. rewrite Hclock in Hafter.
      eapply Forall_impl; [|exact Hafter]. cbn. intros u Hu. lra.
    + intros Hinv. constructor; [exact Hsp|].
      eapply Forall_impl; [|exact Hfar']. cbn. intros u Hu. lra.
Qed.

(** One call, in full: what it sleeps, what it stamps and when. *)
Lemma gate_call_clock (logger : bool) (w : World) :
  let now := (clock w + elapse env (ticks w))%Q in
  let wait := (T - (now - _last_openai_request_ts w))%Q in
  exists w',
    _sleep_if_needed_for_openai_cooldown env logger w = (Val tt, w')
    /\ stamps_rev (trace w') = clock w' :: stamps_rev (trace w)
    /\ _last_openai_request_ts w' = clock w'
    /\ sleeps_rev (trace w')
       = (if Qltb 0 wait then [wait] else []) ++ sleeps_rev (trace w)
    /\ ((_last_openai_request_ts w <= clock w)%Q -> (wait <= T)%Q)
    /\ (now + (if Qltb 0 wait then wait else 0) <= clock w')%Q
    /\ (_last_openai_request_ts w + T <= clock w')%Q
    /\ (clock w <= clock w')%Q.
Proof.
  cbv zeta. unfold T.
  unfold _sleep_if_needed_for_openai_cooldown, bind, time_time, get_last.
  cbn [fst snd].
  change (clock (pass env w)) with (clock w + elapse env (ticks w))%Q.
  change (_last_openai_request_ts (pass env w)) with (_last_openai_request_ts w).
  set (now := (clock w + elapse env (ticks w))%Q).
  set (wait := (_OPENAI_COOLDOWN_SEC env - (now - _last_openai_request_ts w))%Q).
  pose proof (elapse_nonneg (ticks w)) as E0.
  destruct (Qltb 0 wait) eqn:Hw.
  - apply Qltb_true in Hw.
    assert (Hle : Qle_bool 0 wait = true) by (apply Qle_bool_iff; lra).
    destruct logger; unfold log, ret, time_sleep_ordinary, slept, set_last; cbn;
      rewrite Hle; cbn; eexists; repeat split; try reflexivity;
      try match goal with |- (_ <= _)%Q -> _ => intros Hinv end;
      pose proof (elapse_nonneg (S (ticks w))) as E1;
      pose proof (elapse_nonneg (S (S (ticks w)))) as E2;
      subst wait now; cbn in *; lra.
  - apply Qltb_false in Hw.
    unfold ret, set_last; cbn. eexists; repeat split; try reflexivity;
    try match goal with |- (_ <= _)%Q -> _ => intros Hinv end;
    pose proof (elapse_nonneg (S (ticks w))) as E1;
    subst wait now; cbn in *; lra.
Qed.

(** A sequence of calls: every stamp is a reading of the clock, and the
    clock has gone on by what was slept at least. *)
Lemma gate_sequence_clock (loggers : list bool) :
  forall w,
    exists w' ds,
      gate_sequence env loggers w = (Val tt, w')
      /\ (loggers <> [] -> _last_openai_request_ts w' = clock w')
      /\ (clock w <= clock w')%Q
      /\ Forall (fun t => (clock w <= t <= clock w')%Q)
           (firstn (List.length loggers) (stamps_rev (trace w')))
      /\ sleeps_rev (trace w') = rev ds ++ sleeps_rev (trace w)
      /\ Forall (fun d => (0 < d)%Q) ds
      /\ ((_last_openai_request_ts w <= clock w)%Q ->
          Forall (fun d => (d <= T)%Q) ds)
      /\ (List.length ds <= List.length loggers)%nat
      /\ (clock w + fold_right Qplus 0 ds <= clock w')%Q.
Proof.
  induction loggers as [|l rest IH]; intros w.
  - exists w, []. cbn. repeat split; auto; try lra. congruence.
  - destruct (gate_call_clock l w)
      as (w1 & Hrun & Hst & Hlast & Hsl & HwT & Hslept & Hsp & Hmono).
    cbv zeta in *.
    destruct (IH w1)
      as (w2 & ds & Hrun2 & Hl2 & Hmono2 & Hst2 & Hsl2 & Hpos & Hds & Hlen & Hclk).
    assert (Hinv1 : (_last_openai_request_ts w1 <= clock w1)%Q)
      by (rewrite Hlast; lra).
    specialize (Hds Hinv1).
    destruct (gate_sequence_spacing rest w1)
      as (w2' & ts & Hrun2' & Htr2 & Hlen2 & _).
    rewrite Hrun2 in Hrun2'. injection Hrun2' as <-.
    set (wait := (T - (clock w + elapse env (ticks w) - _last_openai_request_ts w))%Q) in *.
    pose proof (elapse_nonneg (ticks w)) as E0.
    exists w2, ((if Qltb 0 wait then [wait] else []) ++ ds).
    cbn [gate_sequence]. unfold bind at 1. rewrite Hrun.
    split; [exact Hrun2|].
    split.
    { intros _. destruct rest as [|l' rest'].
      - cbn in Hrun2. unfold ret in Hrun2. injection Hrun2 as <-. exact Hlast.
      - apply Hl2. discriminate. }
    split; [lra|].
    split.
    { cbn [List.length]. rewrite Htr2, Hst.
      replace (S (List.length rest)) with (List.length (rev ts ++ [clock w1]))
        by (rewrite length_app, length_rev, Hlen2; cbn; lia).
      replace (rev ts ++ clock w1 :: stamps_rev (trace w))
        with ((rev ts ++ [clock w1]) ++ stamps_rev (trace w))
        by (now rewrite <- app_assoc).
      rewrite firstn_app, firstn_all, Nat.sub_diag. cbn [firstn]. rewrite app_nil_r.
      apply Forall_app. split.
      - rewrite Htr2 in Hst2.
        rewrite <- Hlen2, <- (length_rev ts), firstn_app, firstn_all, Nat.sub_diag in Hst2.
        cbn [firstn] in Hst2. rewrite app_nil_r in Hst2.
        eapply Forall_impl; [|exact Hst2]. cbn. intros t Ht. lra.
      - constructor; [lra | constructor]. }
    split.
    { rewrite Hsl2, Hsl. rewrite rev_app_distr, <- app_assoc. f_equal.
      destruct (Qltb 0 wait); reflexivity. }
    split.
    { apply Forall_app. split; [|exact Hpos].
      destruct (Qltb 0 wait) eqn:Hw; [|constructor].
      apply Qltb_true in Hw. constructor; [exact Hw | constructor]. }
    split.
    { intros Hinv. apply Forall_app. split; [|exact Hds].
      destruct (Qltb 0 wait) eqn:Hw; [|constructor].
      constructor; [exact (HwT Hinv) | constructor]. }
    split.
    { rewrite length_app. cbn [List.length]. destruct (Qltb 0 wait); cbn; lia. }
    rewrite fold_right_app.
    destruct (Qltb 0 wait) eqn:Hw; cbn [fold_right]; lra.
Qed.

(** ** The executor stamps through the gate only *)

Definition extends (w w' : World) : Prop := exists ts, recorded T w w' ts.

Definition keeps {A} (c : M A) : Prop := forall w, extends w (snd (c w)).

(** A computation that neither stamps nor touches the timestamp. *)
Definition quiet {A} (c : M A) : Prop :=
  forall w, _last_openai_request_ts (snd (c w)) = _last_openai_request_ts w
            /\ stamps_rev (trace (snd (c w))) = stamps_rev (trace w).

Lemma extends_refl (w : World) : extends w w.
Proof. exists []. unfold recorded. cbn. rewrite app_nil_r. auto. Qed.

Lemma spaced_app (p : Q) (ts1 ts2 : list Q) :
  spaced T p ts1 -> spaced T (last ts1 p) ts2 -> spaced T p (ts1 ++ ts2).
Proof.
  revert p. induction ts1 as [|t ts1 IH]; intros p H1 H2; [exact H2|].
  cbn [app spaced]. destruct H1 as [Ht H1]. split; [exact Ht|].
  apply IH; [exact H1|]. now rewrite (last_cons_default t ts1 p).
Qed.

Lemma last_app (p : Q) (ts1 ts2 : list Q) :
  last (ts1 ++ ts2) p = last ts2 (last ts1 p).
Proof.
  revert p. induction ts1 as [|t ts1 IH]; intros p; [reflexivity|].
  rewrite <- app_comm_cons, <- !last_cons_default. apply IH.
Qed.

Lemma extends_trans (w1 w2 w3 : World) :
  extends w1 w2 -> extends w2 w3 -> extends w1 w3.
Proof.
  intros (ts1 & Hs1 & Hp1 & Hl1) (ts2 & Hs2 & Hp2 & Hl2).
  exists (ts1 ++ ts2). unfold recorded. split; [|split].
  - rewrite Hs2, Hs1. now rewrite app_assoc.
  - apply spaced_app; [exact Hp1|]. now rewrite <- Hl1.
  - rewrite Hl2, Hl1. symmetry. apply last_app.
Qed.

Lemma quiet_keeps {A} (c : M A) : quiet c -> keeps c.
Proof.
  intros H w. destruct (H w) as [Hl Hs]. exists []. unfold recorded, stamps.
  rewrite Hs, Hl, app_nil_r. cbn. auto.
Qed.

Lemma keeps_ret {A} (a : A) : keeps (ret a).
Proof. intros w. apply extends_refl. Qed.

Lemma keeps_raise {A} (x : PyExn) : keeps (@raise A x).
Proof. intros w. apply extends_refl. Qed.

Lemma keeps_bind {A B} (c : M A) (k : A -> M B) :
  keeps c -> (forall a, keeps (k a)) -> keeps (bind c k).
Proof.
  intros Hc Hk w. unfold bind. specialize (Hc w).
  destruct (c w) as [[a|x] w1]; cbn [snd] in *; [|exact Hc].
  eapply extends_trans; [exact Hc | apply Hk].
Qed.

Lemma keeps_try_except {A} (c : M A) (h : PyExn -> option (M A)) :
  keeps c ->
  (forall x, match h x with Some k => keeps k | None => True end) ->
  keeps (try_except c h).
Proof.
  intros Hc Hh w. unfold try_except. specialize (Hc w).
  destruct (c w) as [[a|x] w1]; cbn [snd] in *; [exact Hc|].
  specialize (Hh x). destruct (h x) as [k|]; [|exact Hc].
  eapply extends_trans; [exact Hc | apply Hh].
Qed.

Lemma keeps_gate (logger : bool) :
  keeps (_sleep_if_needed_for_openai_cooldown env logger).
Proof.
  intros w. destruct (gate_call logger w) as (w' & t & Hrun & Hlast & _ & Htr & Hsp & _).
  rewrite Hrun. cbn [snd]. exists [t]. unfold recorded, stamps.
  rewrite Htr, Hlast. cbn. auto.
Qed.

Lemma keeps_log (m : LogMsg) : keeps (log m).
Proof. apply quiet_keeps. intros w. cbn. auto. Qed.

Lemma keeps_print (m : LogMsg) : keeps (print m).
Proof. apply quiet_keeps. intros w. cbn. auto. Qed.

Lemma keeps_sleep (d : PyFloat) : keeps (time_sleep env d).
Proof.
  apply quiet_keeps. intros w. unfold time_sleep.
  destruct (sleep_check env d); cbn; auto.
Qed.

Lemma keeps_sleep_ordinary (q : Q) : keeps (time_sleep_ordinary env q).
Proof.
  apply quiet_keeps. intros w. unfold time_sleep_ordinary.
  destruct (Qle_bool 0 q); cbn; auto.
Qed.

Lemma keeps_get_config : keeps get_config.
Proof. apply quiet_keeps. intros w. cbn. auto. Qed.

Lemma keeps_set_config (c : PyDict) : keeps (set_config c).
Proof. apply quiet_keeps. intros w. cbn. auto. Qed.

Lemma keeps_lift {A} (x : A + PyExn) : keeps (lift x).
Proof. destruct x; [apply keeps_ret | apply keeps_raise]. Qed.

Lemma keeps_chat_create : keeps (chat_create env).
Proof.
  apply quiet_keeps. intros w. unfold chat_create.
  destruct (chat_completions_create env (calls w) (config w)); cbn; auto.
Qed.

Lemma keeps_on_openai_error (e : OpenAIError) : keeps (on_openai_error env e).
Proof.
  unfold on_openai_error.
  destruct (error_class e);
    repeat (apply keeps_bind; [first [apply keeps_log | apply keeps_print]|]; intros _);
    first [apply keeps_raise | apply keeps_sleep | apply keeps_sleep_ordinary].
Qed.

Lemma keeps_chat_attempt : keeps (chat_attempt env).
Proof.
  unfold chat_attempt. apply keeps_try_except.
  - apply keeps_bind; [apply keeps_gate|]. intros _.
    apply keeps_bind; [apply keeps_log|]. intros _.
    apply keeps_bind; [apply keeps_chat_create|]. intros r. apply keeps_ret.
  - intros [e| | | | | | |msg]; try exact I.
    apply keeps_bind; [apply keeps_on_openai_error|]. intros _. apply keeps_ret.
Qed.

Lemma keeps_chat_loop (n : nat) : keeps (chat_loop env n).
Proof.
  induction n as [|n IH]; cbn [chat_loop]; [apply keeps_ret|].
  apply keeps_bind; [apply keeps_chat_attempt|].
  intros [r|]; [apply keeps_ret | exact IH].
Qed.

Lemma keeps_bump_retry (r0 : option ChatCompletion) : keeps (bump_retry env r0).
Proof.
  unfold bump_retry. destruct r0 as [r|]; [|apply keeps_ret].
  destruct (first_content_empty r); [|apply keeps_ret].
  apply keeps_bind; [apply keeps_get_config|]. intros cfg.
  destruct (budget_exhausted cfg r); [|apply keeps_ret].
  apply keeps_bind; [apply keeps_log|]. intros _.
  apply keeps_bind; [apply keeps_lift|]. intros cap.
  apply keeps_bind; [apply keeps_set_config|]. intros _.
  apply keeps_bind; [apply keeps_get_config|]. intros cfg1.
  apply keeps_bind; [apply keeps_set_config|]. intros _.
  apply keeps_bind; [apply keeps_gate|]. intros _.
  apply keeps_bind; [apply keeps_chat_create|]. intros r2.
  apply keeps_bind; [apply keeps_log|]. intros _. apply keeps_ret.
Qed.

Lemma keeps_engine (cfg : PyDict) (max_retries : Z) :
  keeps (request_chatgpt_engine env cfg max_retries).
Proof.
  unfold request_chatgpt_engine.
  apply keeps_bind; [apply keeps_set_config|]. intros _.
  apply keeps_bind; [apply keeps_chat_loop|]. intros r0.
  apply keeps_bind; [apply keeps_log|]. intros _.
  apply keeps_try_except; [apply keeps_bump_retry|]. intros x. apply keeps_ret.
Qed.

End Gate.

End CooldownFacts.

Module SleepFacts.



(** A length [time.sleep] accepts is 0 or more, fits, and the platform
    sleeps it. *)
Lemma accepted (env : Env) (d : PyFloat) (q : Q) :
  sleep_check env d = inl q ->
  d = Fin q /\ (0 <= q)%Q
  /\ (Qabs q * inject_Z (10 ^ 9) <= inject_Z (2 ^ 63 + 2048))%Q
  /\ platform_sleep env q = None.
Proof.
  destruct d as [q'| |]; cbn [sleep_check]; try discriminate.
  unfold beyond_limit, nanoseconds, sleep_limit_ns, rounding_ns.
  set (n := (Qabs q' * inject_Z (10 ^ 9))%Q) in *.
  set (hi := inject_Z (2 ^ 63 + 2048)) in *.
  destruct (Qltb hi n) eqn:Hb; [discriminate|].
  apply CooldownFacts.Qltb_false in Hb.
  destruct (Qltb q' 0) eqn:Hn; [discriminate|].
  apply CooldownFacts.Qltb_false in Hn.
  destruct (platform_sleep env q') as [y|] eqn:Hp; [discriminate|].
  intros H. injection H as <-. auto.
Qed.


(** An accepted length is slept as a length of the program's own is. *)
Lemma accepted_is_ordinary (env : Env) (d : PyFloat) (q : Q) :
  sleep_check env d = inl q ->
  forall w, time_sleep env d w = time_sleep_ordinary env q w.
Proof.
  intros H w. destruct (accepted env d H) as (_ & Hq & _).
  unfold time_sleep, time_sleep_ordinary. rewrite H.
  apply Qle_bool_iff in Hq. now rewrite Hq.
Qed.


End SleepFacts.


(** C1. Cooldown gate, for an interval [T] that is a finite number of
    ordinary size.  When the clock does not step back, a call of the gate
    returns; it reads the clock, sleeps the rest of the interval,
    [T - (now - last)], when that is more than 0 (and it is never more than
    [T] when the timestamp on record is not ahead of the clock), and
    records as its dispatch start the clock it reads once the sleep is
    over, at least [T] after the timestamp it found.  So in a sequence of
    calls every call records one timestamp, each a reading of the clock at
    least [T] after the one recorded before it, and any two are at least
    [T] apart; the OpenAI-style executor records its dispatch starts
    through the gate only, so the timestamps of a run are spaced in the
    same way. *)
Theorem C1_cooldown_gate_spacing
    (env : Env) (loggers : list bool) (w : World) (cfg : PyDict) (max_retries : Z) :
  (forall k, (0 <= elapse env k)%Q) ->
  let T := _OPENAI_COOLDOWN_SEC env in
  (forall logger,
     let now := (clock w + elapse env (ticks w))%Q in
     let wait := (T - (now - _last_openai_request_ts w))%Q in
     exists w',
       _sleep_if_needed_for_openai_cooldown env logger w = (Val tt, w')
       /\ stamps (trace w') = stamps (trace w) ++ [clock w']
       /\ _last_openai_request_ts w' = clock w'
       /\ sleeps (trace w')
          = sleeps (trace w) ++ (if Qltb 0 wait then [wait] else [])
       /\ ((_last_openai_request_ts w <= clock w)%Q -> (wait <= T)%Q)
       /\ (now + (if Qltb 0 wait then wait else 0) <= clock w')%Q
       /\ (_last_openai_request_ts w + T <= clock w')%Q)
  /\ (exists w' ts ds,
        gate_sequence env loggers w = (Val tt, w')
        /\ stamps (trace w') = stamps (trace w) ++ ts
        /\ List.length ts = List.length loggers
        /\ spaced T (_last_openai_request_ts w) ts
        /\ apart T ts
        /\ _last_openai_request_ts w' = last ts (_last_openai_request_ts w)
        /\ (loggers <> [] -> _last_openai_request_ts w' = clock w')
        /\ Forall (fun t => (clock w <= t <= clock w')%Q) ts
        /\ sleeps (trace w') = sleeps (trace w) ++ ds
        /\ Forall (fun d => (0 < d)%Q) ds
        /\ ((_last_openai_request_ts w <= clock w)%Q ->
            Forall (fun d => (d <= T)%Q) ds)
        /\ (List.length ds <= List.length loggers)%nat
        /\ (clock w + total ds <= clock w')%Q)
  /\ (exists ts,
        recorded T w (snd (request_chatgpt_engine env cfg max_retries w)) ts).
Proof.
  intros Hmono. cbv zeta. split; [|split].
  - intros logger.
    destruct (@CooldownFacts.gate_call_clock env Hmono logger w)
      as (w' & Hrun & Hst & Hlast & Hsl & HwT & Hslept & Hsp & _).
    cbv zeta in *. exists w'.
    split; [exact Hrun|]. unfold stamps, sleeps. rewrite Hst, Hsl.
    split; [reflexivity|]. split; [exact Hlast|].
    split; [rewrite rev_app_distr; f_equal; destruct (Qltb 0 _); reflexivity|].
    split; [exact HwT|]. split; [exact Hslept | exact Hsp].
  - destruct (@CooldownFacts.gate_sequence_spacing env Hmono loggers w)
      as (w' & ts & Hrun & Htr & Hlen & Hsp & Hap & Hlast & _).
    destruct (@CooldownFacts.gate_sequence_clock env Hmono loggers w)
      as (w2 & ds & Hrun2 & Hl2 & _ & Hst2 & Hsl2 & Hpos & Hds & Hlends & Hclk).
    rewrite Hrun in Hrun2. injection Hrun2 as <-.
    exists w', ts, ds. split; [exact Hrun|].
    split; [unfold stamps; rewrite Htr, rev_app_distr, rev_involutive; reflexivity|].
    split; [exact Hlen|]. split; [exact Hsp|]. split; [exact Hap|].
    split; [exact Hlast|]. split; [exact Hl2|].
    split.
    { rewrite Htr, <- Hlen, <- (length_rev ts), firstn_app, firstn_all, Nat.sub_diag in Hst2.
      cbn [firstn] in Hst2. rewrite app_nil_r in Hst2.
      apply Forall_rev in Hst2. now rewrite rev_involutive in Hst2. }
    split; [unfold sleeps; rewrite Hsl2, rev_app_distr, rev_involutive; reflexivity|].
    split; [exact Hpos|]. split; [exact Hds|]. split; [exact Hlends | exact Hclk].
  - apply (@CooldownFacts.keeps_engine env Hmono cfg max_retries w).
Qed.

(** C1 at work: three calls in a row, a quarter of a second between any
    two steps. *)
Lemma C1_witness_three_calls :
  (forall k, (0 <= elapse Runs.gate_env k)%Q)
  /\ exists w' ts,
       gate_sequence Runs.gate_env [true; false; true] Runs.start = (Val tt, w')
       /\ stamps (trace w') = stamps (trace Runs.start) ++ ts
       /\ List.length ts = 3%nat
       /\ spaced 1 0 ts
       /\ apart 1 ts
       /\ _last_openai_request_ts w' = clock w'.
Proof.
  assert (H : forall k, (0 <= elapse Runs.gate_env k)%Q)
    by (intros k; unfold Qle; cbn; lia).
  split; [exact H|].
  destruct (proj1 (proj2 (C1_cooldown_gate_spacing Runs.gate_env [true; false; true]
                            Runs.start Runs.chat_config 40 H)))
    as (w' & ts & ds & Hrun & Htr & Hlen & Hsp & Hap & _ & Hclock & _).
  exists w', ts. repeat split; try assumption. apply Hclock. discriminate.
Defined.

(** The claim without its condition on the clock: [time.time()] is the
    wall clock, and when it is set back two seconds while the second call
    sleeps, the second dispatch start is recorded one second before the
    first, not one second after. *)
Lemma C1_counterexample_clock_steps_back :
  fst (gate_sequence Runs.stepping_back_env [true; true] Runs.start) = Val tt
  /\ stamps (trace (snd (gate_sequence Runs.stepping_back_env [true; true] Runs.start)))
     = [inject_Z 1700000000; inject_Z 1699999999]
  /\ sleeps (trace (snd (gate_sequence Runs.stepping_back_env [true; true] Runs.start)))
     = [1%Q]
  /\ ~ spaced (_OPENAI_COOLDOWN_SEC Runs.stepping_back_env) 0
         (stamps (trace (snd (gate_sequence Runs.stepping_back_env [true; true]
                                Runs.start)))).
Proof.
  split; [reflexivity|].
  assert (Hst : stamps (trace (snd (gate_sequence Runs.stepping_back_env [true; true]
                                      Runs.start)))
                = [inject_Z 1700000000; inject_Z 1699999999])
    by (vm_compute; reflexivity).
  split; [exact Hst|]. split; [vm_compute; reflexivity|].
  rewrite Hst. cbn [spaced]. intros (_ & H & _). revert H. unfold Qle. cbn. lia.
Qed.

Module CooldownExamples.

(** The three timestamps of that run: the clock starts at 1700000000 and
    the gate reads it at .5, sleeps out the second, and so on. *)
Example three_stamps :
  Forall2 Qeq
    (stamps (trace (snd (gate_sequence Runs.gate_env [true; false; true] Runs.start))))
    [17000000005 # 10; 1700000002; 17000000035 # 10]%Q.
Proof. vm_compute. repeat constructor. Qed.

(** The interval without the variable, or with one that is no number, is
    one second.  A variable may also make it [nan], with which the gate
    never sleeps, or an infinity, with which [time.sleep] raises in every
    call that waits: the properties above are about a finite interval. *)
Example cooldown_loaded :
  load_cooldown_sec None = Fin (10 # 10)
  /\ load_cooldown_sec (Some "soon"%string) = Fin 1
  /\ load_cooldown_sec (Some "0.25"%string) = Fin (25 # 100)
  /\ load_cooldown_sec (Some "nan"%string) = NaN
  /\ load_cooldown_sec (Some "inf"%string) = Inf false.
Proof. vm_compute. repeat split. Qed.

End CooldownExamples.

(* ===================================================================== *)
(** ** The configuration builders                                         *)
(* ===================================================================== *)

Definition messages_of (cfg : PyDict) : option PyVal := dict_get cfg "messages".

Module BuilderFacts.

Lemma anthropic_messages (message : Prompt) (max_tokens : Z) (temperature : PyVal)
    (batch_size : Z) (system_message model : string) (tools : option (list PyVal)) :
  messages_of (create_anthropic_config message max_tokens temperature batch_size
                 system_message model tools)
  = Some (VList match message with
                | PStr s => [role_content "user" (VList [text_block s])]
                | PList l => l
                end).
Proof.
  unfold create_anthropic_config, messages_of.
  destruct tools as [[|t ts]|]; destruct message; reflexivity.
Qed.

End BuilderFacts.

(** C7, as stated, fails for the Anthropic-style builder on a string: the
    prompt ["hi"] gives one user message holding a text block, not
    [[system message, user message]]. *)
Lemma C7_counterexample_anthropic_string :
  messages_of (create_anthropic_config (PStr "hi") 1024 (VInt 1) 1
                 default_system_message "claude-2.1" None)
  = Some (VList [role_content "user" (VList [text_block "hi"])])
  /\ messages_of (create_anthropic_config (PStr "hi") 1024 (VInt 1) 1
                    default_system_message "claude-2.1" None)
     <> Some (VList [role_content "system" (VStr default_system_message);
                     role_content "user" (VStr "hi")]).
Proof. split; [reflexivity | discriminate]. Qed.

(** C7 (amended). The message sequence of a built configuration: the
    OpenAI-style builder gives [[system message, user message(prompt)]] for
    a string and [[system message] + list] for a list; the Anthropic-style
    builder gives the list itself for a list and, for a string, the single
    user message whose content is one text block, with no system entry. *)
Theorem C7_builders_message_sequence
    (max_tokens : Z) (temperature : PyVal) (batch_size : Z)
    (system_message model reasoning_effort : string) (tools : option (list PyVal)) :
  (forall s,
     messages_of (create_chatgpt_config (PStr s) max_tokens temperature batch_size
                    system_message model reasoning_effort)
     = Some (VList [role_content "system" (VStr system_message);
                    role_content "user" (VStr s)]))
  /\ (forall l,
        messages_of (create_chatgpt_config (PList l) max_tokens temperature batch_size
                       system_message model reasoning_effort)
        = Some (VList ([role_content "system" (VStr system_message)] ++ l)))
  /\ (forall l,
        messages_of (create_anthropic_config (PList l) max_tokens temperature
                       batch_size system_message model tools)
        = Some (VList l))
  /\ (forall s,
        messages_of (create_anthropic_config (PStr s) max_tokens temperature
                       batch_size system_message model tools)
        = Some (VList [role_content "user" (VList [text_block s])])).
Proof.
  repeat split; intros; try reflexivity; apply BuilderFacts.anthropic_messages.
Qed.

(** C10. For a string prompt the Anthropic-style configuration holds exactly
    one user message whose content is a single text block with the prompt;
    in both input forms the configuration does not depend on
    [system_message], has no ["system"] key, and its messages are the
    caller's list or that one user message: nothing is injected. *)
Theorem C10_anthropic_config_has_no_system_entry
    (message : Prompt) (max_tokens : Z) (temperature : PyVal) (batch_size : Z)
    (system_message model : string) (tools : option (list PyVal)) :
  let cfg := create_anthropic_config message max_tokens temperature batch_size
               system_message model tools in
  messages_of cfg
  = Some (VList match message with
                | PStr s =>
                    [VDict [("role"%string, VStr "user");
                            ("content"%string,
                              VList [VDict [("type"%string, VStr "text");
                                            ("text"%string, VStr s)]])]]
                | PList l => l
                end)
  /\ (forall other : string,
        cfg = create_anthropic_config message max_tokens temperature batch_size
                other model tools)
  /\ dict_get cfg "system" = None
  /\ Forall (fun kv => In (fst kv)
                         ["model"; "temperature"; "max_tokens"; "messages"; "tools"]%string)
            cfg.
Proof.
  cbv zeta. split; [apply BuilderFacts.anthropic_messages|].
  split; [reflexivity|].
  unfold create_anthropic_config.
  destruct tools as [[|t ts]|]; destruct message; cbn;
    (split; [reflexivity | repeat constructor; cbn; tauto]).
Qed.

(* ===================================================================== *)
(** ** The OpenAI-style executor                                          *)
(* ===================================================================== *)

Module ChatFacts.

Section Facts.
Variable env : Env.

Lemma gate_returns (w : World) :
  _sleep_if_needed_for_openai_cooldown env true w = (Val tt, after_gate env w)
  /\ calls (after_gate env w) = calls w
  /\ config (after_gate env w) = config w.
Proof.
  unfold after_gate, _sleep_if_needed_for_openai_cooldown, bind, time_time, get_last.
  cbn [fst snd].
  set (wait := (_OPENAI_COOLDOWN_SEC env - _)%Q).
  destruct (Qltb 0 wait) eqn:Hw.
  - apply CooldownFacts.Qltb_true in Hw.
    assert (Hle : Qle_bool 0 wait = true) by (apply Qle_bool_iff; lra).
    unfold log, time_sleep_ordinary, slept, set_last. cbn. rewrite Hle. cbn. auto.
  - unfold ret, set_last. cbn. auto.
Qed.

Lemma dispatched_calls (w : World) : calls (dispatched env w) = S (calls w).
Proof. unfold dispatched. cbn. now rewrite (proj1 (proj2 (gate_returns w))). Qed.

Lemma dispatched_config (w : World) : config (dispatched env w) = config w.
Proof. unfold dispatched. cbn. apply gate_returns. Qed.

Lemma chat_attempt_eq (w : World) :
  chat_attempt env w =
  match chat_completions_create env (calls w) (config w) with
  | Returns r => (Val (Some r), dispatched env w)
  | Raises (ExnOpenAI e) =>
      match on_openai_error env e (dispatched env w) with
      | (Val _, w1) => (Val None, w1)
      | (Exc x, w1) => (Exc x, w1)
      end
  | Raises x => (Exc x, dispatched env w)
  end.
Proof.
  destruct (gate_returns w) as (Hg & Hc & Hf).
  unfold chat_attempt, try_except, bind at 1. rewrite Hg.
  unfold bind, log, chat_create, dispatched. cbn [emit calls config fst snd].
  cbn [calls config emit]. rewrite Hc, Hf.
  destruct (chat_completions_create env (calls w) (config w)) as [r|x]; cbn.
  - rewrite Hc, Hf. reflexivity.
  - rewrite Hc, Hf. destruct x; reflexivity.
Qed.

Lemma time_sleep_frame (d : PyFloat) (w : World) :
  calls (snd (time_sleep env d w)) = calls w
  /\ config (snd (time_sleep env d w)) = config w.
Proof.
  unfold time_sleep. destruct (sleep_check env d); cbn; auto.
Qed.

Lemma time_sleep_ordinary_frame (q : Q) (w : World) :
  calls (snd (time_sleep_ordinary env q w)) = calls w
  /\ config (snd (time_sleep_ordinary env q w)) = config w.
Proof.
  unfold time_sleep_ordinary. destruct (Qle_bool 0 q); cbn; auto.
Qed.

Lemma on_openai_error_frame (e : OpenAIError) (w : World) :
  calls (snd (on_openai_error env e w)) = calls w
  /\ config (snd (on_openai_error env e w)) = config w.
Proof.
  unfold on_openai_error.
  destruct (error_class e); unfold bind, log, print, raise; cbn; auto;
    match goal with
    | |- context [time_sleep env ?d ?w'] =>
        destruct (time_sleep_frame d w') as [H1 H2]; rewrite H1, H2; cbn; auto
    | |- context [time_sleep_ordinary env ?q ?w'] =>
        destruct (time_sleep_ordinary_frame q w') as [H1 H2]; rewrite H1, H2; cbn; auto
    end.
Qed.

Lemma on_openai_error_result (e : OpenAIError) (w : World) :
  fst (on_openai_error env e w) =
  match error_class e with
  | BadRequestError => Exc (ExnException "Invalid API Request")
  | RateLimitError =>
      match sleep_check env (wait_of e) with
      | inl _ => Val tt
      | inr x => Exc x
      end
  | _ => Val tt
  end.
Proof.
  unfold on_openai_error. fold (wait_of e).
  destruct (error_class e); unfold bind, log, print, raise; cbn [fst snd]; auto.
  unfold time_sleep. destruct (sleep_check env (wait_of e)); reflexivity.
Qed.

(** A turn on a retryable error: nothing is returned, one call was made. *)
Lemma attempt_retry (w : World) :
  retryable env (chat_completions_create env (calls w) (config w)) = true ->
  exists w1, chat_attempt env w = (Val None, w1)
             /\ calls w1 = S (calls w) /\ config w1 = config w.
Proof.
  intros H. rewrite chat_attempt_eq.
  destruct (chat_completions_create env (calls w) (config w)) as [r|x];
    [discriminate|]. destruct x; try discriminate. cbn in H.
  pose proof (on_openai_error_result e (dispatched env w)) as Hr.
  destruct (on_openai_error_frame e (dispatched env w)) as [Hc Hf].
  rewrite dispatched_calls in Hc. rewrite dispatched_config in Hf.
  destruct (on_openai_error env e (dispatched env w)) as [res w1]. cbn [fst snd] in *.
  assert (res = Val tt) as ->.
  { subst res. destruct (error_class e); try discriminate; try reflexivity.
    unfold sleepable in H. destruct (sleep_check env (wait_of e)); [reflexivity|].
    discriminate. }
  eauto.
Qed.


(** Every turn makes exactly one call and leaves the configuration alone. *)
Lemma attempt_frame (w : World) :
  calls (snd (chat_attempt env w)) = S (calls w)
  /\ config (snd (chat_attempt env w)) = config w.
Proof.
  rewrite chat_attempt_eq.
  destruct (chat_completions_create env (calls w) (config w)) as [r|x]; cbn [fst snd].
  - split; [apply dispatched_calls | apply dispatched_config].
  - destruct x; cbn [fst snd];
      try (split; [apply dispatched_calls | apply dispatched_config]).
    destruct (on_openai_error_frame e (dispatched env w)) as [Hc Hf].
    rewrite dispatched_calls in Hc. rewrite dispatched_config in Hf.
    destruct (on_openai_error env e (dispatched env w)) as [[u|x] w1];
      cbn [fst snd] in *; auto.
Qed.

(** The loop never touches the configuration and makes at most one call
    per turn. *)
Lemma loop_frame (n : nat) :
  forall w,
    config (snd (chat_loop env n w)) = config w
    /\ (calls w <= calls (snd (chat_loop env n w)) <= calls w + n)%nat.
Proof.
  induction n as [|n IH]; intros w; cbn [chat_loop].
  - unfold ret; cbn. split; [reflexivity | lia].
  - unfold bind. destruct (attempt_frame w) as [Hc Hf].
    destruct (chat_attempt env w) as [[[r|]|x] w1]; cbn [fst snd] in *.
    + unfold ret; cbn. rewrite Hc. split; [assumption | lia].
    + destruct (IH w1) as [H1 H2]. rewrite H1. split; [assumption | lia].
    + rewrite Hc. split; [assumption | lia].
Qed.




(** A response the loop holds is what its last call returned. *)
Lemma loop_some (n : nat) :
  forall w r w',
    chat_loop env n w = (Val (Some r), w') ->
    (calls w < calls w')%nat
    /\ chat_completions_create env (pred (calls w')) (config w) = Returns r.
Proof.
  induction n as [|n IH]; intros w r w' H; cbn [chat_loop] in H; [discriminate|].
  unfold bind in H. destruct (attempt_frame w) as [Hc Hf].
  pose proof (chat_attempt_eq w) as He.
  destruct (chat_attempt env w) as [[[r1|]|x] w1]; cbn [fst snd] in *.
  - inversion H; subst. rewrite Hc. cbn [pred]. split; [lia|].
    destruct (chat_completions_create env (calls w) (config w)) as [r0|x].
    + now inversion He.
    + destruct x; try discriminate.
      destruct (on_openai_error env e (dispatched env w)) as [[u|x] w2]; discriminate.
  - destruct (IH _ _ _ H) as [H1 H2]. rewrite Hf in H2. split; [lia | exact H2].
  - discriminate.
Qed.

Lemma bump_eq (r0 : option ChatCompletion) (wl : World) :
  try_except (bump_retry env r0) (fun _ => Some (ret r0)) wl =
  match r0 with
  | Some r =>
      if first_content_empty r && budget_exhausted (config wl) r then
        match py_int (configured_cap (config wl)) with
        | inr _ => (Val r0, emit wl (EvLog LogBump))
        | inl cap =>
            match chat_completions_create env (calls wl)
                    (bumped_config (config wl) cap) with
            | Returns r2 =>
                (Val (Some r2), emit (redispatched env wl cap) (EvLog (LogBumpResponse r2)))
            | Raises _ => (Val r0, redispatched env wl cap)
            end
        end
      else (Val r0, wl)
  | None => (Val None, wl)
  end.
Proof.
  unfold try_except, bump_retry. destruct r0 as [r|]; [|reflexivity].
  destruct (first_content_empty r); [|reflexivity]. cbn [andb].
  unfold bind at 1. unfold get_config at 1. cbn [fst snd].
  destruct (budget_exhausted (config wl) r); [|reflexivity].
  unfold bind at 1. unfold log at 1.
  unfold bind at 1.
  destruct (py_int (configured_cap (config wl))) as [cap|x]; [|reflexivity].
  unfold lift, ret at 1.
  unfold bind at 1, set_config at 1. unfold bind at 1, get_config at 1.
  unfold bind at 1, set_config at 1. cbn [with_config emit config].
  unfold bind at 1.
  match goal with |- context [_sleep_if_needed_for_openai_cooldown env true ?w0] =>
    set (wb := w0) end.
  destruct (gate_returns wb) as (Hg & Hc & Hf). rewrite Hg.
  unfold bind, chat_create, log, ret, redispatched.
  change (with_config (emit wl (EvLog LogBump)) (bumped_config (config wl) cap))
    with wb.
  cbn [calls config emit with_calls pass with_clock].
  rewrite Hc, Hf. subst wb. cbn [calls config with_config emit].
  unfold bumped_config.
  destruct (chat_completions_create env (calls wl) _) as [r2|x]; reflexivity.
Qed.

Lemma engine_eq (cfg : PyDict) (max_retries : Z) (w : World) :
  request_chatgpt_engine env cfg max_retries w =
  match chat_loop env (Z.to_nat max_retries) (with_config w cfg) with
  | (Val r0, w0) =>
      try_except (bump_retry env r0) (fun _ => Some (ret r0))
                 (emit w0 (EvLog (LogResponse r0)))
  | (Exc x, w0) => (Exc x, w0)
  end.
Proof.
  unfold request_chatgpt_engine, bind at 1, set_config at 1. unfold bind at 1.
  destruct (chat_loop env (Z.to_nat max_retries) (with_config w cfg)) as [[r0|x] w0];
    reflexivity.
Qed.

Lemma gate_submits_nothing (w : World) :
  submitted_rev (trace (after_gate env w)) = submitted_rev (trace w).
Proof.
  unfold after_gate, _sleep_if_needed_for_openai_cooldown, bind, time_time, get_last.
  cbn [fst snd].
  set (wait := (_OPENAI_COOLDOWN_SEC env - _)%Q).
  destruct (Qltb 0 wait) eqn:Hw.
  - apply CooldownFacts.Qltb_true in Hw.
    assert (Hle : Qle_bool 0 wait = true) by (apply Qle_bool_iff; lra).
    unfold log, time_sleep_ordinary, slept, set_last. cbn. rewrite Hle. reflexivity.
  - reflexivity.
Qed.

Lemma redispatched_calls (wl : World) (cap : Z) :
  calls (redispatched env wl cap) = S (calls wl).
Proof.
  unfold redispatched. cbn [calls emit with_calls].
  now rewrite (proj1 (proj2 (gate_returns _))).
Qed.

Lemma redispatched_config (wl : World) (cap : Z) :
  config (redispatched env wl cap) = bumped_config (config wl) cap.
Proof.
  unfold redispatched. cbn [config emit with_calls pass with_clock].
  now rewrite (proj2 (proj2 (gate_returns _))).
Qed.

Lemma redispatched_submitted (wl : World) (cap : Z) :
  submitted (trace (redispatched env wl cap))
  = submitted (trace wl) ++ [bumped_config (config wl) cap].
Proof.
  unfold submitted, redispatched.
  cbn [trace emit with_calls pass with_clock submitted_rev rev].
  rewrite gate_submits_nothing, (proj2 (proj2 (gate_returns _))). reflexivity.
Qed.


(** After the loop the executor either calls the provider no more and
    leaves the configuration as it is, or calls it once more with the
    ceiling raised; it raises only what the loop raised. *)
Lemma engine_after_loop (cfg : PyDict) (max_retries : Z) (w : World) :
  let loop := chat_loop env (Z.to_nat max_retries) (with_config w cfg) in
  let run := request_chatgpt_engine env cfg max_retries w in
  match fst loop with
  | Val r0 =>
      (exists r, fst run = Val r)
      /\ ((calls (snd run) = calls (snd loop) /\ config (snd run) = cfg)
          \/ (calls (snd run) = S (calls (snd loop))
              /\ exists cap, py_int (configured_cap cfg) = inl cap
                             /\ config (snd run) = bumped_config cfg cap))
  | Exc x => run = (Exc x, snd loop)
  end.
Proof.
  cbv zeta. rewrite engine_eq.
  pose proof (loop_frame (Z.to_nat max_retries) (with_config w cfg)) as [Hcfg _].
  cbn [config with_config] in Hcfg.
  destruct (chat_loop env (Z.to_nat max_retries) (with_config w cfg))
    as [[r0|x] w0]; cbn [fst snd] in *; [|reflexivity].
  rewrite bump_eq. cbn [config emit]. rewrite Hcfg.
  destruct r0 as [r|]; [|cbn; eauto].
  destruct (first_content_empty r && budget_exhausted _ r); [|cbn; eauto].
  destruct (py_int _) as [cap|] eqn:Hint; [|cbn; eauto].
  pose proof (redispatched_config (emit w0 (EvLog (LogResponse (Some r)))) cap) as Hf.
  cbn [config emit] in Hf. rewrite Hcfg in Hf.
  destruct (chat_completions_create env _ _); cbn [fst snd calls config emit];
    rewrite redispatched_calls; cbn [calls emit]; (split; [eauto|]); right; eauto.
Qed.

End Facts.

Lemma dict_get_set_same (d : PyDict) (k : string) (v : PyVal) :
  dict_get (dict_set d k v) k = Some v.
Proof.
  induction d as [|[k' v'] d IH]; cbn.
  - now rewrite String.eqb_refl.
  - destruct (String.eqb k' k) eqn:E; cbn; rewrite E; [reflexivity | exact IH].
Qed.

Lemma dict_get_set_other (d : PyDict) (k k' : string) (v : PyVal) :
  String.eqb k k' = false ->
  dict_get (dict_set d k v) k' = dict_get d k'.
Proof.
  intros Hk. induction d as [|[k0 v0] d IH]; cbn.
  - now rewrite Hk.
  - destruct (String.eqb k0 k) eqn:E; cbn.
    + apply String.eqb_eq in E. subst k0. now rewrite Hk.
    + now rewrite IH.
Qed.

Lemma dict_set_twice (d : PyDict) (k : string) (v v' : PyVal) :
  dict_set (dict_set d k v) k v' = dict_set d k v'.
Proof.
  induction d as [|[k0 v0] d IH]; cbn.
  - now rewrite String.eqb_refl.
  - destruct (String.eqb k0 k) eqn:E; cbn; rewrite E; [reflexivity | now rewrite IH].
Qed.

End ChatFacts.

(** C2, as stated, fails: with a ceiling of 1000 an empty answer reporting
    64 reasoning tokens (not the full ceiling) and 0 accepted prediction
    tokens makes the executor call the provider a second time, although the
    condition in the claim's words is false. *)
Lemma C2_counterexample_partial_reasoning :
  fst (chat_loop (Runs.chat_env Runs.thinking_then_answer) 40
         (with_config Runs.start Runs.chat_config))
  = Val (Some Runs.thinking)
  /\ calls (snd (chat_loop (Runs.chat_env Runs.thinking_then_answer) 40
                   (with_config Runs.start Runs.chat_config))) = 1%nat
  /\ spec_bump_trigger Runs.chat_config (Some Runs.thinking) = false
  /\ calls (snd (request_chatgpt_engine (Runs.chat_env Runs.thinking_then_answer)
                   Runs.chat_config 40 Runs.start)) = 2%nat
  /\ fst (request_chatgpt_engine (Runs.chat_env Runs.thinking_then_answer)
            Runs.chat_config 40 Runs.start)
     = Val (Some Runs.answer).
Proof. vm_compute. repeat split. Qed.


(** C2 (amended). Once the loop has ended holding [r0], the executor calls
    the provider one more time exactly when [r0] is a response whose first
    choice's content is empty or absent, the configured ceiling is set and
    non-zero, the response reports a non-zero reasoning-token count (which
    is not compared with the ceiling), the accepted-prediction count is zero
    or absent, and the ceiling converts to an integer; otherwise no further
    call is made.  When the loop raised, the executor raises the same. *)
Theorem C2_bump_retry_condition
    (env : Env) (cfg : PyDict) (max_retries : Z) (w : World) :
  let loop := chat_loop env (Z.to_nat max_retries) (with_config w cfg) in
  let run := request_chatgpt_engine env cfg max_retries w in
  match fst loop with
  | Val r0 =>
      (calls (snd run) = S (calls (snd loop)) <->
         exists r cap,
           r0 = Some r
           /\ first_content_empty r = true
           /\ truthy (configured_cap cfg) = true
           /\ (exists z, reasoning_of r = Some z /\ z <> 0%Z)
           /\ (accepted_of r = None \/ accepted_of r = Some 0%Z)
           /\ py_int (configured_cap cfg) = inl cap)
      /\ (calls (snd run) = calls (snd loop)
          \/ calls (snd run) = S (calls (snd loop)))
  | Exc x => run = (Exc x, snd loop)
  end.
Proof.
  cbv zeta. rewrite ChatFacts.engine_eq.
  pose proof (ChatFacts.loop_frame env (Z.to_nat max_retries) (with_config w cfg))
    as [Hcfg _]. cbn [config with_config] in Hcfg.
  destruct (chat_loop env (Z.to_nat max_retries) (with_config w cfg))
    as [[r0|x] w0]; cbn [fst snd] in *; [|reflexivity].
  rewrite ChatFacts.bump_eq. cbn [config emit calls]. rewrite Hcfg.
  assert (Hno : forall (P : Prop), calls w0 = S (calls w0) -> P) by (intros; lia).
  destruct r0 as [r|]; cbn [fst snd calls emit].
  2:{ split; [split; [apply Hno | intros (r & cap & H & _); discriminate] | now left]. }
  destruct (first_content_empty r) eqn:Hfirst; cbn [andb].
  2:{ split; [split; [apply Hno | intros (r' & cap & H & H' & _)] | now left].
      inversion H; subst. congruence. }
  destruct (budget_exhausted cfg r) eqn:Hbudget.
  2:{ split; [split; [apply Hno | intros (r' & cap & H & _ & Ht & (z & Hz & Hnz) & Ha & _)]
             | now left].
      inversion H; subst r'. unfold budget_exhausted in Hbudget.
      rewrite Ht, Hz in Hbudget. cbn in Hbudget.
      destruct (Z.eqb_spec z 0); [contradiction|]. cbn in Hbudget.
      destruct Ha as [Ha|Ha]; rewrite Ha in Hbudget; discriminate. }
  destruct (py_int (configured_cap cfg)) as [cap|x] eqn:Hint; cbn [fst snd calls emit].
  2:{ split; [split; [apply Hno | intros (r' & cap & _ & _ & _ & _ & _ & H); discriminate]
             | now left]. }
  assert (Hcall : calls (snd
            match chat_completions_create env (calls w0) (bumped_config cfg cap) with
            | Returns r2 =>
                (Val (Some r2),
                 emit (redispatched env (emit w0 (EvLog (LogResponse (Some r)))) cap)
                      (EvLog (LogBumpResponse r2)))
            | Raises _ =>
                (Val (Some r),
                 redispatched env (emit w0 (EvLog (LogResponse (Some r)))) cap)
            end) = S (calls w0)).
  { destruct (chat_completions_create env (calls w0) _); cbn [snd calls emit];
      rewrite ChatFacts.redispatched_calls; reflexivity. }
  split; [split; [intros _ | intros _; exact Hcall] | right; exact Hcall].
  exists r, cap. unfold budget_exhausted in Hbudget.
  apply andb_true_iff in Hbudget as [Hb Hacc]. apply andb_true_iff in Hb as [Ht Hr].
  repeat split; try assumption.
  - destruct (reasoning_of r) as [z|]; [|discriminate]. exists z. split; [reflexivity|].
    intros ->. discriminate.
  - destruct (accepted_of r) as [z|]; [|now left]. right.
    apply Z.eqb_eq in Hacc. now subst.
Qed.

(** C3. When the bump retry fires on a configuration whose ceiling is the
    integer [old], both ceiling fields of the configuration submitted again
    are [old + max(512, old // 2)]; exactly one call follows the loop, with
    that configuration, which is also what the caller's object holds
    afterwards; and the executor returns the response of that call when it
    returns one (the first response when it raises). *)
Theorem C3_bump_retry_once
    (env : Env) (cfg : PyDict) (max_retries : Z) (w : World)
    (r : ChatCompletion) (w0 : World) (old : Z) :
  chat_loop env (Z.to_nat max_retries) (with_config w cfg) = (Val (Some r), w0) ->
  first_content_empty r = true ->
  budget_exhausted cfg r = true ->
  configured_cap cfg = VInt old ->
  let bumped := (old + Z.max 512 (old / 2))%Z in
  let resubmitted :=
    dict_set (dict_set cfg "max_tokens" (VInt bumped))
             "max_completion_tokens" (VInt bumped) in
  let run := request_chatgpt_engine env cfg max_retries w in
  dict_get resubmitted "max_tokens" = Some (VInt bumped)
  /\ dict_get resubmitted "max_completion_tokens" = Some (VInt bumped)
  /\ submitted (trace (snd run)) = submitted (trace w0) ++ [resubmitted]
  /\ calls (snd run) = S (calls w0)
  /\ config (snd run) = resubmitted
  /\ fst run = Val (Some match chat_completions_create env (calls w0) resubmitted with
                         | Returns second => second
                         | Raises _ => r
                         end).
Proof.
  intros Hloop Hfirst Hbudget Hcap. cbv zeta.
  split; [|split].
  - rewrite ChatFacts.dict_get_set_other by reflexivity.
    apply ChatFacts.dict_get_set_same.
  - apply ChatFacts.dict_get_set_same.
  - rewrite ChatFacts.engine_eq.
    pose proof (ChatFacts.loop_frame env (Z.to_nat max_retries) (with_config w cfg))
      as [Hcfg _]. rewrite Hloop in *. cbn [config with_config snd] in Hcfg.
    rewrite ChatFacts.bump_eq. cbn [config emit calls]. rewrite Hcfg.
    rewrite Hfirst, Hbudget, Hcap. cbn [andb py_int].
    fold (bumped_cap old). fold (bumped_config cfg old).
    pose proof (ChatFacts.redispatched_calls env
                  (emit w0 (EvLog (LogResponse (Some r)))) old) as Hc.
    pose proof (ChatFacts.redispatched_config env
                  (emit w0 (EvLog (LogResponse (Some r)))) old) as Hf.
    pose proof (ChatFacts.redispatched_submitted env
                  (emit w0 (EvLog (LogResponse (Some r)))) old) as Hs.
    cbn [calls config trace emit] in Hc, Hf, Hs. rewrite Hcfg in Hf, Hs.
    unfold submitted in *. cbn [submitted_rev] in Hs.
    destruct (chat_completions_create env (calls w0) (bumped_config cfg old));
      cbn [fst snd calls config trace emit submitted_rev]; auto.
Qed.

(** C3 at work: a ceiling of 1000 is raised to 1512 and the second answer
    is the one returned. *)
Lemma C3_witness_ceiling_1000 :
  chat_loop (Runs.chat_env Runs.thinking_then_answer) (Z.to_nat 40)
    (with_config Runs.start Runs.chat_config)
  = (Val (Some Runs.thinking),
     snd (chat_loop (Runs.chat_env Runs.thinking_then_answer) (Z.to_nat 40)
            (with_config Runs.start Runs.chat_config)))
  /\ first_content_empty Runs.thinking = true
  /\ budget_exhausted Runs.chat_config Runs.thinking = true
  /\ configured_cap Runs.chat_config = VInt 1000
  /\ dict_get (config (snd (request_chatgpt_engine
                              (Runs.chat_env Runs.thinking_then_answer)
                              Runs.chat_config 40 Runs.start)))
              "max_completion_tokens" = Some (VInt 1512)
  /\ fst (request_chatgpt_engine (Runs.chat_env Runs.thinking_then_answer)
            Runs.chat_config 40 Runs.start) = Val (Some Runs.answer).
Proof.
  assert (H1 : chat_loop (Runs.chat_env Runs.thinking_then_answer) (Z.to_nat 40)
                 (with_config Runs.start Runs.chat_config)
               = (Val (Some Runs.thinking),
                  snd (chat_loop (Runs.chat_env Runs.thinking_then_answer) (Z.to_nat 40)
                         (with_config Runs.start Runs.chat_config))))
    by (vm_compute; reflexivity).
  assert (H2 : first_content_empty Runs.thinking = true) by reflexivity.
  assert (H3 : budget_exhausted Runs.chat_config Runs.thinking = true) by reflexivity.
  assert (H4 : configured_cap Runs.chat_config = VInt 1000) by reflexivity.
  pose proof (C3_bump_retry_once (Runs.chat_env Runs.thinking_then_answer)
                Runs.chat_config 40 Runs.start H1 H2 H3 H4)
    as (_ & Hget & _ & _ & Hcfg & Hres).
  split; [exact H1|]. split; [exact H2|]. split; [exact H3|]. split; [exact H4|].
  split.
  - rewrite Hcfg. exact Hget.
  - rewrite Hres. reflexivity.
Defined.




Module RateLimitExamples.

(** The three sources of the wait, in the order they are asked. *)
Example wait_from_header :
  _extract_retry_after_seconds Runs.rate_limit_header = Some (Fin (7 # 1)).
Proof. vm_compute. reflexivity. Qed.

Example wait_from_message :
  _extract_retry_after_seconds Runs.rate_limit_message = Some (Fin (5 # 10)).
Proof. vm_compute. reflexivity. Qed.

Example wait_default :
  _extract_retry_after_seconds Runs.rate_limit_silent = None
  /\ wait_of Runs.rate_limit_silent = Fin 2.
Proof. vm_compute. split; reflexivity. Qed.

Example docstring_pattern :
  option_map text (search (chars "Please try again in 1.384s")) = Some "1.384"%string.
Proof. vm_compute. reflexivity. Qed.

(** One rate-limit error, then success: half a second for the error, half
    a second more for the cooldown of one second, and the answer. *)
Example rate_limited_once_run :
  fst (request_chatgpt_engine (Runs.chat_env Runs.rate_limited_once)
         Runs.chat_config 40 Runs.start) = Val (Some Runs.final_answer)
  /\ sleeps (trace (snd (request_chatgpt_engine (Runs.chat_env Runs.rate_limited_once)
                           Runs.chat_config 40 Runs.start)))
     = [5 # 10; 5 # 10]
  /\ calls (snd (request_chatgpt_engine (Runs.chat_env Runs.rate_limited_once)
                   Runs.chat_config 40 Runs.start)) = 2%nat.
Proof. vm_compute. repeat split. Qed.

(** A header asking for a negative wait: [time.sleep] refuses it and the
    [ValueError] leaves the executor after one call. *)
Example negative_wait_raises :
  _extract_retry_after_seconds Runs.rate_limit_negative = Some (Fin (-1 # 1))
  /\ fst (request_chatgpt_engine
            (Runs.chat_env (fun _ _ => Raises (ExnOpenAI Runs.rate_limit_negative)))
            Runs.chat_config 40 Runs.start) = Exc ExnValueError
  /\ calls (snd (request_chatgpt_engine
                   (Runs.chat_env (fun _ _ => Raises (ExnOpenAI Runs.rate_limit_negative)))
                   Runs.chat_config 40 Runs.start)) = 1%nat.
Proof. vm_compute. repeat split. Qed.

End RateLimitExamples.

(* ===================================================================== *)
(** ** The Anthropic-style executor                                       *)
(* ===================================================================== *)

Module AnthropicFacts.

Ltac worlds :=
  match goal with
  | H : same_but_warnings ?w1 ?w2 |- _ =>
      destruct w1, w2; unfold same_but_warnings in *; cbn in H;
      destruct H as (? & ? & ? & ? & ? & ?); subst
  end.

Lemma alike_ret {A} (a : A) : alike (ret a) (ret a).
Proof. intros w1 w2 H. cbn. auto. Qed.

Lemma alike_bind {A B} (c1 c2 : M A) (k1 k2 : A -> M B) :
  alike c1 c2 -> (forall a, alike (k1 a) (k2 a)) -> alike (bind c1 k1) (bind c2 k2).
Proof.
  intros Hc Hk w1 w2 H. unfold bind. destruct (Hc w1 w2 H) as [Hr Hw].
  destruct (c1 w1) as [[a|x] u1], (c2 w2) as [[b|y] u2]; cbn [fst snd] in *;
    try discriminate.
  - inversion Hr; subst. now apply Hk.
  - inversion Hr; subst. split; [reflexivity | assumption].
Qed.

Lemma alike_try_except {A} (c1 c2 : M A) (h1 h2 : PyExn -> option (M A)) :
  alike c1 c2 ->
  (forall x, match h1 x, h2 x with
             | Some k1, Some k2 => alike k1 k2
             | None, None => True
             | _, _ => False
             end) ->
  alike (try_except c1 h1) (try_except c2 h2).
Proof.
  intros Hc Hh w1 w2 H. unfold try_except. destruct (Hc w1 w2 H) as [Hr Hw].
  destruct (c1 w1) as [[a|x] u1], (c2 w2) as [[b|y] u2]; cbn [fst snd] in *;
    try discriminate.
  - split; assumption.
  - inversion Hr; subst. specialize (Hh y).
    destruct (h1 y), (h2 y); try contradiction; [now apply Hh | split; assumption].
Qed.

Section Primitives.
Variable env : Env.

Lemma alike_time_time : alike (time_time env) (time_time env).
Proof. intros w1 w2 H. worlds. cbn. auto 10. Qed.

Lemma alike_time_sleep (q : Q) :
  alike (time_sleep_ordinary env q) (time_sleep_ordinary env q).
Proof.
  intros w1 w2 H. worlds. unfold time_sleep_ordinary, slept.
  destruct (Qle_bool 0 q); cbn; repeat split; auto. now f_equal.
Qed.

Lemma alike_log (m : LogMsg) : alike (log m) (log m).
Proof. intros w1 w2 H. worlds. cbn. repeat split; auto. now f_equal. Qed.

(** Either warning will do. *)
Lemma alike_warning (b1 b2 : bool) :
  alike (if b1 then log LogTimedOut else log LogRetrying)
        (if b2 then log LogTimedOut else log LogRetrying).
Proof.
  intros w1 w2 H. worlds. destruct b1, b2; cbn; repeat split; auto; now f_equal.
Qed.

Lemma alike_get_config : alike get_config get_config.
Proof. intros w1 w2 H. worlds. cbn. auto 10. Qed.

Lemma alike_set_config (c : PyDict) : alike (set_config c) (set_config c).
Proof. intros w1 w2 H. worlds. cbn. auto 10. Qed.

Lemma alike_lift {A} (x : A + PyExn) : alike (lift x) (lift x).
Proof. intros w1 w2 H. destruct x; cbn; auto. Qed.

Lemma alike_messages_call (ep : Endpoint) :
  alike (messages_call env ep) (messages_call env ep).
Proof.
  intros w1 w2 H. worlds. unfold messages_call. cbn.
  destruct (messages_create env ep _ _); cbn; repeat split; auto; now f_equal.
Qed.

Lemma alike_call (prompt_cache : bool) :
  alike (anthropic_call env prompt_cache) (anthropic_call env prompt_cache).
Proof.
  unfold anthropic_call. destruct prompt_cache; [|apply alike_messages_call].
  apply alike_bind; [apply alike_get_config|]. intros cfg.
  apply alike_bind; [apply alike_lift|]. intros cfg'.
  apply alike_bind; [apply alike_set_config|]. intros _.
  destruct (has_prompt_caching env); apply alike_messages_call.
Qed.

(** One turn under two timeouts. *)
Lemma alike_attempt (retries : Z) (t1 t2 : Q) (prompt_cache : bool) :
  alike (anthropic_attempt env retries t1 prompt_cache)
        (anthropic_attempt env retries t2 prompt_cache).
Proof.
  unfold anthropic_attempt.
  apply alike_bind; [apply alike_time_time|]. intros start_time.
  apply alike_try_except.
  - apply alike_bind; [apply alike_call|]. intros r. apply alike_ret.
  - intros x. unfold on_exception.
    apply alike_bind; [|intros; apply alike_ret].
    apply alike_bind; [apply alike_log|]. intros _.
    apply alike_bind; [apply alike_time_time|]. intros now.
    apply alike_bind; [apply alike_warning|]. intros _.
    apply alike_time_sleep.
Qed.

Lemma alike_loop (n : nat) (t1 t2 : Q) (prompt_cache : bool) :
  forall retries,
    alike (anthropic_loop env n retries t1 prompt_cache)
          (anthropic_loop env n retries t2 prompt_cache).
Proof.
  induction n as [|n IH]; intros retries; cbn [anthropic_loop].
  - apply alike_ret.
  - apply alike_bind; [apply alike_attempt|]. intros [m|]; [apply alike_ret | apply IH].
Qed.

Lemma alike_engine (cfg : PyDict) (max_retries : Z) (t1 t2 : Q) (prompt_cache : bool) :
  alike (request_anthropic_engine env cfg max_retries t1 prompt_cache)
        (request_anthropic_engine env cfg max_retries t2 prompt_cache).
Proof.
  unfold request_anthropic_engine.
  apply alike_bind; [apply alike_set_config|]. intros _. apply alike_loop.
Qed.

End Primitives.

Lemma set_cache_control_shape (cfg : PyDict) :
  match set_cache_control cfg with
  | inl cfg' =>
      exists m0 msgs b0 blocks,
        dict_get cfg "messages" = Some (VList (VDict m0 :: msgs))
        /\ dict_get m0 "content" = Some (VList (VDict b0 :: blocks))
        /\ cfg' = dict_set cfg "messages"
                    (VList (VDict (dict_set m0 "content"
                                     (VList (VDict (dict_set b0 "cache_control" ephemeral)
                                             :: blocks)))
                            :: msgs))
  | inr _ => marked cfg = cfg
  end.
Proof.
  unfold marked. unfold set_cache_control.
  destruct (dict_get cfg "messages") as [[| | | |s|[|[| | | | | |m0] msgs]|]|] eqn:Hm;
    try reflexivity.
  - destruct (String.eqb s EmptyString); reflexivity.
  - destruct (dict_get m0 "content") as [[| | | |s|[|[| | | | | |b0] blocks]|]|] eqn:Hc;
      try reflexivity.
    + destruct (String.eqb s EmptyString); reflexivity.
    + exists m0, msgs, b0, blocks. auto.
Qed.

(** Marking twice is marking once. *)
Lemma marked_idem (cfg : PyDict) : marked (marked cfg) = marked cfg.
Proof.
  pose proof (set_cache_control_shape cfg) as H. unfold marked at 2 3.
  destruct (set_cache_control cfg) as [cfg'|x]; [|exact H].
  destruct H as (m0 & msgs & b0 & blocks & Hm & Hc & ->).
  unfold marked, set_cache_control.
  rewrite ChatFacts.dict_get_set_same, ChatFacts.dict_get_set_same.
  now rewrite !ChatFacts.dict_set_twice.
Qed.

Section Frame.
Variable env : Env.

Lemma attempt_config (retries : Z) (timeout : Q) (prompt_cache : bool) (w : World) :
  config (snd (anthropic_attempt env retries timeout prompt_cache w))
  = if prompt_cache then marked (config w) else config w.
Proof.
  assert (Hexc : forall st w', config (snd (bind (on_exception env st timeout retries)
                                              (fun _ => ret (@None AnthropicMessage)) w'))
                               = config w').
  { intros st w'. unfold bind, on_exception, bind, log, time_time, ret, time_sleep_ordinary, slept. cbn.
    destruct (Qle_bool timeout _); cbn; destruct (Qle_bool 0 _); reflexivity. }
  unfold anthropic_attempt, bind at 1, time_time. cbn [fst snd].
  unfold try_except, anthropic_call, bind at 1.
  destruct prompt_cache.
  - unfold bind at 1, get_config. cbn [fst snd config pass with_clock].
    unfold marked. unfold bind at 1.
    destruct (set_cache_control (config w)) as [cfg'|x]; cbn [lift].
    + unfold ret at 1, bind at 1, set_config. cbn [fst snd].
      assert (Hcall : forall ep w',
                config (snd (messages_call env ep w')) = config w').
      { intros ep w'. unfold messages_call.
        destruct (messages_create env ep _ _); reflexivity. }
      destruct (has_prompt_caching env);
        match goal with |- context [messages_call env ?ep ?w'] =>
          specialize (Hcall ep w'); specialize (Hexc (clock (pass env w)));
          destruct (messages_call env ep w') as [[m|y] w2]; cbn [fst snd] in *;
          [exact Hcall | rewrite Hexc; exact Hcall] end.
    + unfold raise. cbn [fst snd]. rewrite Hexc. reflexivity.
  - match goal with |- context [messages_call env ?ep ?w'] =>
      assert (Hcall : config (snd (messages_call env ep w')) = config w)
        by (unfold messages_call; destruct (messages_create env ep _ _); reflexivity);
      specialize (Hexc (clock (pass env w)));
      destruct (messages_call env ep w') as [[m|y] w2]; cbn [fst snd] in *;
      [exact Hcall | rewrite Hexc; exact Hcall] end.
Qed.

Lemma loop_config (n : nat) (timeout : Q) (prompt_cache : bool) :
  forall retries w,
    config (snd (anthropic_loop env n retries timeout prompt_cache w))
    = if prompt_cache && negb (Nat.eqb n 0) then marked (config w) else config w.
Proof.
  induction n as [|n IH]; intros retries w; cbn [anthropic_loop].
  - now rewrite andb_false_r.
  - unfold bind. pose proof (attempt_config retries timeout prompt_cache w) as Ha.
    destruct (anthropic_attempt env retries timeout prompt_cache w) as [[[m|]|x] w1];
      cbn [fst snd] in *; cbn [Nat.eqb negb]; rewrite ?andb_true_r;
      try exact Ha.
    rewrite IH, Ha. destruct prompt_cache; cbn [andb]; [|reflexivity].
    destruct (negb (Nat.eqb n 0)); [apply marked_idem | reflexivity].
Qed.

Lemma engine_config (cfg : PyDict) (max_retries : Z) (timeout : Q)
    (prompt_cache : bool) (w : World) :
  config (snd (request_anthropic_engine env cfg max_retries timeout prompt_cache w))
  = if prompt_cache && (0 <? max_retries)%Z then marked cfg else cfg.
Proof.
  unfold request_anthropic_engine, bind at 1, set_config. cbn [fst snd].
  rewrite loop_config. cbn [config with_config].
  replace (negb (Nat.eqb (Z.to_nat max_retries) 0)) with (0 <? max_retries)%Z;
    [reflexivity|].
  destruct (Z.ltb_spec 0 max_retries), (Nat.eqb_spec (Z.to_nat max_retries) 0);
    cbn; try reflexivity; lia.
Qed.

End Frame.

Lemma same_refl (w : World) : same_but_warnings w w.
Proof. unfold same_but_warnings. auto 10. Qed.

Lemma sleeps_erase (tr : list Event) : sleeps_rev (map erase tr) = sleeps_rev tr.
Proof.
  induction tr as [|e tr IH]; [reflexivity|].
  destruct e as [t|d|c|ep c|m|m]; cbn; try (now rewrite IH); try exact IH.
  destruct m; cbn; exact IH.
Qed.

End AnthropicFacts.

(** C8. Two runs of the Anthropic-style executor that differ only in
    [timeout] return the same, call the provider as often and with the same
    configurations, sleep the same lengths, end at the same time with the
    same configuration, and leave traces that differ at most in which of
    the two warnings was logged on a failure. *)
Theorem C8_timeout_is_diagnostic
    (env : Env) (cfg : PyDict) (max_retries : Z) (timeout1 timeout2 : Q)
    (prompt_cache : bool) (w : World) :
  let run1 := request_anthropic_engine env cfg max_retries timeout1 prompt_cache w in
  let run2 := request_anthropic_engine env cfg max_retries timeout2 prompt_cache w in
  fst run1 = fst run2
  /\ calls (snd run1) = calls (snd run2)
  /\ sleeps (trace (snd run1)) = sleeps (trace (snd run2))
  /\ clock (snd run1) = clock (snd run2)
  /\ config (snd run1) = config (snd run2)
  /\ map erase (trace (snd run1)) = map erase (trace (snd run2)).
Proof.
  cbv zeta.
  destruct (AnthropicFacts.alike_engine env cfg max_retries timeout1 timeout2
              prompt_cache (AnthropicFacts.same_refl w))
    as (Hres & Hclock & _ & _ & Hcalls & Hcfg & Htrace).
  repeat split; try assumption.
  unfold sleeps. f_equal.
  rewrite <- (AnthropicFacts.sleeps_erase (trace (snd (request_anthropic_engine
                env cfg max_retries timeout1 prompt_cache w)))).
  rewrite Htrace. apply AnthropicFacts.sleeps_erase.
Qed.

(** C5, as stated, fails: run with [prompt_cache], the Anthropic-style
    executor writes a [cache_control] entry into the first block of the
    first message of the caller's configuration. *)
Lemma C5_counterexample_prompt_cache :
  config (snd (request_anthropic_engine Runs.anthropic_env Runs.anthropic_config
                 40 500 true Runs.start))
  <> Runs.anthropic_config
  /\ messages_of (config (snd (request_anthropic_engine Runs.anthropic_env
                                 Runs.anthropic_config 40 500 true Runs.start)))
     = Some (VList
               [VDict [("role"%string, VStr "user");
                       ("content"%string,
                         VList [VDict [("type"%string, VStr "text");
                                       ("text"%string, VStr "hi");
                                       ("cache_control"%string,
                                         VDict [("type"%string, VStr "ephemeral")])]])]]).
Proof. split; [vm_compute; discriminate | vm_compute; reflexivity]. Qed.

(** C5 (amended). The caller's configuration is written in two places only.
    The OpenAI-style executor leaves it as it was unless the bump retry
    calls the provider, and then has set both ceiling fields to the raised
    ceiling.  The Anthropic-style executor leaves it as it was without
    [prompt_cache]; with [prompt_cache], as soon as a turn is made, it holds
    the configuration with [cache_control] set on the first block of the
    first message (nothing else is touched), or is unchanged when the
    configuration has no such block. *)
Theorem C5_configuration_frame
    (env : Env) (cfg : PyDict) (max_retries : Z) (timeout : Q) (w : World) :
  let loop := chat_loop env (Z.to_nat max_retries) (with_config w cfg) in
  let chat := request_chatgpt_engine env cfg max_retries w in
  ((calls (snd chat) = calls (snd loop) /\ config (snd chat) = cfg)
   \/ (calls (snd chat) = S (calls (snd loop))
       /\ exists cap,
            py_int (configured_cap cfg) = inl cap
            /\ config (snd chat)
               = dict_set (dict_set cfg "max_tokens"
                             (VInt (cap + Z.max 512 (cap / 2))))
                          "max_completion_tokens" (VInt (cap + Z.max 512 (cap / 2)))))
  /\ config (snd (request_anthropic_engine env cfg max_retries timeout false w)) = cfg
  /\ config (snd (request_anthropic_engine env cfg max_retries timeout true w))
     = (if (0 <? max_retries)%Z then marked cfg else cfg)
  /\ match set_cache_control cfg with
     | inl cfg' =>
         exists m0 msgs b0 blocks,
           dict_get cfg "messages" = Some (VList (VDict m0 :: msgs))
           /\ dict_get m0 "content" = Some (VList (VDict b0 :: blocks))
           /\ cfg' = dict_set cfg "messages"
                       (VList (VDict (dict_set m0 "content"
                                        (VList (VDict (dict_set b0 "cache_control"
                                                         ephemeral)
                                                :: blocks)))
                               :: msgs))
     | inr _ => marked cfg = cfg
     end.
Proof.
  cbv zeta. split; [|split; [|split]].
  - pose proof (ChatFacts.engine_after_loop env cfg max_retries w) as H.
    cbv zeta in H.
    destruct (fst (chat_loop env (Z.to_nat max_retries) (with_config w cfg))) as [r0|x].
    + destruct H as [_ H]. exact H.
    + left. rewrite H. cbn [snd]. split; [reflexivity|].
      apply (ChatFacts.loop_frame env (Z.to_nat max_retries) (with_config w cfg)).
  - apply AnthropicFacts.engine_config.
  - apply AnthropicFacts.engine_config.
  - apply AnthropicFacts.set_cache_control_shape.
Qed.

Module AnthropicExamples.

(** Two failures, then success: the executor sleeps [10 * 0] and [10 * 1],
    whatever the timeout, and returns the third response. *)
Example linear_backoff :
  fst (request_anthropic_engine Runs.flaky_anthropic_env Runs.anthropic_config
         40 500 false Runs.start) = Val (Some (mkAnthropicMessage "msg_3"))
  /\ sleeps (trace (snd (request_anthropic_engine Runs.flaky_anthropic_env
                           Runs.anthropic_config 40 500 false Runs.start)))
     = [inject_Z 0; inject_Z 10]
  /\ sleeps (trace (snd (request_anthropic_engine Runs.flaky_anthropic_env
                           Runs.anthropic_config 40 0 false Runs.start)))
     = [inject_Z 0; inject_Z 10]
  /\ calls (snd (request_anthropic_engine Runs.flaky_anthropic_env
                   Runs.anthropic_config 40 0 false Runs.start)) = 3%nat.
Proof. vm_compute. repeat split. Qed.

End AnthropicExamples.

(* ===================================================================== *)
(** ** The JSON formatter                                                 *)
(* ===================================================================== *)

Module FormatterFacts.
Import Formatter.

Lemma no_errors_counted {A} (p : A -> bool) (l : list A) :
  Nat.eqb (List.length (filter p l)) 0 = negb (existsb p l).
Proof.
  induction l as [|a l IH]; [reflexivity|]. cbn. destruct (p a); [reflexivity | exact IH].
Qed.

End FormatterFacts.

(** C9, as stated, fails: when nothing lies at the directory given, or the
    indent is negative, no file is touched, none fails, and the exit status
    is 2. *)
Lemma C9_counterexample_exit_2 :
  Formatter.main Formatter.literal_loads Formatter.literal_dumps
    (Formatter.mkArgs None false 2) = (2%Z, [])
  /\ Formatter.main Formatter.literal_loads Formatter.literal_dumps
       (Formatter.mkArgs (Some Runs.tidy_folder) false (-1)) = (2%Z, [])
  /\ Formatter.main Formatter.literal_loads Formatter.literal_dumps
       (Formatter.mkArgs (Some Runs.tidy_folder) false 2)
     = (0%Z, [(["a.json"%string], Formatter.OK)]).
Proof. vm_compute. repeat split. Qed.

(** C9 (amended). The exit status is 2, with no file examined, when the
    directory does not exist, is not a directory, or the indent is negative.
    Otherwise it is 1 when some [.json] file is reported as an error and 0
    when none is (also when there is no file at all); and a file is
    reported as an error exactly when it cannot be read, is not valid JSON,
    cannot be serialised, or differs from its formatted text and cannot be
    written. *)
Theorem C9_exit_status
    (Json : Type) (json_loads : string -> option Json)
    (json_dumps : Json -> Z -> option string) (args : Formatter.Args) :
  let run := Formatter.main json_loads json_dumps args in
  match Formatter.dir args with
  | Some (Formatter.Folder _ children) =>
      if (Formatter.indent args <? 0)%Z then run = (2%Z, [])
      else
        snd run = Formatter.reports json_loads json_dumps children args
        /\ fst run = (if existsb (fun x => Formatter.is_error (snd x)) (snd run)
                      then 1 else 0)%Z
  | _ => run = (2%Z, [])
  end
  /\ forall f : Formatter.JsonFile,
       Formatter.is_error
         (Formatter.status_of json_loads json_dumps f (Formatter.indent args)) = true
       <-> match Formatter.file_contents f with
           | None => True
           | Some original_text =>
               match json_loads original_text with
               | None => True
               | Some data =>
                   match json_dumps data (Formatter.indent args) with
                   | None => True
                   | Some dumped =>
                       let formatted :=
                         if Formatter.ends_with Formatter.newline dumped then dumped
                         else String.append dumped Formatter.newline in
                       formatted <> original_text
                       /\ Formatter.file_writable f = false
                   end
               end
           end.
Proof.
  cbv zeta. split.
  - unfold Formatter.main.
    destruct (Formatter.dir args) as [[name c wr|name children]|]; try reflexivity.
    destruct (Formatter.indent args <? 0)%Z; [reflexivity|].
    unfold Formatter.reports.
    destruct (Formatter.find_json_files children (Formatter.recursive args))
      as [|f fs] eqn:Hfind; [split; reflexivity|].
    cbn [fst snd]. split; [reflexivity|].
    unfold Formatter.count_errors. rewrite FormatterFacts.no_errors_counted.
    destruct (existsb _ _); reflexivity.
  - intros f. unfold Formatter.status_of, Formatter.format_json_file.
    destruct (Formatter.file_contents f) as [original_text|]; [|cbn; tauto].
    destruct (json_loads original_text) as [data|]; [|cbn; tauto].
    destruct (json_dumps data (Formatter.indent args)) as [dumped|]; [|cbn; tauto].
    cbv zeta.
    destruct (String.eqb_spec
                (if Formatter.ends_with Formatter.newline dumped then dumped
                 else String.append dumped Formatter.newline) original_text) as [E|E].
    + cbn. split; [discriminate | intros [H _]; contradiction].
    + destruct (Formatter.file_writable f); cbn.
      * split; [discriminate | intros [_ H]; discriminate].
      * split; auto.
Qed.

(* ===================================================================== *)
(** * Further properties of the OpenAI-style executor                     *)
(* ===================================================================== *)

Module ChatMore.

Section Facts.
Variable env : Env.

(** Retryable errors on the first [k] turns only postpone the rest. *)
Lemma loop_skip (k : nat) :
  forall n w,
    (forall j, (j < k)%nat ->
       retryable env (chat_completions_create env (calls w + j) (config w)) = true) ->
    exists wk, chat_loop env (k + n) w = chat_loop env n wk
               /\ calls wk = (calls w + k)%nat /\ config wk = config w.
Proof.
  induction k as [|k IH]; intros n w H.
  - exists w. rewrite Nat.add_0_r. auto.
  - destruct (ChatFacts.attempt_retry env w) as (w1 & Ha & Hc & Hf).
    { specialize (H 0%nat). rewrite Nat.add_0_r in H. apply H. lia. }
    destruct (IH n w1) as (wk & Hl & Hc' & Hf').
    { intros j Hj. rewrite Hc, Hf.
      replace (S (calls w) + j)%nat with (calls w + S j)%nat by lia. apply H. lia. }
    exists wk. cbn [Nat.add chat_loop]. unfold bind at 1. rewrite Ha.
    rewrite Hl, Hc', Hf', Hc, Hf. repeat split; lia.
Qed.

(** The gate records exactly one timestamp. *)
Lemma gate_stamps_once (w : World) :
  exists t, stamps_rev (trace (after_gate env w)) = t :: stamps_rev (trace w).
Proof.
  unfold after_gate, _sleep_if_needed_for_openai_cooldown, bind, time_time, get_last.
  cbn [fst snd].
  set (wait := (_OPENAI_COOLDOWN_SEC env - _)%Q).
  destruct (Qltb 0 wait) eqn:Hw.
  - apply CooldownFacts.Qltb_true in Hw.
    assert (Hle : Qle_bool 0 wait = true) by (apply Qle_bool_iff; lra).
    unfold log, time_sleep_ordinary, slept, set_last. cbn. rewrite Hle. cbn. eauto.
  - unfold ret, set_last. cbn. eauto.
Qed.

(** The balance of a run: as many new stamps, and as many new
    submissions, as new calls. *)
Definition balanced (w w' : World) : Prop :=
  (List.length (stamps_rev (trace w')) + calls w
   = List.length (stamps_rev (trace w)) + calls w')%nat
  /\ (List.length (submitted_rev (trace w')) + calls w
      = List.length (submitted_rev (trace w)) + calls w')%nat.

Lemma balanced_refl (w : World) : balanced w w.
Proof. split; reflexivity. Qed.

Lemma balanced_trans (w1 w2 w3 : World) :
  balanced w1 w2 -> balanced w2 w3 -> balanced w1 w3.
Proof. unfold balanced. intros [H1 H2] [H3 H4]. split; lia. Qed.

Lemma dispatched_balanced (w : World) : balanced w (dispatched env w).
Proof.
  destruct (gate_stamps_once w) as [t Ht].
  destruct (ChatFacts.gate_returns env w) as (_ & Hc & _).
  pose proof (ChatFacts.gate_submits_nothing env w) as Hs.
  unfold balanced, dispatched. cbn [trace calls emit with_calls pass with_clock
                                     stamps_rev submitted_rev List.length].
  rewrite Ht, Hs, Hc. cbn [List.length]. split; lia.
Qed.

Lemma sleep_balanced (d : PyFloat) (w : World) :
  balanced w (snd (time_sleep env d w)).
Proof.
  unfold time_sleep. destruct (sleep_check env d); cbn [snd]; [|apply balanced_refl].
  split; reflexivity.
Qed.

Lemma sleep_ordinary_balanced (q : Q) (w : World) :
  balanced w (snd (time_sleep_ordinary env q w)).
Proof.
  unfold time_sleep_ordinary. destruct (Qle_bool 0 q); cbn [snd]; [|apply balanced_refl].
  split; reflexivity.
Qed.

Lemma on_openai_error_balanced (e : OpenAIError) (w : World) :
  balanced w (snd (on_openai_error env e w)).
Proof.
  unfold on_openai_error.
  destruct (error_class e); unfold bind, log, print, raise; cbn [fst snd];
    try (split; reflexivity);
    match goal with
    | |- context [time_sleep env ?d ?w'] =>
        pose proof (sleep_balanced d w') as H;
        destruct (time_sleep env d w') as [[u|x] w1]; cbn [snd] in *;
        (eapply balanced_trans; [|exact H]); split; reflexivity
    | |- context [time_sleep_ordinary env ?q ?w'] =>
        pose proof (sleep_ordinary_balanced q w') as H;
        destruct (time_sleep_ordinary env q w') as [[u|x] w1]; cbn [snd] in *;
        (eapply balanced_trans; [|exact H]); split; reflexivity
    end.
Qed.

Lemma attempt_balanced (w : World) : balanced w (snd (chat_attempt env w)).
Proof.
  rewrite ChatFacts.chat_attempt_eq.
  destruct (chat_completions_create env (calls w) (config w)) as [r|x]; cbn [snd].
  - apply dispatched_balanced.
  - destruct x; cbn [snd]; try apply dispatched_balanced.
    pose proof (on_openai_error_balanced e (dispatched env w)) as H.
    destruct (on_openai_error env e (dispatched env w)) as [[u|x] w1]; cbn [snd] in *;
      (eapply balanced_trans; [apply dispatched_balanced | exact H]).
Qed.

Lemma loop_balanced (n : nat) : forall w, balanced w (snd (chat_loop env n w)).
Proof.
  induction n as [|n IH]; intros w; cbn [chat_loop]; [apply balanced_refl|].
  unfold bind. pose proof (attempt_balanced w) as Ha.
  destruct (chat_attempt env w) as [[[r|]|x] w1]; cbn [snd] in *; try exact Ha.
  eapply balanced_trans; [exact Ha | apply IH].
Qed.

Lemma redispatched_balanced (wl : World) (cap : Z) :
  balanced wl (redispatched env wl cap).
Proof.
  unfold redispatched.
  match goal with |- context [after_gate env ?w0] => set (wb := w0) end.
  destruct (gate_stamps_once wb) as [t Ht].
  destruct (ChatFacts.gate_returns env wb) as (_ & Hc & _).
  pose proof (ChatFacts.gate_submits_nothing env wb) as Hs.
  unfold balanced. cbn [trace calls emit with_calls pass with_clock
                         stamps_rev submitted_rev List.length].
  rewrite Ht, Hs, Hc. subst wb.
  cbn [trace calls emit with_config stamps_rev submitted_rev List.length].
  split; lia.
Qed.

Lemma engine_balanced (cfg : PyDict) (max_retries : Z) (w : World) :
  balanced w (snd (request_chatgpt_engine env cfg max_retries w)).
Proof.
  rewrite ChatFacts.engine_eq.
  pose proof (loop_balanced (Z.to_nat max_retries) (with_config w cfg)) as Hl.
  destruct (chat_loop env (Z.to_nat max_retries) (with_config w cfg))
    as [[r0|x] w0]; cbn [snd] in *; [|exact Hl].
  eapply balanced_trans; [exact Hl|].
  rewrite ChatFacts.bump_eq.
  assert (He : balanced w0 (emit w0 (EvLog (LogResponse r0)))) by (split; reflexivity).
  destruct r0 as [r|]; [|exact He].
  destruct (first_content_empty r && budget_exhausted _ r); [|exact He].
  destruct (py_int _) as [cap|]; [|split; reflexivity].
  pose proof (redispatched_balanced (emit w0 (EvLog (LogResponse (Some r)))) cap) as Hr.
  destruct (chat_completions_create env _ _); cbn [snd];
    (eapply balanced_trans; [exact He|]); [|exact Hr].
  eapply balanced_trans; [exact Hr|]. split; reflexivity.
Qed.

End Facts.
End ChatMore.

(** X1. Without a turn to make ([max_retries <= 0]) both executors return
    [None] at once: no provider call, no sleep, no timestamp, and the
    configuration is the one handed in. *)
Theorem X1_no_budget_no_call
    (env : Env) (cfg : PyDict) (max_retries : Z) (timeout : Q)
    (prompt_cache : bool) (w : World) :
  (max_retries <= 0)%Z ->
  request_chatgpt_engine env cfg max_retries w
  = (Val None, emit (with_config w cfg) (EvLog (LogResponse None)))
  /\ request_anthropic_engine env cfg max_retries timeout prompt_cache w
     = (Val None, with_config w cfg).
Proof.
  intros H. unfold request_chatgpt_engine, request_anthropic_engine.
  replace (Z.to_nat max_retries) with 0%nat by lia. split; reflexivity.
Qed.

Lemma X1_witness_zero_retries :
  (0 <= 0)%Z
  /\ fst (request_chatgpt_engine (Runs.chat_env Runs.thinking_then_answer)
            Runs.chat_config 0 Runs.start) = Val None
  /\ calls (snd (request_chatgpt_engine (Runs.chat_env Runs.thinking_then_answer)
                   Runs.chat_config 0 Runs.start)) = 0%nat.
Proof.
  assert (H : (0 <= 0)%Z) by lia.
  split; [exact H|].
  rewrite (proj1 (X1_no_budget_no_call (Runs.chat_env Runs.thinking_then_answer)
                    Runs.chat_config 500 false Runs.start H)).
  split; reflexivity.
Defined.

(** X2. An exception of the provider that is not an [OpenAIError] is not
    caught by the loop: raised on a turn that follows retryable errors only,
    it leaves the executor as it is, that call being the last, and the
    configuration is untouched. *)
Theorem X2_foreign_exception_propagates
    (env : Env) (cfg : PyDict) (max_retries : Z) (w : World) (k : nat) (x : PyExn) :
  (k < Z.to_nat max_retries)%nat ->
  (forall j, (j < k)%nat ->
     retryable env (chat_completions_create env (calls w + j) cfg) = true) ->
  chat_completions_create env (calls w + k) cfg = Raises x ->
  (forall e, x <> ExnOpenAI e) ->
  fst (request_chatgpt_engine env cfg max_retries w) = Exc x
  /\ calls (snd (request_chatgpt_engine env cfg max_retries w)) = (calls w + k + 1)%nat
  /\ config (snd (request_chatgpt_engine env cfg max_retries w)) = cfg.
Proof.
  intros Hk Hretry Hraise Hforeign.
  destruct (ChatMore.loop_skip env (k:=k) (Z.to_nat max_retries - k) (with_config w cfg))
    as (wk & Hl & Hc & Hf); [exact Hretry|].
  cbn [calls config with_config] in Hc, Hf.
  replace (k + (Z.to_nat max_retries - k))%nat with (Z.to_nat max_retries) in Hl by lia.
  rewrite ChatFacts.engine_eq, Hl.
  destruct (Z.to_nat max_retries - k)%nat as [|n] eqn:Hn; [lia|].
  cbn [chat_loop]. unfold bind. rewrite ChatFacts.chat_attempt_eq, Hc, Hf, Hraise.
  destruct x as [e| | | | | | |msg]; try (exfalso; now apply (Hforeign e));
    cbn [fst snd]; rewrite ChatFacts.dispatched_calls, ChatFacts.dispatched_config;
    repeat split; try assumption; lia.
Qed.

Lemma X2_witness_type_error :
  (0 < Z.to_nat 40)%nat
  /\ chat_completions_create (Runs.chat_env (fun _ _ => Raises ExnTypeError))
       (calls Runs.start + 0) Runs.chat_config = Raises ExnTypeError
  /\ fst (request_chatgpt_engine (Runs.chat_env (fun _ _ => Raises ExnTypeError))
            Runs.chat_config 40 Runs.start) = Exc ExnTypeError
  /\ calls (snd (request_chatgpt_engine (Runs.chat_env (fun _ _ => Raises ExnTypeError))
                   Runs.chat_config 40 Runs.start)) = 1%nat.
Proof.
  assert (Hk : (0 < Z.to_nat 40)%nat) by (vm_compute; lia).
  assert (Hr : chat_completions_create (Runs.chat_env (fun _ _ => Raises ExnTypeError))
                 (calls Runs.start + 0) Runs.chat_config = Raises ExnTypeError)
    by reflexivity.
  split; [exact Hk|]. split; [exact Hr|].
  destruct (X2_foreign_exception_propagates
              (Runs.chat_env (fun _ _ => Raises ExnTypeError)) Runs.chat_config 40
              Runs.start Hk
              (fun j (Hj : (j < 0)%nat) => match Nat.nlt_0_r j Hj with end) Hr
              (fun e (H : ExnTypeError = ExnOpenAI e) =>
                 match H in (_ = y) return match y with
                                           | ExnTypeError => True
                                           | _ => False
                                           end with eq_refl => I end))
    as (H1 & H2 & _).
  split; [exact H1 | exact H2].
Defined.



(** X4. On a connection error the turn ends with a sleep of 5, on an
    [OpenAIError] of no special class with a sleep of 1; in both cases
    nothing is returned and the loop goes on with one turn less. *)
Theorem X4_fixed_waits (env : Env) (w : World) (e : OpenAIError) :
  chat_completions_create env (calls w) (config w) = Raises (ExnOpenAI e) ->
  error_class e = APIConnectionError \/ error_class e = OtherOpenAIError ->
  exists w1,
    chat_attempt env w = (Val None, w1)
    /\ sleeps (trace w1)
       = sleeps (trace (after_gate env w))
         ++ [match error_class e with APIConnectionError => 5 | _ => 1 end]
    /\ calls w1 = S (calls w)
    /\ config w1 = config w
    /\ forall n, chat_loop env (S n) w = chat_loop env n w1.
Proof.
  intros Hraise Hclass.
  pose proof (ChatFacts.chat_attempt_eq env w) as Heq. rewrite Hraise in Heq.
  destruct (ChatFacts.gate_returns env w) as (_ & Hc & Hf).
  unfold on_openai_error in Heq.
  destruct Hclass as [Hclass|Hclass]; rewrite Hclass in *;
    unfold bind, print, log, time_sleep in Heq; cbn [fst snd] in Heq;
    change (Qle_bool 0 5) with true in Heq; change (Qle_bool 0 1) with true in Heq;
    cbn iota in Heq;
    (eexists; split; [exact Heq|]);
    (split; [unfold sleeps, dispatched; cbn; reflexivity|]);
    (split; [cbn [calls emit with_clock pass]; apply ChatFacts.dispatched_calls|]);
    (split; [cbn [config emit with_clock pass]; apply ChatFacts.dispatched_config|]);
    intros n; cbn [chat_loop]; unfold bind at 1; rewrite Heq; reflexivity.
Qed.

Lemma X4_witness_connection_error :
  chat_completions_create
    (Runs.chat_env (fun _ _ => Raises (ExnOpenAI (mkOpenAIError APIConnectionError None
                                                   "Connection error."))))
    (calls Runs.start) (config Runs.start)
  = Raises (ExnOpenAI (mkOpenAIError APIConnectionError None "Connection error."))
  /\ exists w1,
       chat_attempt
         (Runs.chat_env (fun _ _ => Raises (ExnOpenAI (mkOpenAIError APIConnectionError
                                                         None "Connection error."))))
         Runs.start = (Val None, w1)
       /\ calls w1 = 1%nat.
Proof.
  split; [reflexivity|].
  destruct (X4_fixed_waits
              (Runs.chat_env (fun _ _ => Raises (ExnOpenAI (mkOpenAIError
                                                   APIConnectionError None
                                                   "Connection error."))))
              Runs.start
              (e:=mkOpenAIError APIConnectionError None "Connection error.")
              eq_refl (or_introl eq_refl))
    as (w1 & Hrun & _ & Hcalls & _).
  exists w1. split; [exact Hrun | exact Hcalls].
Defined.

(** X5. In every run of the OpenAI-style executor, however it ends, the
    number of dispatch-start timestamps recorded equals the number of
    provider calls made and the number of configurations submitted: each
    call, the bump retry included, goes through the gate once. *)
Theorem X5_every_dispatch_is_stamped
    (env : Env) (cfg : PyDict) (max_retries : Z) (w : World) :
  let w' := snd (request_chatgpt_engine env cfg max_retries w) in
  (calls w <= calls w')%nat
  /\ List.length (stamps (trace w'))
     = (List.length (stamps (trace w)) + (calls w' - calls w))%nat
  /\ List.length (submitted (trace w'))
     = (List.length (submitted (trace w)) + (calls w' - calls w))%nat.
Proof.
  cbv zeta. destruct (ChatMore.engine_balanced env cfg max_retries w) as [H1 H2].
  pose proof (ChatFacts.engine_after_loop env cfg max_retries w) as Ha.
  pose proof (ChatFacts.loop_frame env (Z.to_nat max_retries) (with_config w cfg))
    as [_ Hl]. cbn [calls with_config] in Hl. cbv zeta in Ha.
  assert (Hle : (calls w <= calls (snd (request_chatgpt_engine env cfg max_retries w)))%nat).
  { destruct (fst (chat_loop env (Z.to_nat max_retries) (with_config w cfg))).
    - destruct Ha as [_ [[H _]|[H _]]]; lia.
    - rewrite Ha. cbn [snd]. lia. }
  unfold stamps, submitted. rewrite !length_rev. split; [exact Hle | split; lia].
Qed.

(** X6. A response with content ends the run: returned on a turn that
    follows retryable errors only, it is what the executor returns, that
    call is the last, and the configuration is untouched. *)
Theorem X6_answer_after_retries
    (env : Env) (cfg : PyDict) (max_retries : Z) (w : World) (k : nat)
    (r : ChatCompletion) :
  (k < Z.to_nat max_retries)%nat ->
  (forall j, (j < k)%nat ->
     retryable env (chat_completions_create env (calls w + j) cfg) = true) ->
  chat_completions_create env (calls w + k) cfg = Returns r ->
  first_content_empty r = false ->
  fst (request_chatgpt_engine env cfg max_retries w) = Val (Some r)
  /\ calls (snd (request_chatgpt_engine env cfg max_retries w)) = (calls w + k + 1)%nat
  /\ config (snd (request_chatgpt_engine env cfg max_retries w)) = cfg.
Proof.
  intros Hk Hretry Hret Hcontent.
  destruct (ChatMore.loop_skip env (k:=k) (Z.to_nat max_retries - k) (with_config w cfg))
    as (wk & Hl & Hc & Hf); [exact Hretry|].
  cbn [calls config with_config] in Hc, Hf.
  replace (k + (Z.to_nat max_retries - k))%nat with (Z.to_nat max_retries) in Hl by lia.
  destruct (Z.to_nat max_retries - k)%nat as [|n] eqn:Hn; [lia|].
  assert (Hrun : request_chatgpt_engine env cfg max_retries w
                 = (Val (Some r),
                    emit (dispatched env wk) (EvLog (LogResponse (Some r))))).
  { rewrite ChatFacts.engine_eq, Hl. cbn [chat_loop]. unfold bind at 1.
    rewrite ChatFacts.chat_attempt_eq, Hc, Hf, Hret. unfold ret at 1.
    rewrite ChatFacts.bump_eq, Hcontent. reflexivity. }
  rewrite Hrun. cbn [fst snd calls config emit].
  rewrite ChatFacts.dispatched_calls, ChatFacts.dispatched_config.
  repeat split; try assumption; lia.
Qed.

Lemma X6_witness_after_rate_limit :
  (1 < Z.to_nat 40)%nat
  /\ chat_completions_create (Runs.chat_env Runs.rate_limited_once)
       (calls Runs.start + 1) Runs.chat_config = Returns Runs.final_answer
  /\ first_content_empty Runs.final_answer = false
  /\ fst (request_chatgpt_engine (Runs.chat_env Runs.rate_limited_once)
            Runs.chat_config 40 Runs.start) = Val (Some Runs.final_answer)
  /\ calls (snd (request_chatgpt_engine (Runs.chat_env Runs.rate_limited_once)
                   Runs.chat_config 40 Runs.start)) = 2%nat.
Proof.
  assert (Hk : (1 < Z.to_nat 40)%nat) by (vm_compute; lia).
  assert (Hr : chat_completions_create (Runs.chat_env Runs.rate_limited_once)
                 (calls Runs.start + 1) Runs.chat_config = Returns Runs.final_answer)
    by reflexivity.
  assert (Hc : first_content_empty Runs.final_answer = false) by reflexivity.
  assert (Hj : forall j, (j < 1)%nat ->
                 retryable (Runs.chat_env Runs.rate_limited_once)
                   (chat_completions_create (Runs.chat_env Runs.rate_limited_once)
                              (calls Runs.start + j) Runs.chat_config) = true).
  { intros j Hlt. assert (j = 0%nat) as -> by lia. vm_compute. reflexivity. }
  split; [exact Hk|]. split; [exact Hr|]. split; [exact Hc|].
  destruct (@X6_answer_after_retries (Runs.chat_env Runs.rate_limited_once)
              Runs.chat_config 40 Runs.start 1 Runs.final_answer Hk Hj Hr Hc)
    as (H1 & H2 & _).
  split; [exact H1 | exact H2].
Defined.

Module SpanFacts.

Lemma spaced_span (T : Q) (ts : list Q) :
  forall p, spaced T p ts ->
            (p + inject_Z (Z.of_nat (List.length ts)) * T <= last ts p)%Q.
Proof.
  induction ts as [|t ts IH]; intros p H.
  - cbn [List.length last Z.of_nat]. change (inject_Z 0) with 0%Q. lra.
  - destruct H as [Ht H]. specialize (IH t H).
    rewrite <- (CooldownFacts.last_cons_default t ts p).
    cbn [List.length]. rewrite Nat2Z.inj_succ, <- Z.add_1_r, inject_Z_plus.
    change (inject_Z 1) with 1%Q. lra.
Qed.

End SpanFacts.

(** X7. When the clock does not run backwards, a run of the OpenAI-style
    executor that calls the provider [N] times leaves a last dispatch-start
    timestamp at least [N] cooldown intervals after the one it found: the
    executor cannot call faster than the cooldown allows. *)
Theorem X7_calls_cost_cooldowns
    (env : Env) (cfg : PyDict) (max_retries : Z) (w : World) :
  (forall k, (0 <= elapse env k)%Q) ->
  let w' := snd (request_chatgpt_engine env cfg max_retries w) in
  (_last_openai_request_ts w
   + inject_Z (Z.of_nat (calls w' - calls w)) * _OPENAI_COOLDOWN_SEC env
   <= _last_openai_request_ts w')%Q.
Proof.
  intros Hmono. cbv zeta.
  destruct (@CooldownFacts.keeps_engine env Hmono cfg max_retries w)
    as (ts & Hst & Hsp & Hlast).
  destruct (ChatMore.engine_balanced env cfg max_retries w) as [Hb _].
  assert (Hlen : List.length ts
                 = (calls (snd (request_chatgpt_engine env cfg max_retries w))
                    - calls w)%nat).
  { apply (f_equal (@List.length Q)) in Hst. unfold stamps in Hst.
    rewrite length_app, !length_rev in Hst. lia. }
  rewrite Hlast, <- Hlen. now apply SpanFacts.spaced_span.
Qed.

Lemma X7_witness_two_calls :
  (forall k, (0 <= elapse (Runs.chat_env Runs.rate_limited_once) k)%Q)
  /\ (0 + inject_Z 2 * 1
      <= _last_openai_request_ts
           (snd (request_chatgpt_engine (Runs.chat_env Runs.rate_limited_once)
                   Runs.chat_config 40 Runs.start)))%Q.
Proof.
  assert (H : forall k, (0 <= elapse (Runs.chat_env Runs.rate_limited_once) k)%Q)
    by (intros k; unfold Qle; cbn; lia).
  split; [exact H|].
  exact (X7_calls_cost_cooldowns (Runs.chat_env Runs.rate_limited_once)
           Runs.chat_config 40 Runs.start H).
Defined.

(** X8. The gate blocks for the rest of the interval and no longer: when
    the timestamp on record is not ahead of the clock, which does not run
    backwards before the gate reads it, a call asks [time.sleep] at most
    once, for more than 0 and at most the cooldown interval, and not at all
    once the interval has gone by since the timestamp on record; it always
    returns, calls no provider and leaves the configuration alone. *)
Theorem X8_gate_blocks_at_most_the_interval
    (env : Env) (logger : bool) (w : World) :
  (_last_openai_request_ts w <= clock w)%Q ->
  (0 <= elapse env (ticks w))%Q ->
  let run := _sleep_if_needed_for_openai_cooldown env logger w in
  fst run = Val tt
  /\ calls (snd run) = calls w
  /\ config (snd run) = config w
  /\ ((sleeps (trace (snd run)) = sleeps (trace w)
       /\ (_OPENAI_COOLDOWN_SEC env
           <= clock w + elapse env (ticks w) - _last_openai_request_ts w)%Q)
      \/ (exists d,
            sleeps (trace (snd run)) = sleeps (trace w) ++ [d]
            /\ (0 < d)%Q /\ (d <= _OPENAI_COOLDOWN_SEC env)%Q
            /\ d = (_OPENAI_COOLDOWN_SEC env
                    - (clock w + elapse env (ticks w) - _last_openai_request_ts w))%Q)).
Proof.
  intros Hlast Hpass. cbv zeta.
  unfold _sleep_if_needed_for_openai_cooldown, bind, time_time, get_last.
  cbn [fst snd].
  set (wait := (_OPENAI_COOLDOWN_SEC env - _)%Q).
  destruct (Qltb 0 wait) eqn:Hw.
  - apply CooldownFacts.Qltb_true in Hw.
    assert (Hle : Qle_bool 0 wait = true) by (apply Qle_bool_iff; lra).
    destruct logger; unfold log, ret, time_sleep_ordinary, slept, set_last; cbn; rewrite Hle; cbn;
      (split; [reflexivity|]); (split; [reflexivity|]); (split; [reflexivity|]);
      right; exists wait; (split; [reflexivity|]); (split; [exact Hw|]);
      (split; [|reflexivity]); subst wait; cbn in *; lra.
  - apply CooldownFacts.Qltb_false in Hw.
    unfold ret, set_last; cbn.
    split; [reflexivity|]. split; [reflexivity|]. split; [reflexivity|].
    left. split; [reflexivity|]. subst wait; cbn in *; lra.
Qed.

Lemma X8_witness_first_call :
  (_last_openai_request_ts Runs.start <= clock Runs.start)%Q
  /\ (0 <= elapse Runs.gate_env (ticks Runs.start))%Q
  /\ fst (_sleep_if_needed_for_openai_cooldown Runs.gate_env true Runs.start) = Val tt
  /\ sleeps (trace (snd (_sleep_if_needed_for_openai_cooldown Runs.gate_env true
                           Runs.start))) = [].
Proof.
  assert (H1 : (_last_openai_request_ts Runs.start <= clock Runs.start)%Q)
    by (unfold Qle; cbn; lia).
  assert (H2 : (0 <= elapse Runs.gate_env (ticks Runs.start))%Q)
    by (unfold Qle; cbn; lia).
  split; [exact H1|]. split; [exact H2|].
  split; [exact (proj1 (X8_gate_blocks_at_most_the_interval Runs.gate_env true
                          Runs.start H1 H2))|].
  vm_compute. reflexivity.
Defined.

(* ===================================================================== *)
(** * Further properties of the wait read from an error                   *)
(* ===================================================================== *)

Module ParseFacts.

Ltac by_cases_on c :=
  destruct c as [[] [] [] [] [] [] [] []]; cbn in *; try discriminate; try reflexivity.

Lemma digit_not_space (c : ascii) : is_digit c = true -> is_space c = false.
Proof. by_cases_on c. Qed.

Lemma digit_no_sign (c : ascii) (s : list ascii) :
  is_digit c = true -> sign (c :: s) = (false, c :: s).
Proof. intros H. unfold sign. by_cases_on c. Qed.

Lemma digit_not_point (c : ascii) : is_digit c = true -> Ascii.eqb c "." = false.
Proof. by_cases_on c. Qed.

Lemma digit_not_letter (c x : ascii) :
  is_digit c = true -> (65 <=? code (lower x))%nat = true -> eq_nocase c x = false.
Proof.
  intros Hc Hx. unfold eq_nocase. apply Ascii.eqb_neq. intros E.
  assert (Hl : lower c = c) by (revert Hc; clear; by_cases_on c).
  rewrite Hl in E. subst c. revert Hc Hx. generalize (lower x). clear.
  intros c. by_cases_on c.
Qed.

Lemma digit_val_nonneg (c : ascii) : (0 <= digit_val c)%Z.
Proof. unfold digit_val. lia. Qed.

Lemma digits_value_nonneg (d : list ascii) : (0 <= digits_value d)%Z.
Proof.
  unfold digits_value.
  assert (H : forall acc, (0 <= acc)%Z ->
                (0 <= fold_left (fun a c => a * 10 + digit_val c) d acc)%Z).
  { induction d as [|c d IH]; intros acc Hacc; cbn; [exact Hacc|].
    apply IH. pose proof (digit_val_nonneg c). lia. }
  apply H. lia.
Qed.

Lemma span_digits_spec (s : list ascii) :
  Forall (fun c => is_digit c = true) (fst (span_digits s))
  /\ s = fst (span_digits s) ++ snd (span_digits s).
Proof.
  induction s as [|c s [IH1 IH2]]; cbn; [auto|].
  destruct (is_digit c) eqn:Hc; [|cbn; auto].
  destruct (span_digits s) as [d r]. cbn in *. split; [now constructor | now f_equal].
Qed.

Lemma Forall_firstn {A} (P : A -> Prop) (n : nat) (l : list A) :
  Forall P l -> Forall P (firstn n l).
Proof.
  revert l. induction n as [|n IH]; intros l H; [constructor|].
  destruct H; cbn; constructor; auto.
Qed.

Lemma plus_then_s_digits (j : nat) (d r g : list ascii) :
  Forall (fun c => is_digit c = true) d ->
  (j <= List.length d)%nat ->
  plus_then_s j d r = Some g ->
  Forall (fun c => is_digit c = true) g /\ g <> [].
Proof.
  intros Hd. revert g.
  induction j as [|j IH]; intros g Hj H; cbn [plus_then_s] in H; [discriminate|].
  destruct (starts_with_s (skipn (S j) d ++ r)).
  - injection H as <-. split; [exact (Forall_firstn (S j) Hd)|].
    destruct d; [cbn in Hj; lia | cbn; discriminate].
  - apply IH; [lia | exact H].
Qed.

Lemma point_digits_s_shape (s g : list ascii) :
  point_digits_s s = Some g ->
  (Forall (fun c => is_digit c = true) g /\ g <> [])
  \/ (exists b, g = "."%char :: b /\ Forall (fun c => is_digit c = true) b /\ b <> []).
Proof.
  unfold point_digits_s.
  assert (Hwithout : forall g',
            (let (d, r) := span_digits s in plus_then_s (List.length d) d r) = Some g' ->
            Forall (fun c => is_digit c = true) g' /\ g' <> []).
  { intros g' H. pose proof (span_digits_spec s) as [Hd _].
    destruct (span_digits s) as [d r]. cbn in Hd.
    eapply plus_then_s_digits; eauto. }
  destruct s as [|c s']; [intros H; left; now apply Hwithout|].
  destruct (Ascii.eqb_spec c "."%char) as [->|Hc]; [|intros H; left; now apply Hwithout].
  pose proof (span_digits_spec s') as [Hd _].
  destruct (span_digits s') as [d r] eqn:Hs. cbn in Hd.
  destruct (plus_then_s (List.length d) d r) as [g0|] eqn:Hp.
  - intros H. inversion H; subst. right. exists g0. split; [reflexivity|].
    eapply plus_then_s_digits; eauto.
  - intros H. left. now apply Hwithout.
Qed.

Lemma group_from_decimal (k : nat) (d r g : list ascii) :
  Forall (fun c => is_digit c = true) d ->
  group_from k d r = Some g -> decimal g.
Proof.
  intros Hd. induction k as [|k IH]; cbn [group_from].
  - destruct (point_digits_s (skipn 0 d ++ r)) as [g0|] eqn:Hp; [|discriminate].
    intros H. inversion H; subst. cbn [firstn app].
    destruct (point_digits_s_shape _ Hp) as [[Hg Hne]|(b & -> & Hb & Hne)].
    + now apply whole.
    + now apply (pointed (a:=[])).
  - destruct (point_digits_s (skipn (S k) d ++ r)) as [g0|] eqn:Hp; [|exact IH].
    intros H. inversion H; subst.
    assert (Ha : Forall (fun c => is_digit c = true) (firstn (S k) d))
      by now apply Forall_firstn.
    destruct (point_digits_s_shape _ Hp) as [[Hg Hne]|(b & -> & Hb & Hne)].
    + apply whole; [now apply Forall_app|]. intros E. apply app_eq_nil in E. tauto.
    + now apply pointed.
Qed.

Lemma search_decimal (s g : list ascii) : search s = Some g -> decimal g.
Proof.
  induction s as [|c s IH]; cbn [search]; unfold match_here, group_at.
  - cbn. discriminate.
  - destruct (all_eq_nocase _ _).
    + pose proof (span_digits_spec (skipn (List.length try_again_in) (c :: s))) as [Hd _].
      destruct (span_digits (skipn (List.length try_again_in) (c :: s))) as [d r].
      cbn [fst] in Hd.
      destruct (group_from (List.length d) d r) as [g0|] eqn:Hg.
      * intros H. inversion H; subst. eapply group_from_decimal; eauto.
      * exact IH.
    + exact IH.
Qed.

End ParseFacts.

Module FloatFacts.
Import ParseFacts.

Definition stops (r : list ascii) : Prop :=
  match r with
  | [] => True
  | c :: _ => is_digit c = false /\ Ascii.eqb c "_" = false
  end.

Lemma digitpart_tail_digits (d r : list ascii) :
  Forall (fun c => is_digit c = true) d -> stops r ->
  digitpart_tail (d ++ r) = (d, r).
Proof.
  intros Hd Hr. induction Hd as [|c d Hc Hd IH]; cbn [app digitpart_tail].
  - destruct r as [|c r]; [reflexivity|]. destruct Hr as [H1 H2].
    cbn [digitpart_tail]. now rewrite H1, H2.
  - now rewrite Hc, IH.
Qed.

Lemma digitpart_digits (d r : list ascii) :
  Forall (fun c => is_digit c = true) d -> d <> [] -> stops r ->
  digitpart (d ++ r) = Some (d, r).
Proof.
  intros Hd Hne Hr. destruct Hd as [|c d Hc Hd]; [contradiction|].
  cbn [app digitpart]. now rewrite Hc, digitpart_tail_digits.
Qed.

Lemma point_stops (b : list ascii) : stops ("."%char :: b).
Proof. split; reflexivity. Qed.

Lemma lstrip_kept (c : ascii) (s : list ascii) :
  is_space c = false -> lstrip (c :: s) = c :: s.
Proof. intros H. cbn. now rewrite H. Qed.

(** A number so written starts and ends with a digit or a point. *)
Lemma decimal_ends (g : list ascii) :
  decimal g ->
  (exists c s, g = c :: s /\ (is_digit c = true \/ c = "."%char))
  /\ (exists c s, rev g = c :: s /\ is_digit c = true).
Proof.
  assert (Hlast : forall b, Forall (fun c => is_digit c = true) b -> b <> [] ->
                    forall pre, exists c s, rev (pre ++ b) = c :: s /\ is_digit c = true).
  { intros b Hb Hne pre. destruct (exists_last Hne) as (b' & x & ->).
    rewrite app_assoc, rev_app_distr. cbn. exists x, (rev (pre ++ b')). split; [reflexivity|].
    apply Forall_app in Hb as [_ Hx]. now inversion Hx. }
  intros [b Hb Hne|a b Ha Hb Hne]; split.
  - destruct Hb as [|c b Hc Hb]; [contradiction|]. eauto.
  - apply (Hlast b Hb Hne []).
  - destruct Ha as [|c a Hc Ha]; cbn; eauto.
  - replace (a ++ "."%char :: b) with ((a ++ ["."%char]) ++ b)
      by (now rewrite <- app_assoc).
    apply (Hlast b Hb Hne).
Qed.

Lemma head_facts (c : ascii) (s : list ascii) :
  is_digit c = true \/ c = "."%char ->
  is_space c = false
  /\ sign (c :: s) = (false, c :: s)
  /\ all_eq_nocase (c :: s) (chars "inf") = false
  /\ all_eq_nocase (c :: s) (chars "infinity") = false
  /\ all_eq_nocase (c :: s) (chars "nan") = false.
Proof.
  intros [H| ->].
  - unfold sign. cbn [chars list_ascii_of_string all_eq_nocase].
    revert H. clear. by_cases_on c; intros _; repeat split.
  - repeat split.
Qed.

Lemma strip_decimal (g : list ascii) : decimal g -> strip g = g.
Proof.
  intros H. destruct (decimal_ends H) as [(c & s & -> & Hc) (c' & s' & Hr & Hc')].
  unfold strip. rewrite lstrip_kept by (apply (head_facts s Hc)).
  rewrite Hr, lstrip_kept by (now apply digit_not_space).
  now rewrite <- Hr, rev_involutive.
Qed.

Lemma number_decimal (g : list ascii) :
  decimal g ->
  exists i f, number g = Some (i, f, [])
              /\ Forall (fun c => is_digit c = true) (i ++ f).
Proof.
  intros [b Hb Hne|a b Ha Hb Hne]; unfold number.
  - exists b, []. rewrite <- (app_nil_r b) at 1.
    rewrite digitpart_digits by (auto; exact I). rewrite app_nil_r. auto.
  - assert (Hbb : digitpart b = Some (b, [])).
    { rewrite <- (app_nil_r b) at 1. apply digitpart_digits; auto. exact I. }
    destruct a as [|c a].
    + exists [], b. cbn [app digitpart]. change (is_digit "."%char) with false.
      cbn iota. change (Ascii.eqb "."%char "."%char) with true. cbn iota.
      rewrite Hbb. auto.
    + exists (c :: a), b.
      rewrite digitpart_digits; [|assumption|discriminate|apply point_stops].
      change (Ascii.eqb "."%char "."%char) with true. cbn iota.
      rewrite Hbb. split; [reflexivity | now apply Forall_app].
Qed.

Lemma scale_nonneg (m e : Z) : (0 <= m)%Z -> (0 <= scale m e)%Q.
Proof.
  intros Hm. unfold scale. destruct (0 <=? e)%Z eqn:He.
  - apply Z.leb_le in He. unfold Qle. cbn.
    pose proof (Z.pow_nonneg 10 e ltac:(lia)). nia.
  - unfold Qle. cbn. lia.
Qed.

(** [float] reads a number so written as a non-negative value, or as
    [inf] when it is too large. *)
Lemma py_float_decimal (g : list ascii) :
  decimal g ->
  exists q, (0 <= q)%Q /\ py_float (text g) = Some (to_float false q).
Proof.
  intros H.
  assert (Hch : chars (text g) = g)
    by (unfold chars, text; apply list_ascii_of_string_of_list_ascii).
  unfold py_float. rewrite Hch, (strip_decimal H).
  destruct (decimal_ends H) as [(c & s & Hg & Hc) _].
  destruct (head_facts s Hc) as (_ & Hsign & Hinf & Hinfinity & Hnan).
  rewrite Hg, Hsign, Hinf, Hinfinity, Hnan. cbn [orb]. rewrite <- Hg.
  destruct (number_decimal H) as (i & f & Hnum & Hdigits). rewrite Hnum.
  cbn [exponent]. eexists. split; [|reflexivity].
  apply scale_nonneg, digits_value_nonneg.
Qed.

End FloatFacts.

(** X9. A wait read from the text of an error is never negative and never
    [nan]: whenever the pattern matches, [float] accepts the number
    matched, as a non-negative value or, when it is too large for a double,
    as [+inf]; nothing is read exactly when the pattern matches nowhere.
    So the wait an error without a usable [retry-after] header leads to,
    the default of 2 counted in, is never negative and never [nan]: when
    [time.sleep] refuses it, it is for its size ([OverflowError]) or by the
    platform, not with the [ValueError] of a negative or [nan] length. *)
Theorem X9_message_wait_is_not_negative (e : OpenAIError) :
  match retry_after_message e with
  | Some (Fin q) => (0 <= q)%Q
  | Some (Inf negative) => negative = false
  | Some NaN => False
  | None => search (chars (message e)) = None
  end
  /\ match retry_after_header e with
     | Some _ => True
     | None =>
         match wait_of e with
         | Fin q => (0 <= q)%Q
         | Inf negative => negative = false
         | NaN => False
         end
         /\ forall env x,
              sleep_check env (wait_of e) = inr x ->
              x = ExnOverflowError
              \/ exists q, wait_of e = Fin q /\ platform_sleep env q = Some x
     end.
Proof.
  assert (H : match retry_after_message e with
              | Some (Fin q) => (0 <= q)%Q
              | Some (Inf negative) => negative = false
              | Some NaN => False
              | None => search (chars (message e)) = None
              end).
  { unfold retry_after_message.
    destruct (search (chars (message e))) as [g|] eqn:Hs; [|reflexivity].
    destruct (FloatFacts.py_float_decimal (ParseFacts.search_decimal _ Hs))
      as (q & Hq & ->).
    unfold to_float. destruct (Qle_bool overflow_bound q); [reflexivity | exact Hq]. }
  split; [exact H|].
  unfold wait_of, _extract_retry_after_seconds.
  destruct (retry_after_header e); [exact I|].
  assert (Hw : match match retry_after_message e with
                     | Some f => f
                     | None => Fin 2
                     end with
               | Fin q => (0 <= q)%Q
               | Inf negative => negative = false
               | NaN => False
               end).
  { destruct (retry_after_message e) as [[q|neg|]|]; try exact H.
    unfold Qle. cbn. lia. }
  split; [exact Hw|].
  intros env x Hx.
  destruct (match retry_after_message e with Some f => f | None => Fin 2 end)
    as [q|neg|]; [|cbn in Hx; left; congruence|contradiction].
  cbn [sleep_check] in Hx.
  destruct (beyond_limit q); [left; congruence|].
  destruct (Qltb q 0) eqn:Hn; [apply CooldownFacts.Qltb_true in Hn; lra|].
  destruct (platform_sleep env q) as [y|] eqn:Hp; [|discriminate].
  right. exists q. split; [reflexivity | congruence].
Qed.

(* ===================================================================== *)
(** * Further properties of the Anthropic-style executor                  *)
(* ===================================================================== *)

Module AnthropicMore.

(** What the lemmas below follow of a world. *)
Record Seen : Type := mkSeen {
  seen_calls : nat;
  seen_config : PyDict;
  seen_sleeps : list Q;                       (* newest first *)
  seen_messages : list (Endpoint * PyDict);   (* newest first *)
  seen_stamps : list Q;
  seen_submitted : list PyDict;
  seen_last : Q
}.

Definition see (w : World) : Seen :=
  mkSeen (calls w) (config w) (sleeps_rev (trace w)) (messages_sent_rev (trace w))
         (stamps_rev (trace w)) (submitted_rev (trace w)) (_last_openai_request_ts w).

(** After a turn whose call was made and failed, or could not be made. *)
Definition after_failure (s : Seen) (retries : Z) (called : option (Endpoint * PyDict))
    : Seen :=
  match called with
  | Some (ep, c) =>
      mkSeen (S (seen_calls s)) c (inject_Z (10 * retries) :: seen_sleeps s)
             ((ep, c) :: seen_messages s) (seen_stamps s) (seen_submitted s) (seen_last s)
  | None =>
      mkSeen (seen_calls s) (seen_config s) (inject_Z (10 * retries) :: seen_sleeps s)
             (seen_messages s) (seen_stamps s) (seen_submitted s) (seen_last s)
  end.

(** After a turn whose call returned. *)
Definition after_success (s : Seen) (ep : Endpoint) (c : PyDict) : Seen :=
  mkSeen (S (seen_calls s)) c (seen_sleeps s) ((ep, c) :: seen_messages s)
         (seen_stamps s) (seen_submitted s) (seen_last s).

Section Facts.
Variable env : Env.

Lemma sleep_accepted (retries : Z) :
  (0 <= retries)%Z -> Qle_bool 0 (inject_Z (10 * retries)) = true.
Proof. intros H. apply Qle_bool_iff. unfold Qle, inject_Z. cbn [Qnum Qden]. lia. Qed.

(** The handler: a sleep of [10 * retries], nothing else that counts. *)
Lemma on_exception_seen (start_time timeout : Q) (retries : Z) (w : World) :
  (0 <= retries)%Z ->
  fst (on_exception env start_time timeout retries w) = Val tt
  /\ see (snd (on_exception env start_time timeout retries w))
     = after_failure (see w) retries None.
Proof.
  intros H. unfold on_exception, bind, log, time_time, time_sleep_ordinary, slept. cbn [fst snd].
  rewrite (sleep_accepted H).
  destruct (Qle_bool timeout _); cbn; auto.
Qed.

(** One turn, by what the configuration allows and the provider does. *)
Lemma attempt_seen (retries : Z) (timeout : Q) (prompt_cache : bool) (w : World) :
  (0 <= retries)%Z ->
  let run := anthropic_attempt env retries timeout prompt_cache w in
  let ep := endpoint_used env prompt_cache in
  match (if prompt_cache then set_cache_control (config w) else inl (config w)) with
  | inr _ => fst run = Val None /\ see (snd run) = after_failure (see w) retries None
  | inl c =>
      match messages_create env ep (calls w) c with
      | Returns r => fst run = Val (Some r) /\ see (snd run) = after_success (see w) ep c
      | Raises _ =>
          fst run = Val None
          /\ see (snd run) = after_failure (see w) retries (Some (ep, c))
      end
  end.
Proof.
  intros H. cbv zeta.
  assert (Hexc : forall st w', exists w2,
            on_exception env st timeout retries w' = (Val tt, w2)
            /\ see w2 = after_failure (see w') retries None).
  { intros st w'. destruct (on_exception_seen st timeout w' H) as [H1 H2].
    destruct (on_exception env st timeout retries w') as [[[]|x] w2];
      cbn [fst snd] in *; [eauto | discriminate]. }
  destruct (anthropic_attempt env retries timeout prompt_cache w) as [res w1] eqn:Hrun.
  cbn [fst snd]. revert Hrun.
  unfold anthropic_attempt, try_except, anthropic_call, endpoint_used.
  unfold bind, time_time, get_config, set_config, lift, ret, raise, messages_call.
  destruct prompt_cache; cbn [andb fst snd config calls pass with_clock with_config].
  - destruct (set_cache_control (config w)) as [c|x];
      cbn [fst snd config calls pass with_clock with_config].
    + destruct (has_prompt_caching env);
        cbn [andb fst snd config calls pass with_clock with_config];
        destruct (messages_create env _ (calls w) c) as [r|y];
        cbn [fst snd config calls pass with_clock with_config];
        try (intros Hrun; inversion Hrun; subst; split; reflexivity);
        match goal with |- context [on_exception env ?st _ _ ?w'] =>
          destruct (Hexc st w') as (w2 & -> & Hs); intros Hrun; inversion Hrun; subst;
          rewrite Hs; split; reflexivity end.
    + match goal with |- context [on_exception env ?st _ _ ?w'] =>
        destruct (Hexc st w') as (w2 & -> & Hs); intros Hrun; inversion Hrun; subst;
        rewrite Hs; split; reflexivity end.
  - destruct (messages_create env Messages (calls w) (config w)) as [r|y];
      cbn [fst snd config calls pass with_clock with_config];
      try (intros Hrun; inversion Hrun; subst; split; reflexivity).
    match goal with |- context [on_exception env ?st _ _ ?w'] =>
      destruct (Hexc st w') as (w2 & -> & Hs); intros Hrun; inversion Hrun; subst;
      rewrite Hs; split; reflexivity end.
Qed.

Lemma set_cache_control_fixed (cfg c : PyDict) :
  set_cache_control cfg = inl c -> set_cache_control c = inl c.
Proof.
  intros H. pose proof (AnthropicFacts.set_cache_control_shape cfg) as Hs.
  rewrite H in Hs. destruct Hs as (m0 & msgs & b0 & blocks & Hm & Hc & ->).
  unfold set_cache_control.
  rewrite ChatFacts.dict_get_set_same, ChatFacts.dict_get_set_same.
  now rewrite !ChatFacts.dict_set_twice.
Qed.

Lemma to_submit_fixed (prompt_cache : bool) (cfg c : PyDict) :
  to_submit prompt_cache cfg = inl c -> to_submit prompt_cache c = inl c.
Proof.
  unfold to_submit. destruct prompt_cache; intros H.
  - now apply set_cache_control_fixed in H.
  - reflexivity.
Qed.

Lemma repeat_shift {A} (a : A) (k : nat) (l : list A) :
  repeat a k ++ a :: l = a :: repeat a k ++ l.
Proof. induction k as [|k IH]; cbn; [reflexivity | now rewrite IH]. Qed.

(** [k] failed calls in a row only postpone the rest, at the price of
    their sleeps. *)
Lemma loop_failures (timeout : Q) (prompt_cache : bool) (c : PyDict) (k : nat) :
  forall n retries w,
    (0 <= retries)%Z ->
    to_submit prompt_cache (config w) = inl c ->
    (forall j, (j < k)%nat ->
       exists x, messages_create env (endpoint_used env prompt_cache)
                   (calls w + j) c = Raises x) ->
    exists wk,
      anthropic_loop env (k + n) retries timeout prompt_cache w
      = anthropic_loop env n (retries + Z.of_nat k) timeout prompt_cache wk
      /\ to_submit prompt_cache (config wk) = inl c
      /\ see wk = mkSeen (calls w + k) (config wk)
                    (rev (backoff k retries) ++ sleeps_rev (trace w))
                    (repeat (endpoint_used env prompt_cache, c) k
                     ++ messages_sent_rev (trace w))
                    (stamps_rev (trace w)) (submitted_rev (trace w))
                    (_last_openai_request_ts w).
Proof.
  induction k as [|k IH]; intros n retries w Hr Hc Hfail.
  - exists w. rewrite Z.add_0_r, Nat.add_0_r. cbn. auto.
  - pose proof (attempt_seen timeout prompt_cache w Hr) as Ha. cbv zeta in Ha.
    fold (to_submit prompt_cache (config w)) in Ha. rewrite Hc in Ha.
    destruct (Hfail 0%nat ltac:(lia)) as [x Hx]. rewrite Nat.add_0_r in Hx.
    rewrite Hx in Ha. destruct Ha as [Hres Hsee].
    destruct (anthropic_attempt env retries timeout prompt_cache w) as [res w1] eqn:Hrun.
    cbn [fst snd] in *. subst res.
    assert (Hcalls : calls w1 = S (calls w)) by (apply (f_equal seen_calls) in Hsee; exact Hsee).
    assert (Hcfg : config w1 = c) by (apply (f_equal seen_config) in Hsee; exact Hsee).
    destruct (IH n (retries + 1)%Z w1) as (wk & Hl & Hck & Hseek).
    + lia.
    + rewrite Hcfg. eapply to_submit_fixed; eauto.
    + intros j Hj. rewrite Hcalls.
      replace (S (calls w) + j)%nat with (calls w + S j)%nat by lia. apply Hfail. lia.
    + exists wk. split; [|split; [exact Hck|]].
      * cbn [Nat.add anthropic_loop]. unfold bind at 1. rewrite Hrun, Hl.
        f_equal. lia.
      * rewrite Hseek, Hcalls.
        apply (f_equal seen_sleeps) in Hsee as Hs1.
        apply (f_equal seen_messages) in Hsee as Hs2.
        apply (f_equal seen_stamps) in Hsee as Hs3.
        apply (f_equal seen_submitted) in Hsee as Hs4.
        apply (f_equal seen_last) in Hsee as Hs5.
        cbn in Hs1, Hs2, Hs3, Hs4, Hs5. rewrite Hs1, Hs2, Hs3, Hs4, Hs5.
        cbn [backoff rev repeat]. rewrite <- !app_assoc. cbn [app].
        f_equal; try lia. apply repeat_shift.
Qed.

(** A configuration that cannot be marked: [k] turns without a call. *)
Lemma loop_unmarked (timeout : Q) (x : PyExn) (k : nat) :
  forall retries w,
    (0 <= retries)%Z ->
    set_cache_control (config w) = inr x ->
    exists wk,
      anthropic_loop env k retries timeout true w = (Val None, wk)
      /\ see wk = mkSeen (calls w) (config w)
                    (rev (backoff k retries) ++ sleeps_rev (trace w))
                    (messages_sent_rev (trace w))
                    (stamps_rev (trace w)) (submitted_rev (trace w))
                    (_last_openai_request_ts w).
Proof.
  induction k as [|k IH]; intros retries w Hr Hc.
  - exists w. cbn. auto.
  - pose proof (attempt_seen timeout true w Hr) as Ha. cbv zeta in Ha.
    rewrite Hc in Ha. destruct Ha as [Hres Hsee].
    destruct (anthropic_attempt env retries timeout true w) as [res w1] eqn:Hrun.
    cbn [fst snd] in *. subst res.
    apply (f_equal seen_calls) in Hsee as Hs0.
    apply (f_equal seen_config) in Hsee as Hs00.
    apply (f_equal seen_sleeps) in Hsee as Hs1.
    apply (f_equal seen_messages) in Hsee as Hs2.
    apply (f_equal seen_stamps) in Hsee as Hs3.
    apply (f_equal seen_submitted) in Hsee as Hs4.
    apply (f_equal seen_last) in Hsee as Hs5.
    cbn in Hs0, Hs00, Hs1, Hs2, Hs3, Hs4, Hs5.
    destruct (IH (retries + 1)%Z w1) as (wk & Hl & Hseek); [lia | now rewrite Hs00 |].
    exists wk. cbn [anthropic_loop]. unfold bind at 1. rewrite Hrun, Hl.
    split; [reflexivity|].
    rewrite Hseek, Hs0, Hs00, Hs1, Hs2, Hs3, Hs4, Hs5.
    cbn [backoff rev]. now rewrite <- app_assoc.
Qed.

Lemma total_backoff (k : nat) :
  forall retries,
    (total (backoff k retries)
     == inject_Z (10 * Z.of_nat k * retries + 5 * Z.of_nat k * (Z.of_nat k - 1)))%Q.
Proof.
  induction k as [|k IH]; intros retries; [reflexivity|].
  cbn [backoff total fold_right]. fold (total (backoff k (retries + 1))).
  rewrite IH, <- inject_Z_plus. apply inject_Z_injective. lia.
Qed.

End Facts.
End AnthropicMore.

Module AnthropicRuns.

Section Facts.
Variable env : Env.

(** A loop never raises and never touches what belongs to the
    OpenAI-style path. *)
Lemma loop_calm (timeout : Q) (prompt_cache : bool) (n : nat) :
  forall retries w,
    (0 <= retries)%Z ->
    let run := anthropic_loop env n retries timeout prompt_cache w in
    (exists r, fst run = Val r)
    /\ stamps_rev (trace (snd run)) = stamps_rev (trace w)
    /\ submitted_rev (trace (snd run)) = submitted_rev (trace w)
    /\ _last_openai_request_ts (snd run) = _last_openai_request_ts w
    /\ (calls w <= calls (snd run) <= calls w + n)%nat.
Proof.
  induction n as [|n IH]; intros retries w Hr; cbv zeta; cbn [anthropic_loop].
  - unfold ret. cbn. repeat split; eauto; lia.
  - pose proof (AnthropicMore.attempt_seen env timeout prompt_cache w Hr) as Ha.
    cbv zeta in Ha. unfold bind.
    destruct (anthropic_attempt env retries timeout prompt_cache w) as [res w1].
    cbn [fst snd] in Ha.
    assert (Hstep : exists o, res = Val o
                    /\ stamps_rev (trace w1) = stamps_rev (trace w)
                    /\ submitted_rev (trace w1) = submitted_rev (trace w)
                    /\ _last_openai_request_ts w1 = _last_openai_request_ts w
                    /\ (calls w <= calls w1 <= S (calls w))%nat).
    { destruct (if prompt_cache then set_cache_control (config w) else inl (config w))
        as [c|x].
      - destruct (messages_create env _ (calls w) c) as [r|y];
          destruct Ha as [-> Hs]; eexists; (split; [reflexivity|]);
          apply (f_equal AnthropicMore.seen_stamps) in Hs as H1;
          apply (f_equal AnthropicMore.seen_submitted) in Hs as H2;
          apply (f_equal AnthropicMore.seen_last) in Hs as H3;
          apply (f_equal AnthropicMore.seen_calls) in Hs as H4;
          cbn in H1, H2, H3, H4; repeat split; try assumption; lia.
      - destruct Ha as [-> Hs]. eexists. split; [reflexivity|].
        apply (f_equal AnthropicMore.seen_stamps) in Hs as H1.
        apply (f_equal AnthropicMore.seen_submitted) in Hs as H2.
        apply (f_equal AnthropicMore.seen_last) in Hs as H3.
        apply (f_equal AnthropicMore.seen_calls) in Hs as H4.
        cbn in H1, H2, H3, H4. repeat split; try assumption; lia. }
    destruct Hstep as (o & -> & H1 & H2 & H3 & H4).
    destruct o as [m|].
    + unfold ret. cbn [fst snd]. repeat split; eauto; lia.
    + destruct (IH (retries + 1)%Z w1 ltac:(lia)) as (Hex & G1 & G2 & G3 & G4).
      cbv zeta in *. rewrite G1, G2, G3. repeat split; eauto; try congruence; lia.
Qed.

End Facts.
End AnthropicRuns.

(** X10. The Anthropic-style executor never raises an exception of the
    provider or of marking the configuration: it returns a response or
    [None].  It makes at most [max_retries] calls, and leaves the cooldown
    of the OpenAI-style path alone: no timestamp is recorded, the one on
    record stays, and nothing is submitted to [chat.completions.create]. *)
Theorem X10_anthropic_never_raises
    (env : Env) (cfg : PyDict) (max_retries : Z) (timeout : Q)
    (prompt_cache : bool) (w : World) :
  let run := request_anthropic_engine env cfg max_retries timeout prompt_cache w in
  (exists r, fst run = Val r)
  /\ (calls w <= calls (snd run) <= calls w + Z.to_nat max_retries)%nat
  /\ stamps (trace (snd run)) = stamps (trace w)
  /\ _last_openai_request_ts (snd run) = _last_openai_request_ts w
  /\ submitted (trace (snd run)) = submitted (trace w).
Proof.
  cbv zeta. unfold request_anthropic_engine, bind at 1 2 3 4 5 6, set_config.
  cbn [fst snd].
  destruct (AnthropicRuns.loop_calm env timeout prompt_cache (Z.to_nat max_retries)
              (with_config w cfg) (retries:=0) ltac:(lia))
    as (Hex & H1 & H2 & H3 & H4).
  cbn [trace calls with_config _last_openai_request_ts] in *.
  unfold stamps, submitted. rewrite H1, H2. auto.
Qed.

Module AnthropicTurns.

Section Facts.
Variable env : Env.

(** The executor after [k] failed calls in a row, [m] turns being left. *)
Lemma engine_failures (cfg c : PyDict) (timeout : Q) (prompt_cache : bool)
    (k m : nat) (max_retries : Z) (w : World) :
  Z.to_nat max_retries = (k + m)%nat ->
  to_submit prompt_cache cfg = inl c ->
  (forall j, (j < k)%nat ->
     exists x, messages_create env (endpoint_used env prompt_cache)
                 (calls w + j) c = Raises x) ->
  exists wk,
    request_anthropic_engine env cfg max_retries timeout prompt_cache w
    = anthropic_loop env m (Z.of_nat k) timeout prompt_cache wk
    /\ to_submit prompt_cache (config wk) = inl c
    /\ calls wk = (calls w + k)%nat
    /\ sleeps (trace wk) = sleeps (trace w) ++ backoff k 0
    /\ messages_sent (trace wk)
       = messages_sent (trace w) ++ repeat (endpoint_used env prompt_cache, c) k.
Proof.
  intros Hn Hc Hfail.
  destruct (@AnthropicMore.loop_failures env timeout prompt_cache c k m 0%Z
              (with_config w cfg) ltac:(lia) Hc Hfail) as (wk & Hl & Hck & Hsee).
  exists wk. unfold request_anthropic_engine, bind, set_config. rewrite Hn, Hl.
  cbn [calls trace with_config _last_openai_request_ts] in Hsee.
  apply (f_equal AnthropicMore.seen_calls) in Hsee as H0.
  apply (f_equal AnthropicMore.seen_sleeps) in Hsee as H1.
  apply (f_equal AnthropicMore.seen_messages) in Hsee as H2.
  cbn in H0, H1, H2.
  unfold sleeps, messages_sent. rewrite H1, H2, !rev_app_distr, rev_involutive.
  rewrite rev_repeat. repeat split; auto.
Qed.

End Facts.
End AnthropicTurns.

(** X11. When the provider fails on the first [k] calls of a run of the
    Anthropic-style executor and answers the next one, within the budget,
    the executor returns that answer after [k + 1] calls, all with the same
    configuration on the same endpoint.  It has slept 0, 10, ...,
    10 (k - 1) seconds, one sleep after each failure, 5 k (k - 1) seconds
    in all, and no sleep follows the answer. *)
Theorem X11_linear_backoff_until_answer
    (env : Env) (cfg c : PyDict) (max_retries : Z) (timeout : Q)
    (prompt_cache : bool) (w : World) (k : nat) (r : AnthropicMessage) :
  to_submit prompt_cache cfg = inl c ->
  (k < Z.to_nat max_retries)%nat ->
  (forall j, (j < k)%nat ->
     exists x, messages_create env (endpoint_used env prompt_cache)
                 (calls w + j) c = Raises x) ->
  messages_create env (endpoint_used env prompt_cache) (calls w + k) c = Returns r ->
  let run := request_anthropic_engine env cfg max_retries timeout prompt_cache w in
  fst run = Val (Some r)
  /\ calls (snd run) = (calls w + k + 1)%nat
  /\ config (snd run) = c
  /\ sleeps (trace (snd run)) = sleeps (trace w) ++ backoff k 0
  /\ (total (backoff k 0) == inject_Z (5 * Z.of_nat k * (Z.of_nat k - 1)))%Q
  /\ messages_sent (trace (snd run))
     = messages_sent (trace w) ++ repeat (endpoint_used env prompt_cache, c) (k + 1).
Proof.
  intros Hc Hk Hfail Hok. cbv zeta.
  destruct (@AnthropicTurns.engine_failures env cfg c timeout prompt_cache k
              (S (Z.to_nat max_retries - S k)) max_retries w ltac:(lia) Hc Hfail)
    as (wk & Hrun & Hck & Hcalls & Hsl & Hms).
  rewrite Hrun. cbn [anthropic_loop]. unfold bind at 1 2 3 4 5.
  pose proof (@AnthropicMore.attempt_seen env (Z.of_nat k) timeout prompt_cache wk
                ltac:(lia)) as Ha.
  cbv zeta in Ha. fold (to_submit prompt_cache (config wk)) in Ha.
  rewrite Hck, Hcalls, Hok in Ha. destruct Ha as [Hres Hsee].
  destruct (anthropic_attempt env (Z.of_nat k) timeout prompt_cache wk) as [res w1].
  cbn [fst snd] in *. subst res. unfold ret. cbn [fst snd].
  apply (f_equal AnthropicMore.seen_calls) in Hsee as H0.
  apply (f_equal AnthropicMore.seen_config) in Hsee as H00.
  apply (f_equal AnthropicMore.seen_sleeps) in Hsee as H1.
  apply (f_equal AnthropicMore.seen_messages) in Hsee as H2.
  cbn in H0, H00, H1, H2.
  split; [reflexivity|]. split; [lia|]. split; [exact H00|].
  split; [unfold sleeps in *; now rewrite H1|].
  split.
  - rewrite AnthropicMore.total_backoff. apply inject_Z_injective. lia.
  - unfold messages_sent in *. rewrite H2. cbn [rev]. rewrite Hms, <- app_assoc.
    f_equal. rewrite repeat_app. reflexivity.
Qed.

Lemma X11_witness_two_failures :
  fst (request_anthropic_engine Runs.flaky_anthropic_env Runs.anthropic_config 40 500 true
         Runs.start) = Val (Some (mkAnthropicMessage "msg_3"))
  /\ sleeps (trace (snd (request_anthropic_engine Runs.flaky_anthropic_env
                           Runs.anthropic_config 40 500 true Runs.start)))
     = [0; inject_Z 10]%Q
  /\ calls (snd (request_anthropic_engine Runs.flaky_anthropic_env
                   Runs.anthropic_config 40 500 true Runs.start)) = 3%nat.
Proof.
  assert (Hc : to_submit true Runs.anthropic_config = inl (marked Runs.anthropic_config))
    by reflexivity.
  assert (Hk : (2 < Z.to_nat 40)%nat) by (vm_compute; lia).
  assert (Hf : forall j, (j < 2)%nat ->
            exists x, messages_create Runs.flaky_anthropic_env
                        (endpoint_used Runs.flaky_anthropic_env true)
                        (calls Runs.start + j) (marked Runs.anthropic_config) = Raises x).
  { intros j Hj. exists (ExnException "overloaded").
    destruct j as [|[|j]]; [reflexivity | reflexivity | lia]. }
  assert (Hr : messages_create Runs.flaky_anthropic_env
                 (endpoint_used Runs.flaky_anthropic_env true)
                 (calls Runs.start + 2) (marked Runs.anthropic_config)
               = Returns (mkAnthropicMessage "msg_3")) by reflexivity.
  destruct (@X11_linear_backoff_until_answer Runs.flaky_anthropic_env
              Runs.anthropic_config (marked Runs.anthropic_config) 40 500 true
              Runs.start 2 (mkAnthropicMessage "msg_3") Hc Hk Hf Hr)
    as (H1 & H2 & _ & H4 & _).
  split; [exact H1|]. split; [exact H4 | exact H2].
Defined.

(** X12. When every call fails, a run of the Anthropic-style executor with a
    budget of [n = max_retries] turns returns [None] after exactly [n]
    calls, having slept 0, 10, ..., 10 (n - 1) seconds: a sleep follows the
    last failure too, and the sleeps add up to 5 n (n - 1) seconds. *)
Theorem X12_exhaustion_sleeps_after_last_failure
    (env : Env) (cfg c : PyDict) (max_retries : Z) (timeout : Q)
    (prompt_cache : bool) (w : World) :
  to_submit prompt_cache cfg = inl c ->
  (forall j, (j < Z.to_nat max_retries)%nat ->
     exists x, messages_create env (endpoint_used env prompt_cache)
                 (calls w + j) c = Raises x) ->
  let n := Z.to_nat max_retries in
  let run := request_anthropic_engine env cfg max_retries timeout prompt_cache w in
  fst run = Val None
  /\ calls (snd run) = (calls w + n)%nat
  /\ sleeps (trace (snd run)) = sleeps (trace w) ++ backoff n 0
  /\ (total (backoff n 0) == inject_Z (5 * Z.of_nat n * (Z.of_nat n - 1)))%Q
  /\ messages_sent (trace (snd run))
     = messages_sent (trace w) ++ repeat (endpoint_used env prompt_cache, c) n.
Proof.
  intros Hc Hfail. cbv zeta.
  destruct (@AnthropicTurns.engine_failures env cfg c timeout prompt_cache
              (Z.to_nat max_retries) 0 max_retries w ltac:(lia) Hc Hfail)
    as (wk & Hrun & Hck & Hcalls & Hsl & Hms).
  rewrite Hrun. cbn [anthropic_loop]. unfold ret. cbn [fst snd].
  repeat split; auto.
  rewrite AnthropicMore.total_backoff. apply inject_Z_injective. lia.
Qed.

Lemma X12_witness_forty_failures :
  fst (request_anthropic_engine Runs.gate_env Runs.anthropic_config 40 500 false
         Runs.start) = Val None
  /\ calls (snd (request_anthropic_engine Runs.gate_env Runs.anthropic_config 40 500
                   false Runs.start)) = 40%nat
  /\ (total (sleeps (trace (snd (request_anthropic_engine Runs.gate_env
                                   Runs.anthropic_config 40 500 false Runs.start))))
      == inject_Z 7800)%Q.
Proof.
  assert (Hc : to_submit false Runs.anthropic_config = inl Runs.anthropic_config)
    by reflexivity.
  assert (Hf : forall j, (j < Z.to_nat 40)%nat ->
            exists x, messages_create Runs.gate_env (endpoint_used Runs.gate_env false)
                        (calls Runs.start + j) Runs.anthropic_config = Raises x).
  { intros j _. exists (ExnException "unused"). reflexivity. }
  destruct (@X12_exhaustion_sleeps_after_last_failure Runs.gate_env
              Runs.anthropic_config Runs.anthropic_config 40 500 false Runs.start Hc Hf)
    as (H1 & H2 & H3 & H4 & _).
  split; [exact H1|]. split; [exact H2|].
  rewrite H3. exact H4.
Defined.

(** X13. With [prompt_cache] set and a configuration whose first message has
    no first content block to mark (no messages, an empty list, a string
    content, ...), the exception of the marking statement is caught like a
    provider failure on every turn: the provider is never called, the
    configuration is left as given, the executor sleeps through the whole
    backoff schedule and returns [None]. *)
Theorem X13_unmarkable_configuration_never_sent
    (env : Env) (cfg : PyDict) (max_retries : Z) (timeout : Q)
    (w : World) (x : PyExn) :
  set_cache_control cfg = inr x ->
  let n := Z.to_nat max_retries in
  let run := request_anthropic_engine env cfg max_retries timeout true w in
  fst run = Val None
  /\ calls (snd run) = calls w
  /\ messages_sent (trace (snd run)) = messages_sent (trace w)
  /\ config (snd run) = cfg
  /\ sleeps (trace (snd run)) = sleeps (trace w) ++ backoff n 0.
Proof.
  intros Hx. cbv zeta.
  destruct (@AnthropicMore.loop_unmarked env timeout x (Z.to_nat max_retries) 0%Z
              (with_config w cfg) ltac:(lia) Hx) as (wk & Hl & Hsee).
  unfold request_anthropic_engine, bind, set_config. rewrite Hl. cbn [fst snd].
  cbn [calls config trace with_config _last_openai_request_ts] in Hsee.
  apply (f_equal AnthropicMore.seen_calls) in Hsee as H0.
  apply (f_equal AnthropicMore.seen_config) in Hsee as H00.
  apply (f_equal AnthropicMore.seen_sleeps) in Hsee as H1.
  apply (f_equal AnthropicMore.seen_messages) in Hsee as H2.
  cbn in H0, H00, H1, H2.
  unfold sleeps, messages_sent. rewrite H1, H2, rev_app_distr, rev_involutive.
  repeat split; auto.
Qed.

Lemma X13_witness_chat_messages :
  set_cache_control
    (create_anthropic_config (PList [role_content "user" (VStr "hi")]) 1024 (VInt 1) 1
       default_system_message "claude-2.1" None) = inr ExnTypeError
  /\ fst (request_anthropic_engine Runs.anthropic_env
            (create_anthropic_config (PList [role_content "user" (VStr "hi")]) 1024
               (VInt 1) 1 default_system_message "claude-2.1" None)
            3 500 true Runs.start) = Val None
  /\ calls (snd (request_anthropic_engine Runs.anthropic_env
                   (create_anthropic_config (PList [role_content "user" (VStr "hi")]) 1024
                      (VInt 1) 1 default_system_message "claude-2.1" None)
                   3 500 true Runs.start)) = 0%nat.
Proof.
  assert (Hx : set_cache_control
                 (create_anthropic_config (PList [role_content "user" (VStr "hi")]) 1024
                    (VInt 1) 1 default_system_message "claude-2.1" None)
               = inr ExnTypeError) by reflexivity.
  destruct (@X13_unmarkable_configuration_never_sent Runs.anthropic_env _ 3 500
              Runs.start ExnTypeError Hx) as (H1 & H2 & _).
  split; [exact Hx|]. split; [exact H1 | exact H2].
Defined.

(** X14. What the marking statement of [prompt_cache] does to the output of
    the builders.  A configuration built by [create_anthropic_config] from a
    string is marked: its one text block gains
    ["cache_control": {"type": "ephemeral"}] and nothing else changes.  A
    configuration built from a message list in chat form (the first
    message's content a string), from an empty list, or by
    [create_chatgpt_config], cannot be marked: the statement raises
    [TypeError] ([IndexError] when the string or the list is empty). *)
Theorem X14_marking_needs_content_blocks
    (s : string) (max_tokens : Z) (temperature : PyVal) (batch_size : Z)
    (system_message model : string) (tools : option (list PyVal)) :
  let build p := create_anthropic_config p max_tokens temperature batch_size
                   system_message model tools in
  let str_error (t : string) :=
    if String.eqb t EmptyString then ExnIndexError else ExnTypeError in
  set_cache_control (build (PStr s))
  = inl (dict_set (build (PStr s)) "messages"
           (VList [role_content "user"
                     (VList [VDict [("type"%string, VStr "text");
                                    ("text"%string, VStr s);
                                    ("cache_control"%string,
                                      VDict [("type"%string, VStr "ephemeral")])]])]))
  /\ (forall role text rest,
        set_cache_control (build (PList (role_content role (VStr text) :: rest)))
        = inr (str_error text))
  /\ set_cache_control (build (PList [])) = inr ExnIndexError
  /\ (forall p reasoning_effort,
        set_cache_control
          (create_chatgpt_config p max_tokens temperature batch_size
             system_message model reasoning_effort)
        = inr (str_error system_message)).
Proof.
  cbv zeta. unfold create_anthropic_config.
  repeat split.
  - destruct tools as [[|t ts]|]; reflexivity.
  - intros role text rest.
    destruct tools as [[|t ts]|]; cbn; destruct (String.eqb text EmptyString); reflexivity.
  - destruct tools as [[|t ts]|]; reflexivity.
  - intros [p|l] reasoning_effort; cbn;
      destruct (String.eqb system_message EmptyString); reflexivity.
Qed.

(* ===================================================================== *)
(** * Further properties of the JSON formatter                            *)
(* ===================================================================== *)

Module FormatterMore.
Import Formatter.

Lemma length_append (s t : string) :
  String.length (String.append s t) = (String.length s + String.length t)%nat.
Proof. induction s as [|c s IH]; cbn; [reflexivity | now rewrite IH]. Qed.

Lemma substring_all (t : string) : substring 0 (String.length t) t = t.
Proof. induction t as [|c t IH]; cbn; [reflexivity | now rewrite IH]. Qed.

Lemma substring_append (s t : string) :
  substring (String.length s) (String.length t) (String.append s t) = t.
Proof. induction s as [|c s IH]; cbn; [apply substring_all | exact IH]. Qed.

Lemma ends_with_append (s t : string) : ends_with t (String.append s t) = true.
Proof.
  unfold ends_with. rewrite length_append.
  replace (String.length s + String.length t - String.length t)%nat
    with (String.length s) by lia.
  rewrite substring_append, String.eqb_refl, Bool.andb_true_r.
  apply Nat.leb_le. lia.
Qed.

Lemma with_final_newline_ends (s : string) :
  ends_with newline (with_final_newline s) = true.
Proof.
  unfold with_final_newline. destruct (ends_with newline s) eqn:E;
    [exact E | apply ends_with_append].
Qed.

Lemma with_final_newline_fixed (s : string) :
  with_final_newline (with_final_newline s) = with_final_newline s.
Proof.
  unfold with_final_newline at 1. now rewrite with_final_newline_ends.
Qed.

(** ** Sorting *)

Lemma path_leb_total (p : Path) : forall q, path_leb p q = false -> path_leb q p = true.
Proof.
  induction p as [|a p IH]; intros [|b q]; cbn; try congruence.
  rewrite (String.compare_antisym b a).
  destruct (String.compare a b); cbn; auto; congruence.
Qed.

Lemma insert_sorted_perm (f : JsonFile) (l : list JsonFile) :
  Permutation (insert_sorted f l) (f :: l).
Proof.
  induction l as [|g l IH]; cbn; [reflexivity|].
  destruct (path_leb (path f) (path g)); [reflexivity|].
  rewrite IH. apply perm_swap.
Qed.

Lemma sorted_perm (l : list JsonFile) : Permutation (sorted l) l.
Proof.
  induction l as [|f l IH]; cbn; [reflexivity|].
  fold (sorted l). rewrite insert_sorted_perm. now constructor.
Qed.

Definition in_order (f g : JsonFile) : Prop := path_leb (path f) (path g) = true.

Lemma insert_sorted_order (f : JsonFile) (l : list JsonFile) :
  Sorted in_order l -> Sorted in_order (insert_sorted f l).
Proof.
  induction l as [|g l IH]; intros Hs; cbn.
  - repeat constructor.
  - destruct (path_leb (path f) (path g)) eqn:E.
    + constructor; [exact Hs | constructor; exact E].
    + inversion Hs as [|? ? Hs' Hhd]; subst. constructor; [apply IH, Hs'|].
      destruct l as [|h l]; cbn.
      * constructor. apply path_leb_total, E.
      * destruct (path_leb (path f) (path h)).
        -- constructor. apply path_leb_total, E.
        -- inversion Hhd; subst. now constructor.
Qed.

Lemma sorted_order (l : list JsonFile) : Sorted in_order (sorted l).
Proof.
  induction l as [|f l IH]; cbn; [constructor | now apply insert_sorted_order].
Qed.

Lemma insert_sorted_map (g : JsonFile -> JsonFile) (f : JsonFile) (l : list JsonFile) :
  (forall x, path (g x) = path x) ->
  insert_sorted (g f) (map g l) = map g (insert_sorted f l).
Proof.
  intros Hg. induction l as [|h l IH]; cbn; [reflexivity|].
  rewrite !Hg. destruct (path_leb (path f) (path h)); cbn; [reflexivity | now rewrite IH].
Qed.

Lemma sorted_map (g : JsonFile -> JsonFile) (l : list JsonFile) :
  (forall x, path (g x) = path x) -> sorted (map g l) = map g (sorted l).
Proof.
  intros Hg. induction l as [|f l IH]; cbn; [reflexivity|].
  fold (sorted (map g l)) (sorted l). now rewrite IH, insert_sorted_map.
Qed.

(** ** The counters *)

Definition step (counters : nat * nat * nat) (line : Path * Status) : nat * nat * nat :=
  let '(changed, skipped, errors) := counters in
  match snd line with
  | ERROR _ => (changed, skipped, S errors)
  | UPDATED _ => (S changed, skipped, errors)
  | OK => (changed, S skipped, errors)
  end.

Lemma tally_from (r : list (Path * Status)) :
  forall c s e,
    let '(c', s', e') := fold_left step r (c, s, e) in
    (c' + s' + e' = c + s + e + List.length r)%nat
    /\ e' = (e + count_errors r)%nat.
Proof.
  induction r as [|[p st] r IH]; intros c s e.
  - cbn. split; lia.
  - cbn [fold_left]. unfold step at 2. cbn [snd].
    unfold count_errors. cbn [filter snd List.length].
    destruct st as [err|t|]; cbn [is_error List.length].
    + specialize (IH c s (S e)). destruct (fold_left step r (c, s, S e)) as [[c' s'] e'].
      unfold count_errors in IH. lia.
    + specialize (IH (S c) s e). destruct (fold_left step r (S c, s, e)) as [[c' s'] e'].
      unfold count_errors in IH. lia.
    + specialize (IH c (S s) e). destruct (fold_left step r (c, S s, e)) as [[c' s'] e'].
      unfold count_errors in IH. lia.
Qed.

End FormatterMore.

Module FormatterRuns.
Import Formatter.

(** Induction on a node, with the property at hand for the children of a
    directory. *)
Lemma node_induction (P : Node -> Prop) :
  (forall name c w, P (File name c w)) ->
  (forall name children, Forall P children -> P (Folder name children)) ->
  forall n, P n.
Proof.
  intros HF HD. fix IH 1. intros [name c w | name children]; [apply HF|].
  apply HD. induction children as [|ch rest IHl]; constructor; [apply IH | exact IHl].
Qed.

Section WithJson.
Variable Json : Type.
Variable json_loads : string -> option Json.
Variable json_dumps : Json -> Z -> option string.

Variable after_failed_write : JsonFile -> string -> option string * bool.

Local Abbreviation format := (format_json_file json_loads json_dumps).
Local Abbreviation status := (status_of json_loads json_dumps).
Local Abbreviation formatted := (formatted_file json_loads json_dumps after_failed_write).

(** The result of [format_json_file], case by case. *)
Lemma format_cases (f : JsonFile) (indent : Z) :
  (file_contents f = None /\ format f indent = (false, Some FailedToRead, None))
  \/ (exists orig, file_contents f = Some orig /\ json_loads orig = None
        /\ format f indent = (false, Some InvalidJSON, None))
  \/ (exists orig data, file_contents f = Some orig /\ json_loads orig = Some data
        /\ json_dumps data indent = None
        /\ format f indent = (false, Some FailedToSerialize, None))
  \/ (exists orig data dumped, file_contents f = Some orig
        /\ json_loads orig = Some data /\ json_dumps data indent = Some dumped
        /\ ((with_final_newline dumped = orig /\ format f indent = (false, None, None))
            \/ (with_final_newline dumped <> orig /\ file_writable f = true
                /\ format f indent = (true, None, Some (with_final_newline dumped)))
            \/ (with_final_newline dumped <> orig /\ file_writable f = false
                /\ format f indent = (false, Some FailedToWrite, None)))).
Proof.
  unfold format_json_file.
  destruct (file_contents f) as [orig|]; [|now left].
  right. destruct (json_loads orig) as [data|] eqn:El; [|left; eauto].
  right. destruct (json_dumps data indent) as [dumped|] eqn:Ed; [|left; eauto 6].
  right. exists orig, data, dumped. split; [reflexivity|].
  split; [exact El|]. split; [exact Ed|].
  fold (with_final_newline dumped).
  destruct (String.eqb (with_final_newline dumped) orig) eqn:E.
  - left. apply String.eqb_eq in E. auto.
  - apply String.eqb_neq in E. right.
    destruct (file_writable f); [left | right]; auto.
Qed.

(** [write_text] is called exactly where [to_write] says, with that text. *)
Lemma to_write_spec (f : JsonFile) (indent : Z) :
  match to_write json_loads json_dumps f indent with
  | Some t =>
      (exists orig data dumped,
         file_contents f = Some orig /\ json_loads orig = Some data
         /\ json_dumps data indent = Some dumped
         /\ t = with_final_newline dumped /\ t <> orig)
      /\ format f indent
         = if file_writable f then (true, None, Some t)
           else (false, Some FailedToWrite, None)
  | None =>
      exists err, format f indent = (false, err, None) /\ err <> Some FailedToWrite
  end.
Proof.
  unfold to_write, format_json_file.
  destruct (file_contents f) as [orig|]; [|eexists; split; [reflexivity | discriminate]].
  destruct (json_loads orig) as [data|] eqn:El;
    [|eexists; split; [reflexivity | discriminate]].
  destruct (json_dumps data indent) as [dumped|] eqn:Ed;
    [|eexists; split; [reflexivity | discriminate]].
  cbv zeta. fold (with_final_newline dumped).
  destruct (String.eqb (with_final_newline dumped) orig) eqn:E.
  - eexists. split; [reflexivity | discriminate].
  - apply String.eqb_neq in E. split; [|reflexivity]. eauto 10.
Qed.

Lemma formatted_path (f : JsonFile) (indent : Z) : path (formatted f indent) = path f.
Proof.
  unfold formatted_file. destruct (to_write json_loads json_dumps f indent); [|reflexivity].
  destruct (file_writable f); reflexivity.
Qed.

Lemma find_in_formatted (rec : bool) (indent : Z) :
  forall n prefix,
    find_in rec prefix
      (formatted_node json_loads json_dumps after_failed_write rec indent prefix n)
    = map (fun f => formatted f indent) (find_in rec prefix n).
Proof.
  induction n as [name c w | name children IH] using node_induction; intros prefix.
  - cbn [formatted_node find_in].
    destruct (ends_with ".json" name) eqn:E; cbn [find_in]; rewrite E; [|reflexivity].
    cbn [map]. f_equal.
    pose proof (formatted_path (mkJsonFile (prefix ++ [name]) c w) indent) as Hp.
    cbn [path] in Hp.
    destruct (formatted (mkJsonFile (prefix ++ [name]) c w) indent) as [p' c' w'].
    cbn [path file_contents file_writable] in *. now subst p'.
  - cbn [formatted_node]. destruct rec; [|reflexivity].
    cbn [find_in]. induction IH as [|ch rest Hch _ IHl]; [reflexivity|].
    cbn [map flat_map]. rewrite map_app, Hch, IHl. reflexivity.
Qed.

Lemma find_json_files_formatted (rec : bool) (indent : Z) (children : list Node) :
  find_json_files
    (map (formatted_node json_loads json_dumps after_failed_write rec indent [])
         children) rec
  = map (fun f => formatted f indent) (find_json_files children rec).
Proof.
  unfold find_json_files. induction children as [|ch rest IH]; [reflexivity|].
  cbn [map flat_map]. now rewrite map_app, find_in_formatted, IH.
Qed.

Section RoundTrip.
Variable indent : Z.
Hypothesis round_trip :
  forall s0 d s, json_loads s0 = Some d -> json_dumps d indent = Some s ->
    exists d', json_loads (with_final_newline s) = Some d' /\ json_dumps d' indent = Some s.

(** A second pass on a file whose write did not fail. *)
Lemma formatted_status (f : JsonFile) :
  status f indent <> ERROR FailedToWrite ->
  status (formatted f indent) indent = settled (status f indent)
  /\ to_write json_loads json_dumps (formatted f indent) indent = None.
Proof.
  intros Hnot. pose proof (to_write_spec f indent) as Hspec.
  unfold formatted_file.
  destruct (to_write json_loads json_dumps f indent) as [t|] eqn:Hw.
  - destruct Hspec as ((orig & data & dumped & Hc & Hl & Hd & -> & Hne) & Hf).
    unfold status_of in Hnot |- *. rewrite Hf in *.
    destruct (file_writable f); [|now elim Hnot].
    cbn [settled].
    destruct (round_trip Hl Hd) as (d' & Hl' & Hd').
    unfold to_write, format_json_file. cbn [file_contents file_writable].
    rewrite Hl', Hd'. cbv zeta. fold (with_final_newline dumped).
    rewrite String.eqb_refl. auto.
  - split; [|exact Hw].
    destruct Hspec as (err & Hf & Herr). unfold status_of. rewrite Hf.
    destruct err; reflexivity.
Qed.

Lemma count_errors_settled (r : list (Path * Status)) :
  count_errors (map (fun line => (fst line, settled (snd line))) r) = count_errors r.
Proof.
  unfold count_errors. induction r as [|[p st] r IH]; [reflexivity|].
  cbn [map filter fst snd]. destruct st; cbn [settled is_error List.length]; auto.
Qed.

End RoundTrip.
End WithJson.

(** The paths found lie below the prefix, and their last part ends in
    [.json]. *)
Lemma find_in_paths (rec : bool) :
  forall n prefix f,
    In f (find_in rec prefix n) ->
    exists dirs name,
      path f = prefix ++ dirs ++ [name]
      /\ ends_with ".json" name = true
      /\ (rec = false -> dirs = [])
      /\ (dirs = [] -> exists c w, n = File name c w).
Proof.
  induction n as [name c w | name children IH] using node_induction; intros prefix f.
  - cbn [find_in]. destruct (ends_with ".json" name) eqn:E; [|intros []].
    intros [<-|[]]. exists [], name. cbn. eauto 8.
  - cbn [find_in]. destruct rec; [|intros []].
    intros H.
    assert (Hin : exists dirs nm,
              path f = (prefix ++ [name]) ++ dirs ++ [nm]
              /\ ends_with ".json" nm = true).
    { induction IH as [|ch rest Hch _ IHl]; [destruct H|].
      cbn [flat_map] in H. apply in_app_iff in H. destruct H as [H|H]; [|exact (IHl H)].
      destruct (Hch (prefix ++ [name]) f H) as (dirs & nm & Hp & He & _).
      eauto. }
    destruct Hin as (dirs & nm & Hp & He).
    exists (name :: dirs), nm. rewrite Hp, <- app_assoc. cbn.
    repeat split; auto; discriminate.
Qed.

End FormatterRuns.

Module FormatterOrder.
Import Formatter.

Lemma sorted_paths (l : list JsonFile) :
  Sorted FormatterMore.in_order l ->
  Sorted (fun p q => path_leb p q = true) (map path l).
Proof.
  induction 1 as [|f l Hs IH Hhd]; cbn [map]; constructor; [exact IH|].
  destruct Hhd; cbn [map]; constructor. assumption.
Qed.

Lemma filter_none {A} (p : A -> bool) (l : list A) :
  (forall x, In x l -> p x = false) -> filter p l = [].
Proof.
  induction l as [|a l IH]; intros H; [reflexivity|].
  cbn [filter]. rewrite (H a (or_introl eq_refl)). apply IH.
  intros x Hx. apply H. now right.
Qed.

Lemma found_directly (n : Node) :
  find_in false [] n
  = filter (fun f => (List.length (path f) =? 1)%nat) (find_in true [] n).
Proof.
  destruct n as [name c w | name children].
  - cbn [find_in]. destruct (ends_with ".json" name); reflexivity.
  - symmetry. apply filter_none. intros f Hf.
    destruct (FormatterRuns.find_in_paths true (Folder name children) [] f Hf)
      as (dirs & nm & Hp & _ & _ & Hd).
    rewrite Hp. destruct dirs as [|d dirs].
    + destruct (Hd eq_refl) as (c & w & Habs). discriminate.
    + cbn. rewrite length_app. cbn. apply Nat.eqb_neq. lia.
Qed.

(** The small [json] reads back what it wrote. *)
Lemma literal_round_trip (indent : Z) :
  forall s0 d s, literal_loads s0 = Some d -> literal_dumps d indent = Some s ->
    exists d', literal_loads (with_final_newline s) = Some d'
               /\ literal_dumps d' indent = Some s.
Proof.
  intros s0 d s _ H. destruct d; injection H as <-;
    [exists JNull | exists JTrue | exists JFalse]; split; reflexivity.
Qed.

End FormatterOrder.


(** X16. Formatting is idempotent on a file, when [json] reads back what it
    wrote: if loading a text it has serialised (with the final newline)
    gives data that serialise to the same text, then on a file that a
    first [format_json_file] has not failed to write, a second one calls
    [write_text] no more; it reports the file unchanged where the first
    reported it unchanged or updated, and the same error where the first
    could not read, parse or serialise. *)
Theorem X16_formatting_a_file_twice
    (Json : Type) (json_loads : string -> option Json)
    (json_dumps : Json -> Z -> option string)
    (after_failed_write : Formatter.JsonFile -> string -> option string * bool)
    (indent : Z) (f : Formatter.JsonFile) :
  (forall s0 d s, json_loads s0 = Some d -> json_dumps d indent = Some s ->
     exists d', json_loads (with_final_newline s) = Some d'
                /\ json_dumps d' indent = Some s) ->
  Formatter.status_of json_loads json_dumps f indent
  <> Formatter.ERROR Formatter.FailedToWrite ->
  let again := formatted_file json_loads json_dumps after_failed_write f indent in
  Formatter.status_of json_loads json_dumps again indent
  = settled (Formatter.status_of json_loads json_dumps f indent)
  /\ to_write json_loads json_dumps again indent = None
  /\ formatted_file json_loads json_dumps after_failed_write again indent = again.
Proof.
  intros Hrt Hnot. cbv zeta.
  destruct (@FormatterRuns.formatted_status Json json_loads json_dumps after_failed_write
              indent Hrt f Hnot) as [H1 H2].
  split; [exact H1|]. split; [exact H2|].
  unfold formatted_file at 1. now rewrite H2.
Qed.

Lemma X16_witness_missing_newline :
  Formatter.status_of Formatter.literal_loads Formatter.literal_dumps
    (Formatter.mkJsonFile ["a.json"%string] (Some "null"%string) true) 2
  = Formatter.UPDATED (String.append "null" Formatter.newline)
  /\ Formatter.status_of Formatter.literal_loads Formatter.literal_dumps
       (formatted_file Formatter.literal_loads Formatter.literal_dumps
          (fun f _ => (Formatter.file_contents f, false))
          (Formatter.mkJsonFile ["a.json"%string] (Some "null"%string) true) 2) 2
     = Formatter.OK.
Proof.
  split; [reflexivity|].
  exact (proj1 (@X16_formatting_a_file_twice Formatter.Literal Formatter.literal_loads
                  Formatter.literal_dumps
                  (fun f _ => (Formatter.file_contents f, false)) 2%Z
                  (Formatter.mkJsonFile ["a.json"%string] (Some "null"%string) true)
                  (@FormatterOrder.literal_round_trip 2%Z)
                  ltac:(discriminate))).
Defined.

(** X17. A run of [main] over an existing directory with a non-negative
    indent reports every file [find_json_files] found exactly once, in the
    order of their paths, and its three counters add up to the number of
    files found; the exit status is 0 exactly when the error counter is 0,
    and 1 otherwise. *)
Theorem X17_summary_accounts_for_every_file
    (Json : Type) (json_loads : string -> option Json)
    (json_dumps : Json -> Z -> option string)
    (args : Formatter.Args) (name : string) (children : list Formatter.Node) :
  Formatter.dir args = Some (Formatter.Folder name children) ->
  (0 <= Formatter.indent args)%Z ->
  let found := Formatter.find_json_files children (Formatter.recursive args) in
  let code := fst (Formatter.main json_loads json_dumps args) in
  let lines := snd (Formatter.main json_loads json_dumps args) in
  let '(changed, skipped, errors) := tally lines in
  Permutation (map fst lines) (map Formatter.path found)
  /\ Sorted (fun p q => Formatter.path_leb p q = true) (map fst lines)
  /\ (changed + skipped + errors = List.length found)%nat
  /\ (code = 0%Z <-> errors = 0%nat)
  /\ (code = 1%Z <-> errors <> 0%nat).
Proof.
  intros Hd Hi. cbv zeta. unfold Formatter.main. rewrite Hd.
  destruct (Formatter.indent args <? 0)%Z eqn:E; [apply Z.ltb_lt in E; lia|].
  destruct (Formatter.find_json_files children (Formatter.recursive args))
    as [|f0 found] eqn:F.
  - cbn. repeat split; auto; try constructor; try discriminate; congruence.
  - cbn [fst snd].
    set (r := Formatter.reports json_loads json_dumps children args).
    assert (Hr : map fst r
                 = map Formatter.path
                     (Formatter.sorted
                        (Formatter.find_json_files children (Formatter.recursive args)))).
    { unfold r, Formatter.reports. rewrite map_map. reflexivity. }
    assert (Hlen : List.length r = List.length (f0 :: found)).
    { rewrite <- F, <- (length_map fst r), Hr, length_map.
      apply Permutation_length, FormatterMore.sorted_perm. }
    pose proof (FormatterMore.tally_from r 0 0 0) as Ht.
    change (fold_left FormatterMore.step r (0, 0, 0)%nat) with (tally r) in Ht.
    destruct (tally r) as [[changed skipped] errors].
    destruct Ht as [Hsum Herr]. cbn [Nat.add] in Hsum, Herr.
    split; [rewrite Hr, <- F; apply Permutation_map, FormatterMore.sorted_perm|].
    split; [rewrite Hr; apply FormatterOrder.sorted_paths, FormatterMore.sorted_order|].
    split; [lia|]. rewrite Herr.
    destruct (Nat.eqb (Formatter.count_errors r) 0) eqn:E0.
    + apply Nat.eqb_eq in E0. split; split; intros; auto; try discriminate; lia.
    + apply Nat.eqb_neq in E0. split; split; intros; auto; try discriminate; lia.
Qed.

Lemma X17_witness_one_unreadable :
  tally (snd (Formatter.main Formatter.literal_loads Formatter.literal_dumps
                (Formatter.mkArgs
                   (Some (Formatter.Folder "data"
                            [Formatter.File "b.json" (Some "null"%string) true;
                             Formatter.File "a.json" None true]))
                   false 2)))
  = (1, 0, 1)%nat
  /\ fst (Formatter.main Formatter.literal_loads Formatter.literal_dumps
            (Formatter.mkArgs
               (Some (Formatter.Folder "data"
                        [Formatter.File "b.json" (Some "null"%string) true;
                         Formatter.File "a.json" None true]))
               false 2))
     = 1%Z.
Proof.
  pose proof (@X17_summary_accounts_for_every_file Formatter.Literal
                Formatter.literal_loads Formatter.literal_dumps
                (Formatter.mkArgs
                   (Some (Formatter.Folder "data"
                            [Formatter.File "b.json" (Some "null"%string) true;
                             Formatter.File "a.json" None true]))
                   false 2)
                "data"
                [Formatter.File "b.json" (Some "null"%string) true;
                 Formatter.File "a.json" None true]
                eq_refl ltac:(cbn; lia)) as H.
  cbv zeta in H.
  assert (Et : tally (snd (Formatter.main Formatter.literal_loads Formatter.literal_dumps
                (Formatter.mkArgs
                   (Some (Formatter.Folder "data"
                            [Formatter.File "b.json" (Some "null"%string) true;
                             Formatter.File "a.json" None true]))
                   false 2))) = (1, 0, 1)%nat) by reflexivity.
  rewrite Et in H. split; [exact Et|].
  destruct H as (_ & _ & _ & _ & H). apply H. discriminate.
Defined.

(** X18. Running the formatter twice: when [json] reads back what it wrote
    (as in X16) and no file failed to be written in the first run, a second
    run of [main] with the same arguments over what the first run left
    updates no file.  It reports the same files in the same order,
    unchanged where the first run reported them unchanged or updated and
    with the same error where it reported one, and exits with the same
    status. *)
Theorem X18_second_run_updates_nothing
    (Json : Type) (json_loads : string -> option Json)
    (json_dumps : Json -> Z -> option string)
    (after_failed_write : Formatter.JsonFile -> string -> option string * bool)
    (args : Formatter.Args) :
  (forall s0 d s, json_loads s0 = Some d ->
     json_dumps d (Formatter.indent args) = Some s ->
     exists d', json_loads (with_final_newline s) = Some d'
                /\ json_dumps d' (Formatter.indent args) = Some s) ->
  Forall (fun line => snd line <> Formatter.ERROR Formatter.FailedToWrite)
         (snd (Formatter.main json_loads json_dumps args)) ->
  Formatter.main json_loads json_dumps
    (after_main json_loads json_dumps after_failed_write args)
  = (fst (Formatter.main json_loads json_dumps args),
     map (fun line => (fst line, settled (snd line)))
         (snd (Formatter.main json_loads json_dumps args))).
Proof.
  intros Hrt. unfold after_main.
  destruct (Formatter.dir args) as [[nm c w | name children]|] eqn:Hd;
    try (unfold Formatter.main; rewrite Hd; reflexivity).
  destruct (Formatter.indent args <? 0)%Z eqn:E;
    [unfold Formatter.main; rewrite Hd, E; reflexivity|].
  unfold Formatter.main at 1 3 4. rewrite Hd, E.
  unfold Formatter.main.
  cbn [Formatter.dir Formatter.indent Formatter.recursive]. rewrite E.
  rewrite FormatterRuns.find_json_files_formatted.
  destruct (Formatter.find_json_files children (Formatter.recursive args))
    as [|f0 found] eqn:F; [reflexivity|].
  cbn [snd]. intros Hok.
  assert (Hrep : Formatter.reports json_loads json_dumps
                   (map (formatted_node json_loads json_dumps after_failed_write
                           (Formatter.recursive args) (Formatter.indent args) [])
                        children)
                   (Formatter.mkArgs
                      (Some (Formatter.Folder name
                               (map (formatted_node json_loads json_dumps
                                       after_failed_write
                                       (Formatter.recursive args) (Formatter.indent args)
                                       [])
                                    children)))
                      (Formatter.recursive args) (Formatter.indent args))
                 = map (fun line => (fst line, settled (snd line)))
                       (Formatter.reports json_loads json_dumps children args)).
  { unfold Formatter.reports in *.
    cbn [Formatter.dir Formatter.indent Formatter.recursive].
    rewrite FormatterRuns.find_json_files_formatted.
    rewrite FormatterMore.sorted_map
      by (intros x; apply FormatterRuns.formatted_path).
    rewrite !map_map. apply map_ext_in. intros f Hin. cbn [fst snd].
    rewrite FormatterRuns.formatted_path. f_equal.
    apply (@FormatterRuns.formatted_status Json json_loads json_dumps after_failed_write
             _ Hrt f).
    rewrite Forall_forall in Hok.
    apply (Hok (Formatter.path f,
                Formatter.status_of json_loads json_dumps f (Formatter.indent args))).
    apply in_map_iff. exists f. auto. }
  cbn [map fst snd]. rewrite Hrep, FormatterRuns.count_errors_settled. reflexivity.
Qed.

Lemma X18_witness_missing_newline :
  snd (Formatter.main Formatter.literal_loads Formatter.literal_dumps
         (Formatter.mkArgs
            (Some (Formatter.Folder "data"
                     [Formatter.File "a.json" (Some "null"%string) true]))
            false 2))
  = [(["a.json"%string], Formatter.UPDATED (String.append "null" Formatter.newline))]
  /\ Formatter.main Formatter.literal_loads Formatter.literal_dumps
       (after_main Formatter.literal_loads Formatter.literal_dumps
          (fun f _ => (Formatter.file_contents f, false))
          (Formatter.mkArgs
             (Some (Formatter.Folder "data"
                      [Formatter.File "a.json" (Some "null"%string) true]))
             false 2))
     = (0%Z, [(["a.json"%string], Formatter.OK)]).
Proof.
  split; [reflexivity|].
  rewrite (@X18_second_run_updates_nothing Formatter.Literal Formatter.literal_loads
             Formatter.literal_dumps (fun f _ => (Formatter.file_contents f, false))
             (Formatter.mkArgs
                (Some (Formatter.Folder "data"
                         [Formatter.File "a.json" (Some "null"%string) true]))
                false 2)
             (@FormatterOrder.literal_round_trip 2%Z)).
  - reflexivity.
  - repeat constructor. discriminate.
Defined.

(** X19. What [find_json_files] yields: every path found ends in a name
    with the suffix [.json], and lies directly in the directory unless the
    search is recursive; and the plain search finds exactly those files of
    the recursive search that lie directly in the directory, in the same
    order. *)
Theorem X19_found_files_end_in_json (children : list Formatter.Node) (rec : bool) :
  (forall f, In f (Formatter.find_json_files children rec) ->
     exists dirs name,
       Formatter.path f = dirs ++ [name]
       /\ Formatter.ends_with ".json" name = true
       /\ (rec = false -> dirs = []))
  /\ Formatter.find_json_files children false
     = filter (fun f => (List.length (Formatter.path f) =? 1)%nat)
         (Formatter.find_json_files children true).
Proof.
  split.
  - intros f Hf. unfold Formatter.find_json_files in Hf.
    apply in_flat_map in Hf. destruct Hf as (n & _ & Hf).
    destruct (FormatterRuns.find_in_paths rec n [] f Hf) as (dirs & nm & Hp & He & Hr & _).
    exists dirs, nm. auto.
  - unfold Formatter.find_json_files.
    induction children as [|n rest IH]; [reflexivity|].
    cbn [flat_map]. now rewrite filter_app, <- IH, <- FormatterOrder.found_directly.
Qed.

(** X20. The bump retry on a configuration built by
    [create_chatgpt_config] with ceiling [m].  When the loop ends with a
    response whose content is empty, which reports reasoning tokens and no
    accepted prediction tokens, the executor calls the provider once more
    unless [m] is 0, and leaves the caller's configuration as the builder
    would have built it for the ceiling [m + max(512, m // 2)], with a
    [max_tokens] entry of the same value added after the builder's keys.
    With [m = 0] no call follows and the configuration is left as built. *)
Theorem X20_bump_on_a_built_configuration
    (env : Env) (message : Prompt) (m : Z) (temperature : PyVal) (batch_size : Z)
    (system_message model reasoning_effort : string)
    (max_retries : Z) (w w0 : World) (r : ChatCompletion) (z : Z) :
  let build ceiling :=
    create_chatgpt_config message ceiling temperature batch_size system_message
      model reasoning_effort in
  chat_loop env (Z.to_nat max_retries) (with_config w (build m)) = (Val (Some r), w0) ->
  first_content_empty r = true ->
  reasoning_of r = Some z -> z <> 0%Z ->
  accepted_of r = None \/ accepted_of r = Some 0%Z ->
  let run := request_chatgpt_engine env (build m) max_retries w in
  let raised := (m + Z.max 512 (m / 2))%Z in
  if (m =? 0)%Z
  then fst run = Val (Some r)
       /\ calls (snd run) = calls w0
       /\ config (snd run) = build m
  else calls (snd run) = S (calls w0)
       /\ submitted (trace (snd run))
          = submitted (trace w0) ++ [build raised ++ [("max_tokens"%string, VInt raised)]]
       /\ config (snd run) = build raised ++ [("max_tokens"%string, VInt raised)].
Proof.
  cbv zeta. intros Hloop Hfirst Hreason Hz Hacc.
  set (cfg := create_chatgpt_config message m temperature batch_size system_message
                model reasoning_effort) in *.
  assert (Hcap : configured_cap cfg = VInt m) by (destruct message; reflexivity).
  assert (Hbudget : budget_exhausted cfg r = negb (m =? 0)%Z).
  { unfold budget_exhausted. rewrite Hcap, Hreason. cbn [truthy].
    apply Z.eqb_neq in Hz. rewrite Hz.
    destruct Hacc as [-> | ->]; cbn; now rewrite !Bool.andb_true_r. }
  assert (Hbumped : bumped_config cfg m
                    = create_chatgpt_config message (m + Z.max 512 (m / 2)) temperature
                        batch_size system_message model reasoning_effort
                      ++ [("max_tokens"%string, VInt (m + Z.max 512 (m / 2)))]).
  { destruct message; reflexivity. }
  rewrite ChatFacts.engine_eq.
  pose proof (ChatFacts.loop_frame env (Z.to_nat max_retries) (with_config w cfg))
    as [Hcfg _]. rewrite Hloop in *. cbn [config with_config snd] in Hcfg.
  rewrite ChatFacts.bump_eq. cbn [config emit calls]. rewrite Hcfg.
  rewrite Hfirst, Hbudget, Hcap. cbn [andb py_int].
  destruct (m =? 0)%Z; cbn [negb fst snd calls config emit]; [auto|].
  pose proof (ChatFacts.redispatched_calls env
                (emit w0 (EvLog (LogResponse (Some r)))) m) as Hc.
  pose proof (ChatFacts.redispatched_config env
                (emit w0 (EvLog (LogResponse (Some r)))) m) as Hf.
  pose proof (ChatFacts.redispatched_submitted env
                (emit w0 (EvLog (LogResponse (Some r)))) m) as Hs.
  cbn [calls config trace emit] in Hc, Hf, Hs. rewrite Hcfg in Hf, Hs.
  unfold submitted in *. cbn [submitted_rev] in Hs.
  rewrite <- Hbumped.
  destruct (chat_completions_create env (calls w0) (bumped_config cfg m));
    cbn [fst snd calls config trace emit submitted_rev]; auto.
Qed.

Lemma X20_witness_ceiling_1000 :
  config (snd (request_chatgpt_engine (Runs.chat_env Runs.thinking_then_answer)
                 Runs.chat_config 40 Runs.start))
  = create_chatgpt_config (PStr "hi") 1512 (VInt 1) 1 default_system_message
      "gpt-5-mini-2025-08-07" "minimal"
    ++ [("max_tokens"%string, VInt 1512)].
Proof.
  assert (H1 : chat_loop (Runs.chat_env Runs.thinking_then_answer) (Z.to_nat 40)
                 (with_config Runs.start Runs.chat_config)
               = (Val (Some Runs.thinking),
                  snd (chat_loop (Runs.chat_env Runs.thinking_then_answer) (Z.to_nat 40)
                         (with_config Runs.start Runs.chat_config))))
    by (vm_compute; reflexivity).
  assert (H2 : first_content_empty Runs.thinking = true) by reflexivity.
  assert (H3 : reasoning_of Runs.thinking = Some 64%Z) by reflexivity.
  assert (H4 : 64%Z <> 0%Z) by discriminate.
  assert (H5 : accepted_of Runs.thinking = None \/ accepted_of Runs.thinking = Some 0%Z)
    by (right; reflexivity).
  pose proof (@X20_bump_on_a_built_configuration
                (Runs.chat_env Runs.thinking_then_answer) (PStr "hi") 1000 (VInt 1) 1
                default_system_message "gpt-5-mini-2025-08-07" "minimal" 40 Runs.start
                _ Runs.thinking 64 H1 H2 H3 H4 H5) as H.
  cbv zeta in H. change (1000 =? 0)%Z with false in H. cbv iota in H.
  destruct H as (_ & _ & H). exact H.
Defined.

(* ===================================================================== *)
(** * The wait of a rate-limit error                                      *)
(* ===================================================================== *)

Module SuggestionFacts.
Import ParseFacts FloatFacts.

Definition digits (l : list ascii) : Prop := Forall (fun c => is_digit c = true) l.

Lemma all_eq_nocase_spec (l p : list ascii) :
  all_eq_nocase l p = true <-> Forall2 (fun a b => lower a = lower b) l p.
Proof.
  revert p. induction l as [|a l IH]; intros [|b p]; cbn [all_eq_nocase]; split;
    try discriminate; try (intros H; inversion H; fail); try (constructor; fail);
    try reflexivity.
  - intros H. apply andb_prop in H as [H1 H2]. constructor; [|now apply IH].
    unfold eq_nocase in H1. now apply Ascii.eqb_eq.
  - intros H. inversion H; subst. apply andb_true_intro. split; [|now apply IH].
    unfold eq_nocase. now apply Ascii.eqb_eq.
Qed.

Lemma s_char (c : ascii) : eq_nocase c "s" = true <-> lower c = "s"%char.
Proof. unfold eq_nocase. change (lower "s") with "s"%char. apply Ascii.eqb_eq. Qed.

Lemma s_not_digit (c : ascii) : lower c = "s"%char -> is_digit c = false.
Proof. by_cases_on c. Qed.

Lemma s_not_point (c : ascii) : lower c = "s"%char -> Ascii.eqb c "." = false.
Proof. by_cases_on c. Qed.

Lemma span_digits_app (b r : list ascii) :
  digits b ->
  match r with [] => True | x :: _ => is_digit x = false end ->
  span_digits (b ++ r) = (b, r).
Proof.
  intros Hb Hr. induction Hb as [|c b Hc Hb IH]; cbn [app span_digits].
  - destruct r as [|x r]; [reflexivity|]. cbn [span_digits]. now rewrite Hr.
  - now rewrite Hc, IH.
Qed.

(** ** What the matcher finds is there *)





(** ** What is there the matcher finds *)

Lemma group_from_eq (k : nat) (d r : list ascii) :
  group_from k d r
  = match point_digits_s (skipn k d ++ r) with
    | Some g => Some (firstn k d ++ g)
    | None => match k with
              | O => None
              | S k' => group_from k' d r
              end
    end.
Proof. destruct k; reflexivity. Qed.

Lemma plus_then_s_all (b r : list ascii) (c : ascii) :
  b <> [] -> lower c = "s"%char ->
  plus_then_s (List.length b) b (c :: r) = Some b.
Proof.
  intros Hne Hc. destruct b as [|x b]; [contradiction|].
  cbn [List.length plus_then_s].
  change (skipn (S (List.length b)) (x :: b)) with (skipn (List.length b) b).
  rewrite skipn_all. cbn [app starts_with_s].
  rewrite (proj2 (s_char c) Hc).
  change (firstn (S (List.length b)) (x :: b)) with (x :: firstn (List.length b) b).
  now rewrite firstn_all.
Qed.

Lemma group_at_complete (g post : list ascii) (c : ascii) :
  decimal g -> lower c = "s"%char -> group_at (g ++ c :: post) = Some g.
Proof.
  intros [b Hb Hne|a b Ha Hb Hne] Hc; unfold group_at.
  - rewrite span_digits_app by (auto; now apply s_not_digit).
    destruct (exists_last Hne) as (b' & x & ->).
    rewrite length_app. cbn [List.length]. rewrite Nat.add_1_r.
    rewrite group_from_eq.
    replace (S (List.length b')) with (List.length (b' ++ [x]))
      by (rewrite length_app; cbn; lia).
    rewrite skipn_all. cbn [app].
    assert (Hnone : point_digits_s (c :: post) = None).
    { unfold point_digits_s. rewrite (s_not_point c Hc).
      cbn [span_digits]. rewrite (s_not_digit c Hc). reflexivity. }
    rewrite Hnone. rewrite group_from_eq.
    rewrite skipn_app, skipn_all, Nat.sub_diag. cbn [skipn app].
    apply Forall_app in Hb as [_ Hx]. inversion Hx as [|? ? Hdx _]; subst.
    assert (Hsome : point_digits_s (x :: c :: post) = Some [x]).
    { unfold point_digits_s. rewrite (digit_not_point x Hdx).
      cbn [span_digits]. rewrite Hdx, (s_not_digit c Hc).
      cbn [List.length plus_then_s skipn app starts_with_s firstn].
      now rewrite (proj2 (s_char c) Hc). }
    rewrite Hsome. rewrite firstn_app, firstn_all, Nat.sub_diag. cbn [firstn].
    now rewrite app_nil_r.
  - rewrite <- app_assoc. cbn [app].
    rewrite span_digits_app by (auto; reflexivity).
    rewrite group_from_eq, skipn_all. cbn [app].
    assert (Hsome : point_digits_s ("."%char :: b ++ c :: post) = Some ("."%char :: b)).
    { unfold point_digits_s. change (Ascii.eqb "." ".") with true. cbn iota.
      rewrite span_digits_app by (auto; now apply s_not_digit).
      now rewrite plus_then_s_all. }
    rewrite Hsome, firstn_all. reflexivity.
Qed.

Lemma literal_length (lit : list ascii) :
  Forall2 (fun a b => lower a = lower b) lit (chars "try again in ") ->
  List.length lit = List.length try_again_in.
Proof. intros H. apply Forall2_length in H. exact H. Qed.


Lemma match_here_complete (s g post : list ascii) :
  occurs s [] g post -> match_here s = Some g.
Proof.
  intros (lit & c & -> & Hl & Hdec & Hc). cbn [app]. unfold match_here.
  pose proof (literal_length Hl) as Hlen.
  rewrite <- Hlen, firstn_app, firstn_all, Nat.sub_diag. cbn [firstn].
  pose proof (proj2 (all_eq_nocase_spec _ _) Hl) as Hall.
  change (chars "try again in ") with try_again_in in Hall.
  rewrite app_nil_r, Hall.
  rewrite skipn_app, skipn_all, Nat.sub_diag. cbn [skipn app].
  now apply group_at_complete.
Qed.

Lemma occurs_tail (x : ascii) (s pre g post : list ascii) :
  occurs (x :: s) (x :: pre) g post <-> occurs s pre g post.
Proof.
  split; intros (lit & c & Hs & H); exists lit, c; (split; [|exact H]);
    cbn [app] in *; congruence.
Qed.

Lemma occurs_head (s pre g post : list ascii) :
  occurs s pre g post ->
  pre = [] \/ exists x s' pre', s = x :: s' /\ pre = x :: pre'.
Proof.
  intros (lit & c & Hs & _). destruct pre as [|x pre']; [now left|].
  right. exists x, (pre' ++ lit ++ g ++ c :: post), pre'. auto.
Qed.


(** The place and the number are told by the text. *)
Lemma first_occurrence_unique (s pre g post pre' g' post' : list ascii) :
  first_occurrence s pre g post -> first_occurrence s pre' g' post' -> g = g'.
Proof.
  revert pre pre'. induction s as [|x s IH]; intros pre pre' [Ho Hmin] [Ho' Hmin'].
  - destruct (occurs_head Ho) as [->|(y & s' & p & Hs & _)]; [|discriminate].
    destruct (occurs_head Ho') as [->|(y & s' & p & Hs & _)]; [|discriminate].
    pose proof (match_here_complete Ho) as H1.
    pose proof (match_here_complete Ho') as H2. congruence.
  - pose proof (Hmin _ _ _ Ho') as L1. pose proof (Hmin' _ _ _ Ho) as L2.
    destruct (occurs_head Ho) as [->|(y & s' & p & Hs & ->)];
      destruct (occurs_head Ho') as [->|(y' & s'' & p' & Hs' & ->)];
      cbn [List.length] in *; try lia.
    + pose proof (match_here_complete Ho) as H1.
      pose proof (match_here_complete Ho') as H2. congruence.
    + injection Hs as <- <-. injection Hs' as <- <-.
      apply occurs_tail in Ho, Ho'.
      apply (IH p p'); split; auto.
      * intros a b c Hc. apply (proj2 (occurs_tail x s a b c)) in Hc.
        apply Hmin in Hc. cbn [List.length] in Hc. lia.
      * intros a b c Hc. apply (proj2 (occurs_tail x s a b c)) in Hc.
        apply Hmin' in Hc. cbn [List.length] in Hc. lia.
Qed.

(** ** The number *)






(** ** The header *)





End SuggestionFacts.




Module FormatterExamples.
Import Formatter.

(** A write that fails once the file is open: the file is left empty, and
    a second pass finds no JSON in it. *)
Example emptied_by_a_failed_write :
  let f := mkJsonFile ["a.json"%string] (Some "null"%string) false in
  let left := fun (_ : JsonFile) (_ : string) => (Some EmptyString, true) in
  status_of literal_loads literal_dumps f 2 = ERROR FailedToWrite
  /\ file_contents (formatted_file literal_loads literal_dumps left f 2)
     = Some EmptyString
  /\ status_of literal_loads literal_dumps
       (formatted_file literal_loads literal_dumps left f 2) 2
     = ERROR InvalidJSON.
Proof. vm_compute. repeat split. Qed.

End FormatterExamples.
